(** * queuectl: the job store, the backoff policy and the worker loop

    A shallow embedding of [queuectl/storage.py], [queuectl/backoff.py],
    the loop body of [queuectl/worker.py] and [cmd_enqueue] of
    [queuectl/cli.py], with the properties of the persistence-and-execution
    engine stated over it.

    Conventions of the embedding.
    - The SQLite file is a record [store] with one field per table.  The
      [jobs] and [dlq] tables are lists of rows in insertion (rowid) order;
      the key-value tables [control] and [config] and the [workers] registry
      are finite maps.
    - Clock readings ([time.time()], [_now_iso()]) are explicit arguments of
      the operation that performs them, in the order the code reads them.
    - A Python float ([eta], [time.time()], the backoff delay) is the
      rational number it denotes.  The arithmetic of [backoff.py] and of
      [mark_failed_retry] is IEEE 754 binary64: a result is rounded to the
      nearest binary64 number, ties to even, and a power that is too large
      raises [OverflowError].  Infinities and NaN, which [float()] returns
      for the strings [inf], [nan] and for decimal literals beyond the
      binary64 range, have no counterpart here.
    - A Python exception is a value of type [fault]; an operation that can
      raise returns its result together with the store it leaves behind. *)

From Stdlib Require Import ZArith QArith String Ascii List Bool Lia.
From stdpp Require Import gmap strings list pretty.
From Stdlib Require Import Qpower Qround Lqa.
From stdpp Require Import sorting.

Local Open Scope string_scope.
Local Open Scope Z_scope.

(** ** Rows and tables *)

(** One row of [jobs]; the columns of the [CREATE TABLE jobs] statement. *)
Record job := Job {
  id : string;
  command : string;
  state : string;
  attempts : Z;
  max_retries : Z;
  eta : option Q;
  created_at : string;
  updated_at : string
}.

(** One row of [dlq].  [payload] is the snapshot of the job row that
    [json.dumps] serialises; it is kept as the row it encodes. *)
Record dlq_record := DlqRecord {
  dlq_id : Z;
  job_id : string;
  payload : job;
  last_error : string;
  failed_at : string
}.

(** One row of [workers], keyed by pid in the registry. *)
Record worker_row := WorkerRow {
  started_at : string;
  queues : string
}.

Record store := Store {
  jobs : list job;
  dlq : list dlq_record;
  dlq_seq : Z;                      (* AUTOINCREMENT counter of [dlq.id] *)
  workers : gmap Z worker_row;
  control : gmap string string;
  config : gmap string string
}.

Definition empty_store : store :=
  Store [] [] 0 ∅ ∅ ∅.

Definition with_jobs (js : list job) (s : store) : store :=
  Store js (dlq s) (dlq_seq s) (workers s) (control s) (config s).

Definition with_control (c : gmap string string) (s : store) : store :=
  Store (jobs s) (dlq s) (dlq_seq s) (workers s) c (config s).

Definition with_config (c : gmap string string) (s : store) : store :=
  Store (jobs s) (dlq s) (dlq_seq s) (workers s) (control s) c.

Definition with_workers (w : gmap Z worker_row) (s : store) : store :=
  Store (jobs s) (dlq s) (dlq_seq s) w (control s) (config s).

(** Exceptions that the modelled code can raise. *)
Inductive fault :=
  | KeyError (key : string)
  | ValueError (msg : string)
  | TypeError (msg : string)
  | IntegrityError (msg : string)
  | OverflowError (msg : string).

Inductive result (A : Type) :=
  | Ok (a : A)
  | Raise (e : fault).
Arguments Ok {A} a.
Arguments Raise {A} e.

(** ** Binary64 arithmetic

    A finite float is a rational [m * 2^q] with [|m| < 2^53] and
    [-1074 <= q <= 971].  [round64] is the rounding that CPython and the C
    library apply to an exact result: to the nearest such number, ties to
    the even mantissa, gradual underflow towards zero, and overflow once the
    rounded mantissa no longer fits below [2^1024]. *)

(** The exponent of the last mantissa bit for a number in
    [[2^e, 2^(e+1))]; [-1074] throughout the subnormal range. *)
Definition fexp (e : Z) : Z := Z.max (e - 52) (-1074).

(** [floor (log2 x)] for [x > 0]. *)
Definition ilog2 (x : Q) : Z :=
  let e := Z.log2 (Qnum x) - Z.log2 (Zpos (Qden x)) in
  if Qle_bool (2 ^ e) x then e else e - 1.

Definition round_half_even (y : Q) : Z :=
  let f := Qfloor y in
  match (y - inject_Z f ?= 1 # 2)%Q with
  | Lt => f
  | Gt => f + 1
  | Eq => if Z.even f then f else f + 1
  end.

Inductive rounded :=
  | Finite (v : Q)
  | Overflow.

Definition round64_pos (x : Q) : rounded :=
  let q := fexp (ilog2 x) in
  let m := round_half_even (x * 2 ^ (- q)) in
  if 1024 <=? Z.log2 m + q then Overflow
  else Finite (Qred (inject_Z m * 2 ^ q)).

Definition round64 (x : Q) : rounded :=
  match (x ?= 0)%Q with
  | Eq => Finite 0
  | Gt => round64_pos x
  | Lt =>
      match round64_pos (- x) with
      | Finite v => Finite (- v)
      | Overflow => Overflow
      end
  end.

(** [float(x)] for a number [x]: an int is rounded, a float is returned as
    it is (it is its own rounding, see [round64_exact]). *)
Definition py_float_of (x : Q) : result Q :=
  match round64 x with
  | Finite v => Ok v
  | Overflow => Raise (OverflowError "int too large to convert to float")
  end.

(** [x ** y] on floats, for an exponent [y] that is a non-negative whole
    number, as [float(attempts)] is.  The C library's [pow] is taken to be
    correctly rounded; CPython turns its range error into [OverflowError]
    with the pair [(errno, strerror)] as message (glibc's text), and clears
    the range error of an underflow to zero. *)
Definition float_pow (x y : Q) : result Q :=
  match round64 (x ^ Qfloor y) with
  | Finite v => Ok v
  | Overflow => Raise (OverflowError "(34, 'Numerical result out of range')")
  end.

(** [a + b] on floats: the rounded sum.  A sum overflows (to [inf] in
    Python) only at a magnitude of [2^1024 - 2^970] or more (see
    [float_add_rounds]), out of reach of a clock reading plus a finite
    delay; the exact sum stands in for it here. *)
Definition float_add (a b : Q) : Q :=
  match round64 (a + b) with
  | Finite v => v
  | Overflow => Qred (a + b)
  end.

(** ** SQL statements on [jobs] *)

(** [UPDATE jobs SET ... WHERE id = ?]: every row whose id matches is
    rewritten by [f]. *)
Definition update_where (f : job -> job) (jid : string) (js : list job) : list job :=
  map (fun r => if String.eqb (id r) jid then f r else r) js.

(** [SELECT ... ORDER BY ... LIMIT 1]: the least row under [le]; among rows
    that compare equal the earliest in table order. *)
Fixpoint order_by_limit1 {A : Type} (le : A -> A -> bool) (l : list A) : option A :=
  match l with
  | [] => None
  | x :: l' =>
      match order_by_limit1 le l' with
      | None => Some x
      | Some y => if le x y then Some x else Some y
      end
  end.

(** [WHERE state='pending' AND (eta IS NULL OR eta <= ?)] *)
Definition eligible (now : Q) (r : job) : bool :=
  String.eqb (state r) "pending" &&
  match eta r with
  | None => true
  | Some e => Qle_bool e now
  end.

(** [ORDER BY eta IS NOT NULL, created_at ASC]: rows without eta first, then
    by [created_at] in byte order (the BINARY collation of a TEXT column). *)
Definition claim_order (r1 r2 : job) : bool :=
  match eta r1, eta r2 with
  | None, Some _ => true
  | Some _, None => false
  | _, _ => String.leb (created_at r1) (created_at r2)
  end.

Definition select_claimable (now : Q) (js : list job) : option job :=
  order_by_limit1 claim_order (filter (fun r => eligible now r = true) js).

Definition set_processing (now_iso : string) (r : job) : job :=
  Job (id r) (command r) "processing" (attempts r) (max_retries r) (eta r)
      (created_at r) now_iso.

Definition set_completed (now_iso : string) (r : job) : job :=
  Job (id r) (command r) "completed" (attempts r) (max_retries r) None
      (created_at r) now_iso.

Definition set_failed (n : Z) (next_eta : Q) (now_iso : string) (r : job) : job :=
  Job (id r) (command r) "failed" n (max_retries r) (Some next_eta)
      (created_at r) now_iso.

Definition set_dead (now_iso : string) (r : job) : job :=
  Job (id r) (command r) "dead" (attempts r) (max_retries r) None
      (created_at r) now_iso.

Definition set_pending (now_iso : string) (r : job) : job :=
  Job (id r) (command r) "pending" 0 (max_retries r) None
      (created_at r) now_iso.

(** ** Storage: job primitives *)

(** The dict handed to [Storage.enqueue]; [None] is an absent key. *)
Record job_dict := JobDict {
  d_id : option string;
  d_command : option string;
  d_state : option string;
  d_attempts : option Z;
  d_max_retries : option Z;
  d_created_at : option string;
  d_updated_at : option string
}.

(** [d.get(k) or dflt] on a string: an absent key and the empty string both
    give the default. *)
Definition get_or (o : option string) (dflt : string) : string :=
  match o with
  | Some s => if String.eqb s "" then dflt else s
  | None => dflt
  end.

Definition has_id (jid : string) (js : list job) : bool :=
  existsb (fun r => String.eqb (id r) jid) js.

Definition enqueue (d : job_dict) (now_iso : string) (s : store)
  : result string * store :=
  match d_id d with
  | None => (Raise (KeyError "id"), s)
  | Some job_id =>
      let created := get_or (d_created_at d) now_iso in
      let updated := get_or (d_updated_at d) created in
      let st := get_or (d_state d) "pending" in
      let maxr := default 3 (d_max_retries d) in
      let att := default 0 (d_attempts d) in
      match d_command d with
      | None => (Raise (KeyError "command"), s)
      | Some cmd =>
          if has_id job_id (jobs s)
          then (Raise (IntegrityError "UNIQUE constraint failed: jobs.id"), s)
          else (Ok job_id,
                with_jobs (jobs s ++ [Job job_id cmd st att maxr None created updated]) s)
      end
  end.

Definition get_job (jid : string) (s : store) : option job :=
  find (fun r => String.eqb (id r) jid) (jobs s).

Definition delete_job (jid : string) (s : store) : bool * store :=
  (has_id jid (jobs s),
   with_jobs (filter (fun r => String.eqb (id r) jid = false) (jobs s)) s).

Definition pop_pending_for_run (now : Q) (now_iso : string) (s : store)
  : option job * store :=
  match select_claimable now (jobs s) with
  | None => (None, s)
  | Some row =>
      (Some row, with_jobs (update_where (set_processing now_iso) (id row) (jobs s)) s)
  end.

Definition mark_completed (jid : string) (now_iso : string) (s : store) : store :=
  with_jobs (update_where (set_completed now_iso) jid (jobs s)) s.

(** [next_eta = time.time() + delay_seconds], a sum of two floats. *)
Definition mark_failed_retry (jid : string) (n : Z) (delay_seconds : Q)
    (now : Q) (now_iso : string) (s : store) : store :=
  let next_eta := float_add now delay_seconds in
  with_jobs (update_where (set_failed n next_eta now_iso) jid (jobs s)) s.

(** [_now_iso()] is read twice: once for [failed_at], once for [updated_at]. *)
Definition move_to_dlq (job_row : job) (err : string)
    (failed_iso updated_iso : string) (s : store) : store :=
  let rec := DlqRecord (dlq_seq s + 1) (id job_row) job_row err failed_iso in
  Store (update_where (set_dead updated_iso) (id job_row) (jobs s))
        (dlq s ++ [rec]) (dlq_seq s + 1)
        (workers s) (control s) (config s).

Definition retry_from_dlq (jid : string) (now_iso : string) (s : store)
  : bool * store :=
  match find (fun d => String.eqb (job_id d) jid) (dlq s) with
  | None => (false, s)
  | Some _ =>
      (true,
       Store (update_where (set_pending now_iso) jid (jobs s))
             (filter (fun d => String.eqb (job_id d) jid = false) (dlq s))
             (dlq_seq s) (workers s) (control s) (config s))
  end.

(** ** Storage: workers, control flag, config *)

Definition register_worker (pid : Z) (now_iso : string) (qs : string) (s : store) : store :=
  with_workers (<[pid := WorkerRow now_iso qs]> (workers s)) s.

Definition deregister_worker (pid : Z) (s : store) : store :=
  with_workers (delete pid (workers s)) s.

Definition request_stop (s : store) : store :=
  with_control (<["stop_requested" := "1"]> (control s)) s.

Definition clear_stop (s : store) : store :=
  with_control (delete "stop_requested" (control s)) s.

Definition is_stop_requested (s : store) : bool :=
  match control s !! "stop_requested" with
  | Some _ => true
  | None => false
  end.

Definition config_set (key value : string) (s : store) : store :=
  with_config (<[key := value]> (config s)) s.

Definition config_get (key : string) (dflt : option string) (s : store) : option string :=
  match config s !! key with
  | Some v => Some v
  | None => dflt
  end.

(** ** Backoff policy *)

(** [float(base) ** float(attempts)] after clamping a negative [attempts].
    Both conversions are evaluated, [base] first, before the power. *)
Definition compute_delay (base : Q) (attempts : Z) : result Q :=
  let attempts := if attempts <? 0 then 0 else attempts in
  match py_float_of base with
  | Raise e => Raise e
  | Ok b =>
      match py_float_of (inject_Z attempts) with
      | Raise e => Raise e
      | Ok y => float_pow b y
      end
  end.

(** ** Python builtins taken as parameters

    [int(str)] and [float(str)] parse a configuration value; [Raise] is the
    [ValueError] of an unparsable string, [Ok] carries the number that the
    string denotes ([float] already rounded to binary64). *)
Section Builtins.

Variable py_int : string -> result Z.
Variable py_float : string -> result Q.

(** ** The enqueue command of the CLI, from the parsed JSON payload on *)

Definition cmd_enqueue (d : job_dict) (now_iso : string) (s : store)
  : result string * store :=
  let filled :=
    match d_max_retries d with
    | Some _ => Ok d
    | None =>
        match config_get "max_retries" (Some "3") s with
        | None => Raise (TypeError "int() argument")
        | Some v =>
            match py_int v with
            | Ok n => Ok (JobDict (d_id d) (d_command d) (d_state d) (d_attempts d)
                                  (Some n) (d_created_at d) (d_updated_at d))
            | Raise e => Raise e
            end
        end
    end in
  match filled with
  | Raise e => (Raise e, s)
  | Ok d1 =>
      let d2 :=
        match d_state d1 with
        | Some _ => d1
        | None => JobDict (d_id d1) (d_command d1) (Some "pending") (d_attempts d1)
                          (d_max_retries d1) (d_created_at d1) (d_updated_at d1)
        end in
      enqueue d2 now_iso s
  end.

(** ** The worker loop body *)

(** What [subprocess.run(command, shell=True)] did. *)
Inductive outcome :=
  | Exited (returncode : Z)
  | FileNotFound (msg : string)
  | OtherException (name msg : string).

Definition fault_name (e : fault) : string :=
  match e with
  | KeyError _ => "KeyError"
  | ValueError _ => "ValueError"
  | TypeError _ => "TypeError"
  | IntegrityError _ => "IntegrityError"
  | OverflowError _ => "OverflowError"
  end.

Definition fault_msg (e : fault) : string :=
  match e with
  | KeyError m | ValueError m | TypeError m | IntegrityError m | OverflowError m => m
  end.

(** The block that each of the three failure branches repeats, entered with
    the already incremented [attempts]:
    [if attempts > max_retries: move_to_dlq(job, err)
     else: base = float(config_get("backoff_base", "2")); ...]. *)
Definition retry_or_dead (j : job) (n : Z) (err : string)
    (now : Q) (iso1 iso2 : string) (s : store) : result store :=
  if n >? max_retries j then Ok (move_to_dlq j err iso1 iso2 s)
  else
    match config_get "backoff_base" (Some "2") s with
    | None => Raise (TypeError "float() argument")
    | Some v =>
        match py_float v with
        | Raise e => Raise e
        | Ok base =>
            match compute_delay base n with
            | Raise e => Raise e
            | Ok delay => Ok (mark_failed_retry (id j) n delay now iso1 s)
            end
        end
    end.

(** The loop body after a successful claim; [j] is the dict that
    [pop_pending_for_run] returned.  A fault raised inside the [try] (an
    unparsable [backoff_base], a delay that overflows) is caught by
    [except Exception], which increments [attempts] once more; a fault
    raised inside a handler leaves the loop. *)
Definition run_claimed (j : job) (out : outcome)
    (now : Q) (iso1 iso2 : string) (s : store) : result store :=
  let n := attempts j in
  match out with
  | Exited rc =>
      if rc =? 0 then Ok (mark_completed (id j) iso1 s)
      else
        let n := n + 1 in
        match retry_or_dead j n ("Exit " ++ pretty rc) now iso1 iso2 s with
        | Ok s' => Ok s'
        | Raise e =>
            let n := n + 1 in
            retry_or_dead j n (fault_name e ++ ": " ++ fault_msg e) now iso1 iso2 s
        end
  | FileNotFound msg =>
      let n := n + 1 in
      retry_or_dead j n ("FileNotFoundError: " ++ msg) now iso1 iso2 s
  | OtherException name msg =>
      let n := n + 1 in
      retry_or_dead j n (name ++ ": " ++ msg) now iso1 iso2 s
  end.

(** One pass of the [while] loop: claim, then run and classify.  With no
    job to claim the worker sleeps and the store is as it was.  A fault
    that leaves the loop is returned with the store it leaves behind (the
    claim is committed, the failure branch wrote nothing). *)
Definition worker_iteration (claim_now : Q) (claim_iso : string) (out : outcome)
    (now : Q) (iso1 iso2 : string) (s : store) : option fault * store :=
  match pop_pending_for_run claim_now claim_iso s with
  | (None, s') => (None, s')
  | (Some j, s') =>
      match run_claimed j out now iso1 iso2 s' with
      | Ok s'' => (None, s'')
      | Raise e => (Some e, s')
      end
  end.

(** An execution that takes one of the three failure branches. *)
Definition is_failure (out : outcome) : bool :=
  match out with
  | Exited rc => negb (rc =? 0)
  | _ => true
  end.

(** ** Histories of the store

    The calls that the CLI and the workers make on one database file, each
    taken whole: a worker pass is one [OpIterate], its claim and the
    write-back of its outcome with nothing in between.  (The loop of
    [run_loop] below does let other calls in between the two.) *)
Inductive op :=
  | OpEnqueue (d : job_dict) (now_iso : string)
  | OpIterate (claim_now : Q) (claim_iso : string) (out : outcome)
              (now : Q) (iso1 iso2 : string)
  | OpRetryFromDlq (jid : string) (now_iso : string)
  | OpDeleteJob (jid : string)
  | OpRequestStop
  | OpClearStop
  | OpConfigSet (key value : string)
  | OpRegisterWorker (pid : Z) (now_iso : string) (qs : string)
  | OpDeregisterWorker (pid : Z).

Definition apply_op (o : op) (s : store) : store :=
  match o with
  | OpEnqueue d now_iso => snd (enqueue d now_iso s)
  | OpIterate claim_now claim_iso out now iso1 iso2 =>
      snd (worker_iteration claim_now claim_iso out now iso1 iso2 s)
  | OpRetryFromDlq jid now_iso => snd (retry_from_dlq jid now_iso s)
  | OpDeleteJob jid => snd (delete_job jid s)
  | OpRequestStop => request_stop s
  | OpClearStop => clear_stop s
  | OpConfigSet key value => config_set key value s
  | OpRegisterWorker pid now_iso qs => register_worker pid now_iso qs s
  | OpDeregisterWorker pid => deregister_worker pid s
  end.

Definition run_ops (ops : list op) (s : store) : store :=
  fold_left (fun s o => apply_op o s) ops s.

End Builtins.

(** An enqueue whose row starts within its retry budget. *)
Definition within_budget (o : op) : Prop :=
  match o with
  | OpEnqueue d _ =>
      0 <= default 3 (d_max_retries d) /\
      default 0 (d_attempts d) <= default 3 (d_max_retries d)
  | _ => True
  end.

(** ** Two concurrent claimers

    [pop_pending_for_run] statement by statement, for two callers that share
    the database file.  [BEGIN IMMEDIATE] takes the database write lock and
    can only be executed while no other connection holds it; [COMMIT] (run
    by [_txn] when the [with] block is left, also through [return])
    releases it.  A schedule is the order in which the callers execute
    their next statement. *)
Inductive caller := CallerA | CallerB.

Inductive claim_pc :=
  | AtBegin                          (* [now] read, next: BEGIN IMMEDIATE *)
  | AtSelect                         (* in the transaction, next: SELECT *)
  | AtUpdate (row : option job)      (* [fetchone()] done, next: the [if] *)
  | AtCommit (row : job)             (* UPDATE done, next: COMMIT *)
  | Finished (ret : option job).     (* the call returned [ret] *)

Record race := Race {
  db : store;
  writer : option caller;            (* holder of the write lock *)
  pc_a : claim_pc;
  pc_b : claim_pc
}.

(** The clock readings of the two callers. *)
Record clocks := Clocks {
  now_a : Q; iso_a : string;
  now_b : Q; iso_b : string
}.

Definition pc_of (c : caller) (r : race) : claim_pc :=
  match c with CallerA => pc_a r | CallerB => pc_b r end.

Definition now_of (k : clocks) (c : caller) : Q :=
  match c with CallerA => now_a k | CallerB => now_b k end.

Definition iso_of (k : clocks) (c : caller) : string :=
  match c with CallerA => iso_a k | CallerB => iso_b k end.

Definition set_pc (c : caller) (p : claim_pc) (w : option caller) (d : store)
    (r : race) : race :=
  match c with
  | CallerA => Race d w p (pc_b r)
  | CallerB => Race d w (pc_a r) p
  end.

(** The next statement of caller [c]; [None] when [c] cannot move (it waits
    for the lock, or its call has returned). *)
Definition race_step (k : clocks) (c : caller) (r : race) : option race :=
  match pc_of c r with
  | AtBegin =>
      match writer r with
      | None => Some (set_pc c AtSelect (Some c) (db r) r)
      | Some _ => None
      end
  | AtSelect =>
      Some (set_pc c (AtUpdate (select_claimable (now_of k c) (jobs (db r))))
                   (writer r) (db r) r)
  | AtUpdate None =>
      Some (set_pc c (Finished None) None (db r) r)
  | AtUpdate (Some row) =>
      Some (set_pc c (AtCommit row) (writer r)
                   (with_jobs (update_where (set_processing (iso_of k c)) (id row)
                                            (jobs (db r))) (db r)) r)
  | AtCommit row =>
      Some (set_pc c (Finished (Some row)) None (db r) r)
  | Finished _ => None
  end.

Fixpoint race_run (k : clocks) (sched : list caller) (r : race) : option race :=
  match sched with
  | [] => Some r
  | c :: sched' =>
      match race_step k c r with
      | Some r' => race_run k sched' r'
      | None => None
      end
  end.

Definition race_start (s : store) : race :=
  Race s None AtBegin AtBegin.

(** The two serial executions: one caller's whole call, then the other's.
    The triple is (what A got, what B got, the store afterwards). *)
Definition serial_claims (k : clocks) (first : caller) (s : store)
  : option job * option job * store :=
  match first with
  | CallerA =>
      let '(ra, s1) := pop_pending_for_run (now_a k) (iso_a k) s in
      let '(rb, s2) := pop_pending_for_run (now_b k) (iso_b k) s1 in
      (ra, rb, s2)
  | CallerB =>
      let '(rb, s1) := pop_pending_for_run (now_b k) (iso_b k) s in
      let '(ra, s2) := pop_pending_for_run (now_a k) (iso_a k) s1 in
      (ra, rb, s2)
  end.

(** ** Predicates used in the statements *)

(** [j] is the one row of [jobs] that the claim query accepts at [now]. *)
Definition sole_eligible (now : Q) (s : store) (j : job) : Prop :=
  j ∈ jobs s /\ eligible now j = true /\
  forall r, r ∈ jobs s -> eligible now r = true -> r = j.


(** [id] is the primary key of [jobs]. *)
Definition unique_ids (s : store) : Prop :=
  NoDup (map id (jobs s)).

Definition live_state (st : string) : bool :=
  String.eqb st "pending" || String.eqb st "processing" ||
  String.eqb st "completed" || String.eqb st "failed".

(** [attempts <= max_retries] on every row in a live state. *)
Definition attempts_bounded (s : store) : Prop :=
  Forall (fun r => live_state (state r) = true -> attempts r <= max_retries r) (jobs s).

(** The bound as the code maintains it: on every row, dead ones included,
    and with a non-negative budget. *)
Definition in_budget (r : job) : Prop :=
  0 <= max_retries r /\ attempts r <= max_retries r.

Definition budget_inv (s : store) : Prop :=
  unique_ids s /\ Forall in_budget (jobs s).

(** Every DLQ record names a job that is in [jobs]. *)
Definition dlq_ids_known (s : store) : Prop :=
  Forall (fun d => job_id d ∈ map id (jobs s)) (dlq s).

(** [delete_job] is defined by the store but called by neither the CLI nor
    the worker. *)
Definition not_delete (o : op) : Prop :=
  match o with
  | OpDeleteJob _ => False
  | _ => True
  end.

Definition dlq_of (jid : string) (s : store) : list dlq_record :=
  filter (fun d => String.eqb (job_id d) jid = true) (dlq s).

(** ** Sample data

    A small database and parsers for the two configuration values, used to
    run the statements below on concrete inputs. *)
Definition sample_int (v : string) : result Z :=
  if String.eqb v "3" then Ok 3
  else if String.eqb v "5" then Ok 5
  else Raise (ValueError ("invalid literal for int() with base 10: " ++ v)).

Definition sample_float (v : string) : result Q :=
  if String.eqb v "2" then Ok 2%Q
  else if String.eqb v "3" then Ok 3%Q
  else Raise (ValueError ("could not convert string to float: " ++ v)).

Definition job_due : job :=
  Job "due" "make report" "pending" 1 3 (Some 5%Q)
      "2026-01-01T08:00:00Z" "2026-01-01T08:00:05Z".

Definition job_later : job :=
  Job "later" "make backup" "pending" 2 3 (Some 100%Q)
      "2026-01-01T07:00:00Z" "2026-01-01T07:00:09Z".

Definition job_fresh : job :=
  Job "fresh" "echo hi" "pending" 0 3 None
      "2026-01-01T09:00:00Z" "2026-01-01T09:00:00Z".

Definition job_done : job :=
  Job "done" "true" "completed" 0 3 None
      "2026-01-01T06:00:00Z" "2026-01-01T06:00:01Z".

Definition job_gone : job :=
  Job "gone" "false" "dead" 3 3 None
      "2026-01-01T05:00:00Z" "2026-01-01T05:00:30Z".

Definition sample_store : store :=
  Store [job_due; job_later; job_fresh; job_done; job_gone]
        [DlqRecord 1 "gone" job_gone "Exit 1" "2026-01-01T05:00:30Z"]
        1 ∅ ∅ ∅.

(** The same database without the past-due job: one claimable row. *)
Definition single_store : store :=
  with_jobs [job_later; job_fresh; job_done; job_gone] sample_store.

Definition sample_clocks : clocks :=
  Clocks 10%Q "2026-01-01T10:00:00Z" 11%Q "2026-01-01T10:00:01Z".

Definition minimal_dict (jid cmd : string) : job_dict :=
  JobDict (Some jid) (Some cmd) None None None None None.

Definition sample_ops : list op :=
  [ OpEnqueue (JobDict (Some "a") (Some "exit 1") None None (Some 2) None None)
              "2026-01-01T10:00:00Z";
    OpEnqueue (JobDict (Some "b") (Some "exit 1") None None (Some 0) None None)
              "2026-01-01T10:00:01Z";
    OpIterate 20%Q "2026-01-01T10:00:20Z" (Exited 1)
              21%Q "2026-01-01T10:00:21Z" "2026-01-01T10:00:21Z";
    OpRequestStop ].

(** ** Storage: queries and statistics *)

(** [LIMIT ?]: a negative bound means no bound. *)
Definition sql_limit {A : Type} (limit : Z) (l : list A) : list A :=
  if limit <? 0 then l else take (Z.to_nat limit) l.

(** [ORDER BY updated_at DESC] on a TEXT column. *)
Definition updated_desc (a b : job) : Prop :=
  String.leb (updated_at b) (updated_at a) = true.

(** [ORDER BY failed_at DESC] *)
Definition failed_desc (a b : dlq_record) : Prop :=
  String.leb (failed_at b) (failed_at a) = true.

#[global] Instance updated_desc_dec (a b : job) : Decision (updated_desc a b).
Proof. unfold updated_desc. apply _. Defined.

#[global] Instance failed_desc_dec (a b : dlq_record) : Decision (failed_desc a b).
Proof. unfold failed_desc. apply _. Defined.

(** The [WHERE state = ?] clause is added [if state and state != "all"]. *)
Definition state_filter (st : option string) (js : list job) : list job :=
  match st with
  | None => js
  | Some v =>
      if String.eqb v "" then js
      else if String.eqb v "all" then js
      else filter (fun r => state r = v) js
  end.

Definition list_jobs (st : option string) (limit : Z) (s : store) : list job :=
  sql_limit limit (merge_sort updated_desc (state_filter st (jobs s))).

Definition list_dlq (limit : Z) (s : store) : list dlq_record :=
  sql_limit limit (merge_sort failed_desc (dlq s)).

(** [SELECT state, COUNT( * ) FROM jobs GROUP BY state] as a dict. *)
Definition count_by_state (js : list job) : gmap string Z :=
  foldr (fun r m => <[state r := default 0 (m !! state r) + 1]> m) ∅ js.

(** [sum(by_state.values())] *)
Definition sum_counts (m : gmap string Z) : Z :=
  map_fold (fun _ v acc => v + acc) 0 m.

Record stats_dict := StatsDict {
  st_states : gmap string Z;
  st_total : Z;
  st_dlq : Z;
  st_workers : Z
}.

Definition stats (s : store) : stats_dict :=
  let by_state := count_by_state (jobs s) in
  let total := sum_counts by_state in
  StatsDict by_state total (Z.of_nat (length (dlq s))) (Z.of_nat (size (workers s))).

(** ** The worker loop

    [Worker.run_forever].  One [tick] is one evaluation of the [while]
    condition and, if it holds, one pass of the body.  The other processes
    that share the database file act between the statements of this
    worker: [t_before] before the condition is evaluated, [t_during] while
    the claimed command runs.  [t_signal] tells whether [stop_event] is set
    when the condition is evaluated. *)
Record tick := Tick {
  t_before : list op;
  t_signal : bool;
  t_claim_now : Q;
  t_claim_iso : string;
  t_during : list op;
  t_out : outcome;
  t_now : Q;
  t_iso1 : string;
  t_iso2 : string
}.

(** How the loop was left: the condition failed, a fault escaped the body,
    or the ticks ran out with the worker still looping. *)
Inductive loop_exit :=
  | Stopped
  | Crashed (e : fault)
  | StillRunning.

Section Loop.

Variable py_float : string -> result Q.

Fixpoint run_loop (ticks : list tick) (s : store) : loop_exit * store :=
  match ticks with
  | [] => (StillRunning, s)
  | t :: ticks' =>
      let s0 := run_ops py_float (t_before t) s in
      if t_signal t || is_stop_requested s0 then (Stopped, s0)
      else
        match pop_pending_for_run (t_claim_now t) (t_claim_iso t) s0 with
        | (None, s1) => run_loop ticks' s1
        | (Some j, s1) =>
            let s2 := run_ops py_float (t_during t) s1 in
            match run_claimed py_float j (t_out t) (t_now t) (t_iso1 t) (t_iso2 t) s2 with
            | Ok s3 => run_loop ticks' s3
            | Raise e => (Crashed e, s2)
            end
        end
  end.

(** [register_worker], the loop, and [deregister_worker] in the [finally]
    block, which runs however the loop was left. *)
Definition run_forever (pid : Z) (reg_iso : string) (ticks : list tick) (s : store)
  : loop_exit * store :=
  let s0 := register_worker pid reg_iso "default" s in
  match run_loop ticks s0 with
  | (StillRunning, s1) => (StillRunning, s1)
  | (e, s1) => (e, deregister_worker pid s1)
  end.

End Loop.

(** ** The run command of the CLI

    [cmd_run] builds the whole payload itself; [job_id] is the generated
    id, [created_iso] and [updated_iso] are its two clock readings and
    [now_iso] the one that [enqueue] would take. *)
Definition cmd_run (py_int : string -> result Z) (job_id cmd : string)
    (created_iso updated_iso now_iso : string) (s : store) : result string * store :=
  match config_get "max_retries" (Some "3") s with
  | None => (Raise (TypeError "int() argument"), s)
  | Some v =>
      match py_int v with
      | Raise e => (Raise e, s)
      | Ok n =>
          enqueue (JobDict (Some job_id) (Some cmd) (Some "pending") (Some 0) (Some n)
                           (Some created_iso) (Some updated_iso)) now_iso s
      end
  end.

(** ** Further predicates *)

(** Every DLQ record belongs to rows in state [dead]. *)
Definition dlq_jobs_dead (s : store) : Prop :=
  forall d r, d ∈ dlq s -> r ∈ jobs s -> id r = job_id d -> state r = "dead".

(** What holds of the tables as long as [delete_job] is not called. *)
Definition store_ok (s : store) : Prop :=
  unique_ids s /\ dlq_ids_known s /\ dlq_jobs_dead s /\ NoDup (map job_id (dlq s)).

(** The other processes do not call [delete_job] during this tick. *)
Definition tick_ok (t : tick) : Prop :=
  Forall not_delete (t_before t) /\ Forall not_delete (t_during t).

(** The AUTOINCREMENT discipline of [dlq.id]. *)
Definition dlq_seq_ok (s : store) : Prop :=
  0 <= dlq_seq s /\
  NoDup (map dlq_id (dlq s)) /\
  Forall (fun d => 0 < dlq_id d <= dlq_seq s) (dlq s).

(** ** More sample data *)

(** A job parked by a failure whose eta (12) is long past at time 1000. *)
Definition job_parked : job :=
  Job "parked" "exit 1" "failed" 1 3 (Some 12%Q)
      "2026-01-01T04:00:00Z" "2026-01-01T04:00:10Z".

Definition parked_store : store :=
  with_jobs [job_parked; job_fresh; job_gone] sample_store.

Definition later_ops : list op :=
  [ OpIterate 1000%Q "2026-01-01T11:00:00Z" (Exited 0)
              1001%Q "2026-01-01T11:00:01Z" "2026-01-01T11:00:01Z";
    OpRetryFromDlq "parked" "2026-01-01T11:00:02Z";
    OpEnqueue (minimal_dict "parked" "exit 0") "2026-01-01T11:00:03Z";
    OpIterate 2000%Q "2026-01-01T12:00:00Z" (Exited 1)
              2001%Q "2026-01-01T12:00:01Z" "2026-01-01T12:00:01Z" ].

Definition sample_tick (signal : bool) : tick :=
  Tick [OpEnqueue (minimal_dict "extra" "true") "2026-01-01T11:00:00Z"] signal
       1000%Q "2026-01-01T11:00:00Z"
       [OpRetryFromDlq "gone" "2026-01-01T11:00:00Z"] (Exited 0)
       1001%Q "2026-01-01T11:00:01Z" "2026-01-01T11:00:01Z".

(** A parser that rejects every configured backoff base. *)
Definition broken_float (v : string) : result Q :=
  Raise (ValueError ("could not convert string to float: " ++ v)).

(** A database whose one claimable job, at time 200, is on its last retry. *)
Definition later_store : store :=
  with_jobs [job_later; job_done] sample_store.

(** A database whose one claimable job, at time 10, has failed once and has
    two retries left. *)
Definition due_store : store :=
  with_jobs [job_due; job_done] sample_store.

(** A parser that knows the string [1e200]; its value is the binary64
    number [5883593420661338 * 2^612]. *)
Definition wide_float (v : string) : result Q :=
  if String.eqb v "1e200" then Ok (inject_Z (5883593420661338 * 2 ^ 612))
  else Raise (ValueError ("could not convert string to float: " ++ v)).

(** The payload [{id: j1, command: exit 1, max_retries: n}]. *)
Definition failing_dict (n : Z) : job_dict :=
  JobDict (Some "j1") (Some "exit 1") None None (Some n) None None.

(** The row that [enqueue] stores for it at 10:00:00. *)
Definition failing_job (n : Z) : job :=
  Job "j1" "exit 1" "pending" 0 n None "2026-01-01T10:00:00Z" "2026-01-01T10:00:00Z".

(** Worker passes long after every eta, each ready to run a failing
    command, and an attempt to replay the job from the DLQ. *)
Definition retry_passes : list op :=
  [ OpIterate 100%Q "2026-01-01T10:01:40Z" (Exited 1)
              101%Q "2026-01-01T10:01:41Z" "2026-01-01T10:01:41Z";
    OpIterate 1000%Q "2026-01-01T10:16:40Z" (Exited 1)
              1001%Q "2026-01-01T10:16:41Z" "2026-01-01T10:16:41Z";
    OpRetryFromDlq "j1" "2026-01-01T10:20:00Z";
    OpIterate 5000%Q "2026-01-01T11:23:20Z" (FileNotFound "sh")
              5001%Q "2026-01-01T11:23:21Z" "2026-01-01T11:23:21Z" ].

Definition quiet_tick : tick :=
  Tick [] false 1000%Q "2026-01-01T11:00:00Z" [] (Exited 0)
       1001%Q "2026-01-01T11:00:01Z" "2026-01-01T11:00:01Z".

(** * Properties *)

(** ** Lists of rows *)

Lemma update_where_ids (f : job -> job) (jid : string) (js : list job) :
  (forall r, id (f r) = id r) ->
  map id (update_where f jid js) = map id js.
Proof.
  intros Hf. unfold update_where. induction js as [|r js IH]; simpl; [reflexivity|].
  rewrite IH. destruct (String.eqb (id r) jid); [rewrite Hf|]; reflexivity.
Qed.

Lemma find_update_where (f : job -> job) (jid k : string) (js : list job) :
  (forall r, id (f r) = id r) ->
  find (fun r => String.eqb (id r) k) (update_where f jid js) =
  if String.eqb k jid
  then option_map f (find (fun r => String.eqb (id r) k) js)
  else find (fun r => String.eqb (id r) k) js.
Proof.
  intros Hf. unfold update_where.
  induction js as [|r js IH]; simpl.
  - destruct (String.eqb k jid); reflexivity.
  - destruct (String.eqb (id r) jid) eqn:Hr.
    + rewrite Hf. destruct (String.eqb (id r) k) eqn:Hk.
      * apply String.eqb_eq in Hr, Hk. subst. rewrite String.eqb_refl. reflexivity.
      * rewrite IH. reflexivity.
    + destruct (String.eqb (id r) k) eqn:Hk.
      * apply String.eqb_eq in Hk. subst. rewrite Hr. reflexivity.
      * rewrite IH. reflexivity.
Qed.

Lemma find_id_unique (r : job) (js : list job) :
  NoDup (map id js) -> r ∈ js ->
  find (fun x => String.eqb (id x) (id r)) js = Some r.
Proof.
  induction js as [|x js IH]; simpl; intros Hnd Hin.
  - inversion Hin.
  - apply NoDup_cons in Hnd as [Hx Hnd].
    apply elem_of_cons in Hin as [->|Hin].
    + rewrite String.eqb_refl. reflexivity.
    + destruct (String.eqb (id x) (id r)) eqn:E.
      * apply String.eqb_eq in E. exfalso. apply Hx. rewrite E.
        apply list_elem_of_fmap. exists r. split; [reflexivity|assumption].
      * apply IH; assumption.
Qed.

Lemma find_some_elem (k : string) (js : list job) (r : job) :
  find (fun x => String.eqb (id x) k) js = Some r -> r ∈ js /\ id r = k.
Proof.
  intros H. apply find_some in H as [Hin Hk].
  split; [apply list_elem_of_In; assumption | apply String.eqb_eq; assumption].
Qed.

Lemma has_id_false (k : string) (js : list job) :
  has_id k js = false <-> k ∉ map id js.
Proof.
  unfold has_id. induction js as [|x js IH]; simpl.
  - split; [intros _ H; inversion H | reflexivity].
  - rewrite orb_false_iff, IH, not_elem_of_cons, String.eqb_neq. intuition congruence.
Qed.

(** ** The order of the claim query *)

Lemma string_compare_trans (a b c : string) :
  String.compare a b <> Gt -> String.compare b c <> Gt -> String.compare a c <> Gt.
Proof.
  revert b c. induction a as [|x a IH]; intros [|y b] [|z c]; simpl; try congruence.
  unfold Ascii.compare.
  destruct (N.compare_spec (N_of_ascii x) (N_of_ascii y)) as [Hxy|Hxy|Hxy];
    [rewrite Hxy| |congruence];
    destruct (N.compare_spec (N_of_ascii y) (N_of_ascii z)) as [Hyz|Hyz|Hyz];
    try congruence.
  - apply IH.
  - intros _ _. rewrite <- Hyz. apply N.compare_lt_iff in Hxy. rewrite Hxy. congruence.
  - intros _ _. assert (H : (N_of_ascii x < N_of_ascii z)%N) by lia.
    apply N.compare_lt_iff in H. rewrite H. congruence.
Qed.

Lemma string_leb_trans (a b c : string) :
  String.leb a b = true -> String.leb b c = true -> String.leb a c = true.
Proof.
  unfold String.leb. intros Hab Hbc.
  pose proof (string_compare_trans a b c) as H.
  destruct (String.compare a b); try discriminate;
    destruct (String.compare b c); try discriminate;
    destruct (String.compare a c); try reflexivity; exfalso; apply H; congruence.
Qed.

Lemma claim_order_total (r1 r2 : job) :
  claim_order r1 r2 = true \/ claim_order r2 r1 = true.
Proof.
  unfold claim_order. destruct (eta r1), (eta r2); auto using String.leb_total.
Qed.

Lemma claim_order_trans (r1 r2 r3 : job) :
  claim_order r1 r2 = true -> claim_order r2 r3 = true -> claim_order r1 r3 = true.
Proof.
  unfold claim_order. destruct (eta r1), (eta r2), (eta r3);
    try discriminate; try reflexivity; apply string_leb_trans.
Qed.

Section OrderByLimit1.

Context {A : Type} (le : A -> A -> bool).
Hypothesis le_total : forall x y, le x y = true \/ le y x = true.
Hypothesis le_trans : forall x y z, le x y = true -> le y z = true -> le x z = true.

Lemma order_by_limit1_none (l : list A) :
  order_by_limit1 le l = None <-> l = [].
Proof.
  destruct l as [|x l]; simpl; [tauto|].
  split; [|discriminate].
  destruct (order_by_limit1 le l); [destruct (le x a)|]; discriminate.
Qed.

Lemma order_by_limit1_least (l : list A) (m : A) :
  order_by_limit1 le l = Some m ->
  m ∈ l /\ forall x, x ∈ l -> le m x = true.
Proof.
  revert m. induction l as [|x l IH]; simpl; intros m Hm; [discriminate|].
  destruct (order_by_limit1 le l) as [y|] eqn:Hy.
  - destruct (IH y eq_refl) as [Hin Hmin].
    destruct (le x y) eqn:Hxy; inversion Hm; subst m.
    + split; [left|]. intros z Hz. apply elem_of_cons in Hz as [->|Hz].
      * destruct (le_total x x); assumption.
      * eapply le_trans; [exact Hxy | auto].
    + split; [right; assumption|]. intros z Hz. apply elem_of_cons in Hz as [->|Hz].
      * destruct (le_total x y) as [H|H]; [congruence|assumption].
      * auto.
  - inversion Hm; subst m. apply order_by_limit1_none in Hy. subst l.
    split; [left|]. intros z Hz. apply elem_of_cons in Hz as [->|Hz].
    + destruct (le_total x x); assumption.
    + inversion Hz.
Qed.

End OrderByLimit1.

Lemma eligible_iff (now : Q) (r : job) :
  eligible now r = true <->
  state r = "pending" /\ (eta r = None \/ exists e, eta r = Some e /\ (e <= now)%Q).
Proof.
  unfold eligible. rewrite andb_true_iff, String.eqb_eq.
  destruct (eta r) as [e|].
  - rewrite Qle_bool_iff. split; intros [H1 H2]; split; auto.
    + right. exists e. auto.
    + destruct H2 as [H2|[e' [He' Hle]]]; [discriminate|]. inversion He'. subst. assumption.
  - split; intros [H1 H2]; auto.
Qed.

Lemma select_claimable_some (now : Q) (js : list job) (r : job) :
  select_claimable now js = Some r ->
  r ∈ js /\ eligible now r = true /\
  forall r', r' ∈ js -> eligible now r' = true -> claim_order r r' = true.
Proof.
  unfold select_claimable. intros H.
  apply (order_by_limit1_least claim_order claim_order_total claim_order_trans) in H
    as [Hin Hmin].
  apply list_elem_of_filter in Hin as [He Hin].
  repeat split; try assumption.
  intros r' Hr' He'. apply Hmin. apply list_elem_of_filter. auto.
Qed.

Lemma select_claimable_none (now : Q) (js : list job) :
  select_claimable now js = None <-> forall r, r ∈ js -> eligible now r = false.
Proof.
  unfold select_claimable.
  rewrite (order_by_limit1_none claim_order). split.
  - intros H r Hr. destruct (eligible now r) eqn:E; [|reflexivity].
    assert (Hin : r ∈ filter (fun r => eligible now r = true) js)
      by (apply list_elem_of_filter; auto).
    rewrite H in Hin. inversion Hin.
  - intros H. destruct (filter _ js) as [|x l] eqn:E; [reflexivity|].
    assert (Hin : x ∈ filter (fun r => eligible now r = true) js)
      by (rewrite E; left).
    apply list_elem_of_filter in Hin as [He Hin]. rewrite (H x Hin) in He. discriminate.
Qed.

(** ** The claim query *)



(** ** Dead-letter queue *)

Lemma dlq_of_nil_find (jid : string) (s : store) :
  dlq_of jid s = [] ->
  find (fun d => String.eqb (job_id d) jid) (dlq s) = None.
Proof.
  unfold dlq_of. induction (dlq s) as [|d l IH]; simpl; [reflexivity|].
  rewrite filter_cons. destruct (decide (String.eqb (job_id d) jid = true)) as [E|E].
  - discriminate.
  - intros H. apply not_true_is_false in E. rewrite E. auto.
Qed.

(** C8: without a DLQ record for the id, [retry_from_dlq] returns [False]
    (a plain boolean, no exception) and the store, in particular [jobs] and
    [dlq], is left as it was. *)
Theorem retry_from_dlq_not_found (jid now_iso : string) (s : store) :
  dlq_of jid s = [] ->
  retry_from_dlq jid now_iso s = (false, s).
Proof.
  intros H. unfold retry_from_dlq. rewrite (dlq_of_nil_find jid s H). reflexivity.
Qed.

Lemma find_app_last (jid : string) (l : list dlq_record) (d : dlq_record) :
  job_id d = jid ->
  find (fun x => String.eqb (job_id x) jid) (l ++ [d]) <> None.
Proof.
  intros Hd. induction l as [|x l IH]; simpl.
  - rewrite Hd, String.eqb_refl. discriminate.
  - destruct (String.eqb (job_id x) jid); [discriminate|assumption].
Qed.

Lemma filter_other_none (jid : string) (l : list dlq_record) :
  filter (fun d => String.eqb (job_id d) jid = true)
         (filter (fun d => String.eqb (job_id d) jid = false) l) = [].
Proof.
  induction l as [|x l IH]; [reflexivity|].
  rewrite filter_cons. destruct (decide (String.eqb (job_id x) jid = false)) as [E|E].
  - rewrite filter_cons. destruct (decide (String.eqb (job_id x) jid = true)); [congruence|assumption].
  - assumption.
Qed.


(** ** Control flag *)

(** C9: [clear_stop] leaves the flag unset (and the store untouched when it
    was already unset); [request_stop] twice leaves it set and is the same
    as [request_stop] once.  Both are total on every store. *)
Theorem stop_flag_idempotent (s : store) :
  (is_stop_requested s = false ->
     is_stop_requested (clear_stop s) = false /\ clear_stop s = s) /\
  is_stop_requested (clear_stop s) = false /\
  is_stop_requested (request_stop (request_stop s)) = true /\
  request_stop (request_stop s) = request_stop s /\
  clear_stop (clear_stop s) = clear_stop s.
Proof.
  unfold is_stop_requested, clear_stop, request_stop, with_control. simpl.
  repeat split.
  - rewrite lookup_delete_eq. reflexivity.
  - destruct (control s !! "stop_requested") eqn:E; [discriminate|].
    rewrite delete_id by assumption. destruct s; reflexivity.
  - rewrite lookup_delete_eq. reflexivity.
  - rewrite lookup_insert_eq. reflexivity.
  - rewrite insert_insert_eq. reflexivity.
  - rewrite delete_delete_eq. reflexivity.
Qed.

(** ** Backoff *)

Lemma two_nonzero : ~ (2 == 0)%Q.
Proof. discriminate. Qed.

Lemma pow2_pos (e : Z) : (0 < 2 ^ e)%Q.
Proof. apply Qpower_0_lt. reflexivity. Qed.

Lemma pow2_plus (a b : Z) : (2 ^ (a + b) == 2 ^ a * 2 ^ b)%Q.
Proof. apply Qpower_plus. exact two_nonzero. Qed.

Lemma pow2_le (a b : Z) : a <= b -> (2 ^ a <= 2 ^ b)%Q.
Proof. intros H. apply Qpower_le_compat_l; [exact H|discriminate]. Qed.

Lemma pow2_lt (a b : Z) : a < b -> (2 ^ a < 2 ^ b)%Q.
Proof. intros H. apply Qpower_lt_compat_l; [exact H|reflexivity]. Qed.

Lemma pow2_le_inv (a b : Z) : (2 ^ a < 2 ^ b)%Q -> a < b.
Proof.
  intros H. destruct (Z_lt_le_dec a b) as [Hl|Hl]; [exact Hl|].
  apply pow2_le in Hl. apply Qle_not_lt in Hl. contradiction.
Qed.

Lemma pow2_inject (k : Z) : 0 <= k -> (inject_Z (2 ^ k) == 2 ^ k)%Q.
Proof. intros H. apply (Zpower_Qpower 2 k H). Qed.

Lemma pow2_cancel (a : Z) : (2 ^ a * 2 ^ (- a) == 1)%Q.
Proof. rewrite <- pow2_plus. replace (a + - a) with 0 by lia. reflexivity. Qed.

(** [ilog2 x] is the binary exponent of a positive [x]. *)
Lemma ilog2_spec (x : Q) :
  (0 < x)%Q -> (2 ^ ilog2 x <= x)%Q /\ (x < 2 ^ (ilog2 x + 1))%Q.
Proof.
  intros Hx. destruct x as [n d]. unfold ilog2. simpl Qnum. simpl Qden.
  assert (Hn : 0 < n) by (unfold Qlt in Hx; simpl in Hx; lia).
  set (a := Z.log2 n). set (b := Z.log2 (Z.pos d)).
  destruct (Z.log2_spec n Hn) as [Ha1 Ha2]. fold a in Ha1, Ha2.
  destruct (Z.log2_spec (Z.pos d) (Pos2Z.is_pos d)) as [Hb1 Hb2]. fold b in Hb1, Hb2.
  assert (Ha0 : 0 <= a) by apply Z.log2_nonneg.
  assert (Hb0 : 0 <= b) by apply Z.log2_nonneg.
  assert (Hxd : (n # d == inject_Z n * / inject_Z (Z.pos d))%Q).
  { rewrite (Qmake_Qdiv n d). reflexivity. }
  assert (Hdpos : (0 < inject_Z (Z.pos d))%Q) by (unfold Qlt; simpl; lia).
  assert (Hmul : ((n # d) * inject_Z (Z.pos d) == inject_Z n)%Q).
  { rewrite Hxd. field. intros E. rewrite E in Hdpos. discriminate. }
  assert (Qa1 : (2 ^ a <= inject_Z n)%Q).
  { rewrite <- pow2_inject by exact Ha0. rewrite <- Zle_Qle. exact Ha1. }
  assert (Qa2 : (inject_Z n < 2 ^ (a + 1))%Q).
  { rewrite <- pow2_inject by lia. rewrite <- Zlt_Qlt. replace (a + 1) with (Z.succ a) by lia. exact Ha2. }
  assert (Qb1 : (2 ^ b <= inject_Z (Z.pos d))%Q).
  { rewrite <- pow2_inject by exact Hb0. rewrite <- Zle_Qle. exact Hb1. }
  assert (Qb2 : (inject_Z (Z.pos d) < 2 ^ (b + 1))%Q).
  { rewrite <- pow2_inject by lia. rewrite <- Zlt_Qlt. replace (b + 1) with (Z.succ b) by lia. exact Hb2. }
  (* x < 2^(a-b+1) and 2^(a-b-1) < x *)
  assert (Hup : (n # d < 2 ^ (a - b + 1))%Q).
  { apply (Qmult_lt_r _ _ (inject_Z (Z.pos d)) Hdpos). rewrite Hmul.
    eapply Qlt_le_trans; [exact Qa2|].
    replace (a + 1) with ((a - b + 1) + b) by lia. rewrite pow2_plus.
    apply Qmult_le_l; [apply pow2_pos|exact Qb1]. }
  assert (Hlow : (2 ^ (a - b - 1) < n # d)%Q).
  { apply (Qmult_lt_r _ _ (inject_Z (Z.pos d)) Hdpos). rewrite Hmul.
    eapply Qlt_le_trans; [|exact Qa1].
    replace a with ((a - b - 1) + (b + 1)) at 2 by lia. rewrite pow2_plus.
    apply Qmult_lt_l; [apply pow2_pos|exact Qb2]. }
  destruct (Qle_bool (2 ^ (a - b)) (n # d)) eqn:E.
  - apply Qle_bool_iff in E. split; [exact E|exact Hup].
  - assert (Hlt : (n # d < 2 ^ (a - b))%Q).
    { apply Qnot_le_lt. intros Hle. apply Qle_bool_iff in Hle. congruence. }
    split; [apply Qlt_le_weak; exact Hlow|].
    replace (a - b - 1 + 1) with (a - b) by lia. exact Hlt.
Qed.

Lemma ilog2_unique (x : Q) (k : Z) :
  (2 ^ k <= x)%Q -> (x < 2 ^ (k + 1))%Q -> ilog2 x = k.
Proof.
  intros H1 H2.
  assert (Hx : (0 < x)%Q) by (eapply Qlt_le_trans; [apply pow2_pos|exact H1]).
  destruct (ilog2_spec x Hx) as [S1 S2].
  assert (A : ilog2 x < k + 1).
  { apply pow2_le_inv. eapply Qle_lt_trans; [exact S1|exact H2]. }
  assert (B : k < ilog2 x + 1).
  { apply pow2_le_inv. eapply Qle_lt_trans; [exact H1|exact S2]. }
  lia.
Qed.

Lemma round_half_even_Z (y : Q) (m : Z) : (y == inject_Z m)%Q -> round_half_even y = m.
Proof.
  intros Hy. unfold round_half_even.
  assert (Hf : Qfloor y = m) by (rewrite Hy; apply Qfloor_Z).
  rewrite Hf.
  assert (Hlt : (y - inject_Z m < 1 # 2)%Q) by (rewrite Hy; ring_simplify; reflexivity).
  destruct (y - inject_Z m ?= 1 # 2)%Q eqn:E; [| reflexivity |].
  - apply Qeq_alt in E. rewrite E in Hlt. discriminate.
  - apply Qgt_alt in E. apply Qlt_le_weak, Qle_not_lt in E. contradiction.
Qed.

Lemma round_half_even_ge (y : Q) : Qfloor y <= round_half_even y <= Qfloor y + 1.
Proof.
  unfold round_half_even. destruct (_ ?= _)%Q; [destruct (Z.even _)| |]; lia.
Qed.

(** A positive [x = m * 2^e] with a mantissa of at most 53 bits and an
    exponent in range is its own rounding. *)
Lemma round64_pos_exact (x : Q) (m e : Z) :
  0 < m < 2 ^ 53 -> -1074 <= e -> Z.log2 m + e < 1024 ->
  (x == inject_Z m * 2 ^ e)%Q ->
  round64_pos x = Finite (Qred x).
Proof.
  intros [Hm1 Hm2] He Hrange Hx.
  destruct (Z.log2_spec m Hm1) as [L1 L2].
  assert (L0 : 0 <= Z.log2 m) by apply Z.log2_nonneg.
  assert (L53 : Z.log2 m < 53).
  { apply Z.log2_lt_pow2; [exact Hm1|exact Hm2]. }
  assert (Hlog : ilog2 x = Z.log2 m + e).
  { apply ilog2_unique; rewrite Hx.
    - rewrite pow2_plus. apply Qmult_le_r; [apply pow2_pos|].
      rewrite <- pow2_inject by exact L0. rewrite <- Zle_Qle. exact L1.
    - replace (Z.log2 m + e + 1) with (Z.succ (Z.log2 m) + e) by lia.
      rewrite pow2_plus. apply Qmult_lt_r; [apply pow2_pos|].
      rewrite <- pow2_inject by lia. rewrite <- Zlt_Qlt. exact L2. }
  unfold round64_pos. rewrite Hlog.
  set (q := fexp (Z.log2 m + e)).
  assert (Hq : q <= e) by (unfold q, fexp; lia).
  assert (Hy : (x * 2 ^ (- q) == inject_Z (m * 2 ^ (e - q)))%Q).
  { rewrite Hx, inject_Z_mult, pow2_inject by lia.
    replace (e - q) with (e + - q) by lia. rewrite pow2_plus. ring. }
  rewrite (round_half_even_Z _ _ Hy).
  assert (Hlg : Z.log2 (m * 2 ^ (e - q)) = Z.log2 m + (e - q)).
  { rewrite Z.log2_mul_pow2 by lia. lia. }
  rewrite Hlg.
  destruct (1024 <=? Z.log2 m + (e - q) + q) eqn:E; [apply Z.leb_le in E; lia|].
  f_equal. apply Qred_complete.
  rewrite Hx, inject_Z_mult, pow2_inject by lia.
  rewrite <- Qmult_assoc, <- pow2_plus. replace (e - q + q) with e by lia. reflexivity.
Qed.

(** At and beyond [2^1024] the rounding overflows. *)
Lemma round64_pos_overflow (x : Q) :
  (2 ^ 1024 <= x)%Q -> round64_pos x = Overflow.
Proof.
  intros Hx.
  assert (Hpos : (0 < x)%Q) by (eapply Qlt_le_trans; [apply pow2_pos|exact Hx]).
  destruct (ilog2_spec x Hpos) as [S1 S2].
  assert (He : 1024 <= ilog2 x).
  { assert (1024 < ilog2 x + 1); [|lia].
    apply pow2_le_inv. eapply Qle_lt_trans; [exact Hx|exact S2]. }
  unfold round64_pos. set (e := ilog2 x) in *.
  assert (Hq : fexp e = e - 52) by (unfold fexp; lia). rewrite Hq.
  set (y := (x * 2 ^ (- (e - 52)))%Q).
  assert (Hy : (inject_Z (2 ^ 52) <= y)%Q).
  { rewrite pow2_inject by lia. unfold y.
    replace 52 with (e + - (e - 52)) at 1 by lia. rewrite pow2_plus.
    apply Qmult_le_r; [apply pow2_pos|exact S1]. }
  assert (Hf : 2 ^ 52 <= Qfloor y).
  { rewrite <- (Qfloor_Z (2 ^ 52)). apply Qfloor_resp_le. exact Hy. }
  pose proof (round_half_even_ge y) as [Hm _].
  assert (Hl : 52 <= Z.log2 (round_half_even y)).
  { apply Z.log2_le_pow2; lia. }
  destruct (1024 <=? Z.log2 (round_half_even y) + (e - 52)) eqn:E; [reflexivity|].
  apply Z.leb_gt in E. lia.
Qed.

(** A binary64 number is its own rounding. *)
Lemma round64_exact (x : Q) (m e : Z) :
  Z.abs m < 2 ^ 53 -> -1074 <= e -> Z.log2 (Z.abs m) + e < 1024 ->
  (x == inject_Z m * 2 ^ e)%Q ->
  round64 x = Finite (Qred x).
Proof.
  intros Hm He Hr Hx. unfold round64.
  destruct (Z.lt_trichotomy m 0) as [Hneg|[Hz|Hpos]].
  - rewrite Z.abs_neq in * by lia.
    assert (H0 : (x < 0)%Q).
    { rewrite Hx. setoid_replace 0%Q with (0 * 2 ^ e)%Q using relation Qeq by ring.
      apply Qmult_lt_r; [apply pow2_pos|].
      change 0%Q with (inject_Z 0). rewrite <- Zlt_Qlt. lia. }
    destruct (x ?= 0)%Q eqn:E0.
    + apply Qeq_alt in E0. rewrite E0 in H0. discriminate.
    + rewrite (round64_pos_exact (- x) (- m) e); try assumption; try lia.
      * f_equal. rewrite Qred_opp. destruct (Qred x) as [n d].
        unfold Qopp. simpl. rewrite Z.opp_involutive. reflexivity.
      * rewrite Hx, inject_Z_opp. ring.
    + apply Qgt_alt in E0. apply Qlt_le_weak, Qle_not_lt in E0. contradiction.
  - subst m. assert (H0 : (x == 0)%Q) by (rewrite Hx; ring).
    pose proof H0 as E0. apply Qeq_alt in E0. rewrite E0.
    f_equal. symmetry. apply (Qred_complete x 0 H0).
  - rewrite Z.abs_eq in * by lia.
    assert (H0 : (0 < x)%Q).
    { rewrite Hx. apply Qmult_lt_0_compat; [|apply pow2_pos].
      change 0%Q with (inject_Z 0). rewrite <- Zlt_Qlt. lia. }
    destruct (x ?= 0)%Q eqn:E0.
    + apply Qeq_alt in E0. rewrite E0 in H0. discriminate.
    + apply Qlt_alt in E0. apply Qlt_le_weak, Qle_not_lt in E0. contradiction.
    + eapply round64_pos_exact; eauto.
Qed.

Lemma round64_overflow (x : Q) :
  (2 ^ 1024 <= x \/ x <= - 2 ^ 1024)%Q -> round64 x = Overflow.
Proof.
  intros [H|H]; unfold round64.
  - assert (H0 : (0 < x)%Q) by (eapply Qlt_le_trans; [apply (pow2_pos 1024)|exact H]).
    destruct (x ?= 0)%Q eqn:E0.
    + apply Qeq_alt in E0. rewrite E0 in H0. discriminate.
    + apply Qlt_alt in E0. apply Qlt_le_weak, Qle_not_lt in E0. contradiction.
    + apply round64_pos_overflow. exact H.
  - assert (H1 : (2 ^ 1024 <= - x)%Q).
    { apply Qopp_le_compat in H. rewrite Qopp_involutive in H. exact H. }
    assert (H0 : (0 < - x)%Q) by (eapply Qlt_le_trans; [apply (pow2_pos 1024)|exact H1]).
    assert (H2 : (x < 0)%Q).
    { apply Qopp_lt_compat in H0. rewrite Qopp_involutive in H0. exact H0. }
    destruct (x ?= 0)%Q eqn:E0.
    + apply Qeq_alt in E0. rewrite E0 in H2. discriminate.
    + rewrite round64_pos_overflow by exact H1. reflexivity.
    + apply Qgt_alt in E0. apply Qlt_le_weak, Qle_not_lt in E0. contradiction.
Qed.

Lemma round_half_even_le (y : Q) (n : Z) :
  (y < inject_Z n + (1 # 2))%Q -> round_half_even y <= n.
Proof.
  intros Hy. unfold round_half_even.
  assert (Hf : Qfloor y <= n).
  { destruct (Z_le_gt_dec (Qfloor y) n) as [H|H]; [exact H|exfalso].
    assert (H1 : (inject_Z (n + 1) <= y)%Q).
    { eapply Qle_trans; [|apply Qfloor_le]. rewrite <- Zle_Qle. lia. }
    rewrite inject_Z_plus in H1.
    assert (H2 : (inject_Z n + (1 # 2) < inject_Z n + inject_Z 1)%Q).
    { apply Qplus_lt_r. reflexivity. }
    apply (Qlt_irrefl y). eapply Qlt_le_trans; [exact Hy|].
    eapply Qle_trans; [apply Qlt_le_weak; exact H2|exact H1]. }
  destruct (Z.eq_dec (Qfloor y) n) as [E|E].
  - assert (Hlt : (y - inject_Z (Qfloor y) < 1 # 2)%Q).
    { rewrite E. lra. }
    destruct (y - inject_Z (Qfloor y) ?= 1 # 2)%Q eqn:C.
    + apply Qeq_alt in C. rewrite C in Hlt. discriminate.
    + lia.
    + apply Qgt_alt in C. apply Qlt_le_weak, Qle_not_lt in C. contradiction.
  - destruct (_ ?= _)%Q; [destruct (Z.even _)| |]; lia.
Qed.

Lemma log2_le_bound (m k : Z) : 0 <= k -> m <= 2 ^ k -> Z.log2 m <= k.
Proof.
  intros Hk Hm. rewrite <- (Z.log2_pow2 k Hk). apply Z.log2_le_mono. exact Hm.
Qed.

(** Below [2^1024 - 2^970], half a unit in the last place short of
    [2^1024], the rounding does not overflow. *)
Lemma round64_pos_finite (x : Q) :
  (0 < x)%Q -> (x < 2 ^ 1024 - 2 ^ 970)%Q -> exists v, round64_pos x = Finite v.
Proof.
  intros Hpos Hx.
  destruct (ilog2_spec x Hpos) as [S1 S2].
  set (e := ilog2 x) in *.
  assert (Hlt : (x < 2 ^ 1024)%Q).
  { eapply Qlt_le_trans; [exact Hx|]. vm_compute. discriminate. }
  assert (He : e < 1024).
  { apply pow2_le_inv. eapply Qle_lt_trans; [exact S1|exact Hlt]. }
  unfold round64_pos. fold e.
  set (q := fexp e). set (y := (x * 2 ^ (- q))%Q). set (m := round_half_even y).
  assert (Hm0 : 0 <= m).
  { pose proof (round_half_even_ge y) as [H _]. fold m in H.
    assert (0 <= Qfloor y); [|lia].
    rewrite <- (Qfloor_Z 0). apply Qfloor_resp_le.
    unfold y. apply Qmult_le_0_compat; [apply Qlt_le_weak; exact Hpos|].
    apply Qlt_le_weak, pow2_pos. }
  assert (Hgoal : Z.log2 m + q < 1024).
  { destruct (Z_le_gt_dec e 1022) as [Hsmall|Hbig].
    - (* y < 2^(e+1-q) *)
      assert (Hy : (y < 2 ^ (e + 1 - q))%Q).
      { unfold y. replace (e + 1 - q) with (e + 1 + - q) by lia. rewrite pow2_plus.
        apply Qmult_lt_r; [apply pow2_pos|exact S2]. }
      destruct (Z_le_gt_dec 0 (e + 1 - q)) as [Hk|Hk].
      + assert (Hm : m <= 2 ^ (e + 1 - q)).
        { apply round_half_even_le. rewrite pow2_inject by exact Hk.
          eapply Qlt_le_trans; [exact Hy|].
          generalize (2 ^ (e + 1 - q))%Q. intros t. lra. }
        pose proof (log2_le_bound m _ Hk Hm). lia.
      + assert (Hm : m <= 1).
        { apply round_half_even_le. eapply Qlt_le_trans; [exact Hy|].
          eapply Qle_trans; [apply (pow2_le _ 0); lia|]. discriminate. }
        assert (Hl : Z.log2 m <= 0) by (apply (log2_le_bound m 0); [lia|exact Hm]).
        unfold q, fexp. lia.
    - assert (E : e = 1023) by lia.
      assert (Hq : q = 971) by (unfold q, fexp; lia).
      assert (Hy : (y < inject_Z (2 ^ 53 - 1) + (1 # 2))%Q).
      { unfold y. rewrite Hq.
        apply (Qmult_lt_r _ _ (2 ^ 971)); [apply pow2_pos|].
        rewrite <- Qmult_assoc.
        setoid_replace (2 ^ (- (971)) * 2 ^ 971)%Q with 1%Q using relation Qeq
          by (rewrite <- pow2_plus; reflexivity).
        rewrite Qmult_1_r.
        eapply Qlt_le_trans; [exact Hx|]. vm_compute. discriminate. }
      assert (Hm : m <= 2 ^ 53 - 1) by (apply round_half_even_le; exact Hy).
      assert (Hl : Z.log2 m <= 52).
      { destruct (Z.eq_dec m 0) as [Em|Em]; [rewrite Em; simpl; lia|].
        assert (Z.log2 m < 53); [|lia]. apply Z.log2_lt_pow2; lia. }
      lia. }
  destruct (1024 <=? Z.log2 m + q) eqn:C; [apply Z.leb_le in C; lia|].
  eexists. reflexivity.
Qed.

Lemma round64_finite (x : Q) :
  (- (2 ^ 1024 - 2 ^ 970) < x)%Q -> (x < 2 ^ 1024 - 2 ^ 970)%Q ->
  exists v, round64 x = Finite v.
Proof.
  intros Hlo Hhi. unfold round64.
  destruct (x ?= 0)%Q eqn:C.
  - eexists. reflexivity.
  - apply Qlt_alt in C.
    destruct (round64_pos_finite (- x)) as [v Hv].
    + apply Qopp_lt_compat in C. exact C.
    + apply Qopp_lt_compat in Hlo. rewrite Qopp_involutive in Hlo. exact Hlo.
    + rewrite Hv. eexists. reflexivity.
  - apply Qgt_alt in C. apply round64_pos_finite; assumption.
Qed.

(** Rounding a positive number never goes below a binary64 number that
    the number itself is not below. *)
Lemma round64_pos_ge (x f v : Q) (mf ef : Z) :
  0 < mf < 2 ^ 53 -> -1074 <= ef -> (f == inject_Z mf * 2 ^ ef)%Q ->
  (f <= x)%Q -> round64_pos x = Finite v -> (f <= v)%Q.
Proof.
  intros [Hmf0 Hmf] Hef Hf Hfx Hr.
  assert (Hfpos : (0 < f)%Q).
  { rewrite Hf. apply Qmult_lt_0_compat; [|apply pow2_pos].
    change 0%Q with (inject_Z 0). rewrite <- Zlt_Qlt. exact Hmf0. }
  assert (Hpos : (0 < x)%Q) by (eapply Qlt_le_trans; eassumption).
  destruct (ilog2_spec x Hpos) as [S1 S2].
  unfold round64_pos in Hr. set (e := ilog2 x) in *.
  set (q := fexp e) in *. set (y := (x * 2 ^ (- q))%Q) in *.
  set (m := round_half_even y) in *.
  destruct (1024 <=? Z.log2 m + q); [discriminate|].
  assert (Hv : (v == inject_Z m * 2 ^ q)%Q).
  { assert (E : v = Qred (inject_Z m * 2 ^ q)) by congruence.
    rewrite E. apply Qred_correct. }
  clear Hr. rewrite Hv.
  pose proof (round_half_even_ge y) as [Hfl _]. fold m in Hfl.
  destruct (Z_le_gt_dec q ef) as [Hq|Hq].
  - (* f is a multiple of 2^q *)
    assert (Hn : (f * 2 ^ (- q) == inject_Z (mf * 2 ^ (ef - q)))%Q).
    { rewrite Hf, inject_Z_mult, pow2_inject by lia.
      replace (ef - q) with (ef + - q) by lia. rewrite pow2_plus. ring. }
    assert (Hle : mf * 2 ^ (ef - q) <= Qfloor y).
    { rewrite <- (Qfloor_Z (mf * 2 ^ (ef - q))). apply Qfloor_resp_le.
      rewrite <- Hn. unfold y. apply Qmult_le_r; [apply pow2_pos|exact Hfx]. }
    assert (Hfm : (f == inject_Z (mf * 2 ^ (ef - q)) * 2 ^ q)%Q).
    { rewrite <- Hn, <- Qmult_assoc.
      setoid_replace (2 ^ (- q) * 2 ^ q)%Q with 1%Q using relation Qeq
        by (rewrite <- pow2_plus; replace (- q + q) with 0 by lia; reflexivity).
      ring. }
    rewrite Hfm. apply Qmult_le_r; [apply pow2_pos|]. rewrite <- Zle_Qle. lia.
  - (* f lies below the binade of x *)
    assert (Hqe : q = e - 52) by (unfold q, fexp in *; lia).
    assert (Hfe : (f <= 2 ^ e)%Q).
    { rewrite Hf. apply Qlt_le_weak.
      eapply Qlt_le_trans.
      - apply Qmult_lt_r; [apply pow2_pos|].
        rewrite Zlt_Qlt in Hmf. rewrite pow2_inject in Hmf by lia. exact Hmf.
      - rewrite <- pow2_plus. apply pow2_le. lia. }
    assert (Hy : (inject_Z (2 ^ 52) <= y)%Q).
    { rewrite pow2_inject by lia. unfold y.
      replace 52 with (e + - q) at 1 by lia. rewrite pow2_plus.
      apply Qmult_le_r; [apply pow2_pos|exact S1]. }
    assert (Hm : 2 ^ 52 <= m).
    { assert (2 ^ 52 <= Qfloor y); [|lia].
      rewrite <- (Qfloor_Z (2 ^ 52)). apply Qfloor_resp_le. exact Hy. }
    eapply Qle_trans; [exact Hfe|].
    replace e with (52 + q) at 1 by lia. rewrite pow2_plus.
    apply Qmult_le_r; [apply pow2_pos|].
    rewrite <- pow2_inject by lia. rewrite <- Zle_Qle. exact Hm.
Qed.

Lemma round64_ge (x f v : Q) (mf ef : Z) :
  0 < mf < 2 ^ 53 -> -1074 <= ef -> (f == inject_Z mf * 2 ^ ef)%Q ->
  (f <= x)%Q -> round64 x = Finite v -> (f <= v)%Q.
Proof.
  intros Hmf Hef Hf Hfx Hr.
  assert (Hfpos : (0 < f)%Q).
  { rewrite Hf. apply Qmult_lt_0_compat; [|apply pow2_pos].
    change 0%Q with (inject_Z 0). rewrite <- Zlt_Qlt. lia. }
  assert (Hpos : (0 < x)%Q) by (eapply Qlt_le_trans; eassumption).
  unfold round64 in Hr. destruct (x ?= 0)%Q eqn:C.
  - apply Qeq_alt in C. rewrite C in Hpos. discriminate.
  - apply Qlt_alt in C. apply Qlt_le_weak, Qle_not_lt in C. contradiction.
  - eapply round64_pos_ge; eassumption.
Qed.

(** A float sum that stays below the overflow threshold is the rounding
    of the exact sum. *)
Lemma float_add_rounds (a b : Q) :
  (- (2 ^ 1024 - 2 ^ 970) < a + b)%Q -> (a + b < 2 ^ 1024 - 2 ^ 970)%Q ->
  round64 (a + b) = Finite (float_add a b).
Proof.
  intros Hlo Hhi. destruct (round64_finite (a + b) Hlo Hhi) as [v Hv].
  unfold float_add. rewrite Hv. reflexivity.
Qed.

Lemma Qred_inject_Z (n : Z) : Qred (inject_Z n) = inject_Z n.
Proof.
  unfold Qred, inject_Z.
  generalize (Z.ggcd_gcd n 1) (Z.ggcd_correct_divisors n 1).
  destruct (Z.ggcd n 1) as (g, (aa, bb)). simpl. intros Hg [H1 H2].
  rewrite Z.gcd_1_r in Hg. subst g. rewrite Z.mul_1_l in H1, H2. subst. reflexivity.
Qed.

(** [float(n)] is exact for an int of at most 53 bits. *)
Lemma py_float_of_int (n : Z) :
  Z.abs n < 2 ^ 53 -> py_float_of (inject_Z n) = Ok (inject_Z n).
Proof.
  intros Hn. unfold py_float_of.
  assert (Hl : Z.log2 (Z.abs n) < 53).
  { destruct (Z.eq_dec (Z.abs n) 0) as [E|E]; [rewrite E; reflexivity|].
    apply Z.log2_lt_pow2; lia. }
  rewrite (round64_exact (inject_Z n) n 0); try lia.
  - rewrite Qred_inject_Z. reflexivity.
  - change (2 ^ 0)%Q with 1%Q. ring.
Qed.

(** With an attempt count of at most 53 bits the exponent is converted
    exactly, and the delay is the rounded power of the converted base. *)
Lemma compute_delay_round (base b : Q) (n : Z) :
  py_float_of base = Ok b -> 0 <= n < 2 ^ 53 ->
  compute_delay base n =
    match round64 (b ^ n) with
    | Finite v => Ok v
    | Overflow => Raise (OverflowError "(34, 'Numerical result out of range')")
    end.
Proof.
  intros Hb Hn. unfold compute_delay. rewrite Hb.
  destruct (n <? 0) eqn:E; [apply Z.ltb_lt in E; lia|].
  rewrite py_float_of_int by lia.
  unfold float_pow. rewrite Qfloor_Z. reflexivity.
Qed.



(** ** Enqueue *)

Lemma enqueue_no_mutation_on_fault (d : job_dict) (now_iso : string) (s s' : store) (e : fault) :
  enqueue d now_iso s = (Raise e, s') -> s' = s.
Proof.
  unfold enqueue. intros H.
  destruct (d_id d); [|congruence].
  destruct (d_command d); [|congruence].
  destruct (has_id _ _); congruence.
Qed.

(** C4 as stated fails for [updated_at]: a payload that carries
    [created_at] but no [updated_at] is stored with [updated_at] equal to
    that [created_at], not to the current time. *)
Lemma enqueue_updated_at_is_created_at :
  let d := JobDict (Some "j1") (Some "true") None None None
                   (Some "2020-02-02T02:02:02Z") None in
  exists row,
    cmd_enqueue sample_int d "2026-01-01T00:00:00Z" empty_store
      = (Ok "j1", with_jobs [row] empty_store) /\
    d_updated_at d = None /\
    updated_at row = "2020-02-02T02:02:02Z" /\
    updated_at row <> "2026-01-01T00:00:00Z".
Proof.
  simpl. eexists. split; [reflexivity|]. split; [reflexivity|].
  split; [reflexivity|]. discriminate.
Qed.

(** C4, amended: for a payload with [id] and [command], [cmd_enqueue] on a
    fresh id returns the id and appends one row with the payload's id and
    command, eta null, and each optional column defaulted when its key is
    absent:
    state [pending], [attempts = 0], [max_retries] = the configured default
    (key [max_retries], else 3), [created_at] = the current time,
    [updated_at] = [created_at] (so the current time when both are
    absent).  On an id already in [jobs] it raises the integrity fault, and
    whenever it raises the store is as before. *)
Theorem cmd_enqueue_contract (py_int : string -> result Z)
    (d : job_dict) (jid cmd v now_iso : string) (dflt : Z) (s : store) :
  d_id d = Some jid ->
  d_command d = Some cmd ->
  config_get "max_retries" (Some "3") s = Some v ->
  py_int v = Ok dflt ->
  (jid ∉ map id (jobs s) ->
     exists row,
       cmd_enqueue py_int d now_iso s = (Ok jid, with_jobs (jobs s ++ [row]) s) /\
       row = Job jid cmd
               (get_or (d_state d) "pending")
               (default 0 (d_attempts d))
               (default dflt (d_max_retries d))
               None
               (get_or (d_created_at d) now_iso)
               (get_or (d_updated_at d) (get_or (d_created_at d) now_iso)) /\
       id row = jid /\ command row = cmd /\ eta row = None /\
       (d_state d = None -> state row = "pending") /\
       (d_attempts d = None -> attempts row = 0) /\
       (d_max_retries d = None -> max_retries row = dflt) /\
       (d_created_at d = None -> created_at row = now_iso) /\
       (d_updated_at d = None -> updated_at row = created_at row) /\
       (d_created_at d = None -> d_updated_at d = None -> updated_at row = now_iso)) /\
  (jid ∈ map id (jobs s) ->
     exists msg, cmd_enqueue py_int d now_iso s = (Raise (IntegrityError msg), s)) /\
  (forall e s', cmd_enqueue py_int d now_iso s = (Raise e, s') -> s' = s).
Proof.
  intros Hid Hcmd Hcfg Hint. split; [|split].
  - intros Hfresh. apply has_id_false in Hfresh. eexists. split; [|split; [reflexivity|]].
    + unfold cmd_enqueue. rewrite Hcfg, Hint.
      destruct d as [i c st a m ca ua]; simpl in *. subst i c.
      destruct m as [m|], st as [st|]; unfold enqueue; simpl; rewrite Hfresh; try reflexivity.
      all: destruct (String.eqb st ""); reflexivity.
    + simpl. repeat split; intros; subst; simpl;
        repeat match goal with H : _ = None |- _ => rewrite H end; reflexivity.
  - intros Hdup.
    assert (Hhas : has_id jid (jobs s) = true).
    { destruct (has_id jid (jobs s)) eqn:E; [reflexivity|].
      apply has_id_false in E. contradiction. }
    exists "UNIQUE constraint failed: jobs.id".
    unfold cmd_enqueue. rewrite Hcfg, Hint.
    destruct d as [i c st a m ca ua]; simpl in *. subst i c.
    destruct m as [m|], st as [st|]; unfold enqueue; simpl; rewrite Hhas; reflexivity.
  - intros e s'. unfold cmd_enqueue. rewrite Hcfg, Hint.
    destruct (d_max_retries d); apply enqueue_no_mutation_on_fault.
Qed.

(** ** The bound on attempts *)

Lemma Forall_update_where (P : job -> Prop) (f : job -> job) (jid : string) (js : list job) :
  Forall P js ->
  (forall r, r ∈ js -> id r = jid -> P (f r)) ->
  Forall P (update_where f jid js).
Proof.
  intros HP Hf. unfold update_where. apply Forall_fmap, Forall_forall.
  intros r Hr. simpl. destruct (String.eqb (id r) jid) eqn:E.
  - apply Hf; [assumption | apply String.eqb_eq; assumption].
  - rewrite Forall_forall in HP. auto.
Qed.


Lemma unique_ids_elem_eq (js : list job) (x y : job) :
  NoDup (map id js) -> x ∈ js -> y ∈ js -> id x = id y -> x = y.
Proof.
  intros Hnd Hx Hy Hid.
  pose proof (find_id_unique x js Hnd Hx) as Fx.
  pose proof (find_id_unique y js Hnd Hy) as Fy.
  rewrite Hid in Fx. congruence.
Qed.

Lemma NoDup_ids_filter (P : job -> Prop) `{forall r, Decision (P r)} (js : list job) :
  NoDup (map id js) -> NoDup (map id (filter P js)).
Proof.
  induction js as [|x js IH]; simpl; intros Hnd; [constructor|].
  apply NoDup_cons in Hnd as [Hx Hnd]. rewrite filter_cons.
  destruct (decide (P x)); [|auto].
  simpl. apply NoDup_cons. split; [|auto].
  intros Hin. apply Hx. apply list_elem_of_fmap in Hin as (y & Hy & Hin).
  apply list_elem_of_filter in Hin as [_ Hin].
  apply list_elem_of_fmap. exists y. auto.
Qed.

Lemma budget_inv_bounded (s : store) : budget_inv s -> attempts_bounded s.
Proof.
  intros [_ Hb]. unfold attempts_bounded. eapply Forall_impl; [exact Hb|].
  intros r [_ Hr] _. exact Hr.
Qed.

Lemma budget_update_where (f : job -> job) (jid : string) (s : store) :
  (forall r, id (f r) = id r) ->
  (forall r, r ∈ jobs s -> id r = jid -> in_budget (f r)) ->
  budget_inv s ->
  budget_inv (with_jobs (update_where f jid (jobs s)) s).
Proof.
  intros Hid Hf [Hu Hb]. split.
  - unfold unique_ids. simpl. rewrite update_where_ids by exact Hid. exact Hu.
  - simpl. apply Forall_update_where; assumption.
Qed.

Lemma budget_inv_elem (s : store) (r : job) :
  budget_inv s -> r ∈ jobs s -> in_budget r.
Proof. intros [_ Hb] Hr. rewrite Forall_forall in Hb. auto. Qed.

Lemma budget_enqueue (d : job_dict) (now_iso : string) (s : store) :
  within_budget (OpEnqueue d now_iso) ->
  budget_inv s -> budget_inv (snd (enqueue d now_iso s)).
Proof.
  intros [H0 Hle] [Hu Hb]. unfold enqueue.
  destruct (d_id d) as [jid|]; [|split; assumption].
  destruct (d_command d) as [cmd|]; [|split; assumption].
  destruct (has_id jid (jobs s)) eqn:E; [split; assumption|].
  apply has_id_false in E. split; simpl.
  - unfold unique_ids. simpl. rewrite map_app. simpl.
    apply NoDup_app. repeat split; [exact Hu| |apply NoDup_singleton].
    intros x Hx Hx'. apply list_elem_of_singleton in Hx'. subst x. contradiction.
  - apply Forall_app. split; [exact Hb|]. constructor; [|constructor].
    split; [exact H0 | exact Hle].
Qed.

Lemma budget_pop (now : Q) (now_iso : string) (s : store) :
  budget_inv s -> budget_inv (snd (pop_pending_for_run now now_iso s)).
Proof.
  intros Hb. unfold pop_pending_for_run.
  destruct (select_claimable now (jobs s)) as [r|]; [|exact Hb]. simpl.
  apply budget_update_where; [reflexivity| |exact Hb].
  intros x Hx _. exact (budget_inv_elem s x Hb Hx).
Qed.

Lemma budget_mark_completed (jid now_iso : string) (s : store) :
  budget_inv s -> budget_inv (mark_completed jid now_iso s).
Proof.
  intros Hb. apply budget_update_where; [reflexivity| |exact Hb].
  intros x Hx _. exact (budget_inv_elem s x Hb Hx).
Qed.

Lemma budget_move_to_dlq (row : job) (err i1 i2 : string) (s : store) :
  budget_inv s -> budget_inv (move_to_dlq row err i1 i2 s).
Proof.
  intros Hb.
  pose proof (budget_update_where (set_dead i2) (id row) s) as H.
  destruct H as [Hu Hf]; [reflexivity| |exact Hb|split; assumption].
  intros x Hx _. exact (budget_inv_elem s x Hb Hx).
Qed.

Lemma budget_mark_failed_retry (jid : string) (n : Z) (delay now : Q) (now_iso : string) (s : store) :
  (forall r, r ∈ jobs s -> id r = jid -> n <= max_retries r) ->
  budget_inv s -> budget_inv (mark_failed_retry jid n delay now now_iso s).
Proof.
  intros Hn Hb. apply budget_update_where; [reflexivity| |exact Hb].
  intros x Hx Hid. destruct (budget_inv_elem s x Hb Hx) as [H0 _].
  split; simpl; auto.
Qed.

Lemma budget_retry_from_dlq (jid now_iso : string) (s : store) :
  budget_inv s -> budget_inv (snd (retry_from_dlq jid now_iso s)).
Proof.
  intros Hb. unfold retry_from_dlq.
  destruct (find _ (dlq s)); [|exact Hb]. simpl.
  pose proof (budget_update_where (set_pending now_iso) jid s) as H.
  destruct H as [Hu Hf]; [reflexivity| |exact Hb|split; assumption].
  intros x Hx _. destruct (budget_inv_elem s x Hb Hx) as [H0 _].
  split; simpl; [assumption|exact H0].
Qed.

Lemma budget_delete_job (jid : string) (s : store) :
  budget_inv s -> budget_inv (snd (delete_job jid s)).
Proof.
  intros [Hu Hb]. split; simpl.
  - unfold unique_ids. simpl. apply NoDup_ids_filter. exact Hu.
  - rewrite Forall_forall in *. intros x Hx.
    apply list_elem_of_filter in Hx as [_ Hx]. auto.
Qed.

Section WorkerBudget.

Variable py_float : string -> result Q.

Lemma budget_retry_or_dead (j : job) (n : Z) (err : string) (now : Q)
    (iso1 iso2 : string) (s s' : store) :
  (forall r, r ∈ jobs s -> id r = id j -> max_retries r = max_retries j) ->
  budget_inv s ->
  retry_or_dead py_float j n err now iso1 iso2 s = Ok s' ->
  budget_inv s'.
Proof.
  intros Hmax Hb. unfold retry_or_dead.
  destruct (n >? max_retries j) eqn:E.
  - intros H. inversion H. apply budget_move_to_dlq. exact Hb.
  - destruct (config_get _ _ s) as [v|]; [|discriminate].
    destruct (py_float v) as [base|]; [|discriminate].
    destruct (compute_delay base n) as [delay|]; [|discriminate].
    intros H. inversion H. apply budget_mark_failed_retry; [|exact Hb].
    intros r Hr Hid. rewrite (Hmax r Hr Hid). lia.
Qed.

Lemma budget_run_claimed (j : job) (out : outcome) (now : Q)
    (iso1 iso2 : string) (s s' : store) :
  (forall r, r ∈ jobs s -> id r = id j -> max_retries r = max_retries j) ->
  budget_inv s ->
  run_claimed py_float j out now iso1 iso2 s = Ok s' ->
  budget_inv s'.
Proof.
  intros Hmax Hb. unfold run_claimed. destruct out as [rc|msg|name msg].
  - destruct (rc =? 0).
    + intros H. inversion H. apply budget_mark_completed. exact Hb.
    + destruct (retry_or_dead py_float j (attempts j + 1) _ now iso1 iso2 s) eqn:E.
      * intros H. inversion H. subst. eapply budget_retry_or_dead; eassumption.
      * intros H. eapply budget_retry_or_dead; eassumption.
  - intros H. eapply budget_retry_or_dead; eassumption.
  - intros H. eapply budget_retry_or_dead; eassumption.
Qed.

Lemma budget_worker_iteration (claim_now : Q) (claim_iso : string) (out : outcome)
    (now : Q) (iso1 iso2 : string) (s : store) :
  budget_inv s ->
  budget_inv (snd (worker_iteration py_float claim_now claim_iso out now iso1 iso2 s)).
Proof.
  intros Hb. unfold worker_iteration.
  pose proof (budget_pop claim_now claim_iso s Hb) as Hpop.
  unfold pop_pending_for_run in *.
  destruct (select_claimable claim_now (jobs s)) as [j|] eqn:Hsel; [|exact Hb].
  simpl in Hpop.
  destruct (run_claimed py_float j out now iso1 iso2 _) as [s''|e] eqn:Hrun;
    [|exact Hpop].
  simpl. eapply budget_run_claimed; [|exact Hpop|exact Hrun].
  apply select_claimable_some in Hsel as (Hj & _ & _).
  intros r Hr Hid. simpl in Hr. unfold update_where in Hr.
  apply list_elem_of_fmap in Hr as (x & -> & Hx).
  destruct Hb as [Hu _].
  destruct (String.eqb (id x) (id j)) eqn:E.
  - apply String.eqb_eq in E.
    rewrite (unique_ids_elem_eq (jobs s) x j Hu Hx Hj E). reflexivity.
  - rewrite (unique_ids_elem_eq (jobs s) x j Hu Hx Hj Hid). reflexivity.
Qed.

Lemma budget_apply_op (o : op) (s : store) :
  within_budget o -> budget_inv s -> budget_inv (apply_op py_float o s).
Proof.
  intros Hw Hb. destruct o; simpl.
  - apply budget_enqueue; assumption.
  - apply budget_worker_iteration; assumption.
  - apply budget_retry_from_dlq; assumption.
  - apply budget_delete_job; assumption.
  - exact Hb.
  - exact Hb.
  - exact Hb.
  - exact Hb.
  - exact Hb.
Qed.

Lemma budget_run_ops (ops : list op) (s : store) :
  Forall within_budget ops -> budget_inv s -> budget_inv (run_ops py_float ops s).
Proof.
  unfold run_ops. revert s. induction ops as [|o ops IH]; simpl; intros s Hw Hb.
  - exact Hb.
  - apply Forall_cons in Hw as [Ho Hw]. apply IH; [exact Hw|].
    apply budget_apply_op; assumption.
Qed.

End WorkerBudget.

Lemma budget_inv_empty : budget_inv empty_store.
Proof. split; [constructor|constructor]. Qed.

Lemma get_job_move_to_dlq (row : job) (err i1 i2 : string) (s : store) (k : string) :
  get_job k (move_to_dlq row err i1 i2 s) =
  if String.eqb k (id row) then option_map (set_dead i2) (get_job k s) else get_job k s.
Proof. unfold get_job. simpl. apply find_update_where. reflexivity. Qed.



(** ** Retries up to the dead-letter queue *)

Lemma get_job_mark_failed_retry (jid k : string) (n : Z) (delay now : Q)
    (now_iso : string) (s : store) :
  get_job k (mark_failed_retry jid n delay now now_iso s) =
  if String.eqb k jid
  then option_map (set_failed n (float_add now delay) now_iso) (get_job k s)
  else get_job k s.
Proof. unfold get_job. simpl. apply find_update_where. reflexivity. Qed.

Lemma get_job_enqueued (d : job_dict) (now_iso jid : string) (s s0 : store) :
  enqueue d now_iso s = (Ok jid, s0) ->
  exists cmd,
    get_job jid s0 =
      Some (Job jid cmd (get_or (d_state d) "pending") (default 0 (d_attempts d))
                (default 3 (d_max_retries d)) None
                (get_or (d_created_at d) now_iso)
                (get_or (d_updated_at d) (get_or (d_created_at d) now_iso))) /\
    dlq s0 = dlq s /\ config s0 = config s.
Proof.
  unfold enqueue. destruct (d_id d) as [i|]; [|discriminate].
  destruct (d_command d) as [cmd|]; [|discriminate].
  destruct (has_id i (jobs s)) eqn:E; [discriminate|].
  intros H. inversion H. subst. exists cmd. split; [|split; reflexivity].
  unfold get_job, has_id in *. simpl.
  induction (jobs s) as [|x l IH]; simpl in *.
  - rewrite String.eqb_refl. reflexivity.
  - apply orb_false_iff in E as [E1 E2]. rewrite E1. auto.
Qed.

Lemma dlq_of_app (jid : string) (s : store) (l : list dlq_record) (d : dlq_record) :
  dlq s = (l ++ [d])%list -> job_id d = jid ->
  filter (fun x => String.eqb (job_id x) jid = true) l = [] ->
  dlq_of jid s = [d].
Proof.
  intros Hs Hd Hl. unfold dlq_of. rewrite Hs, filter_app, Hl. simpl.
  rewrite filter_cons. rewrite Hd, String.eqb_refl.
  destruct (decide (true = true)); [reflexivity|congruence].
Qed.

(** A DLQ record never outlives its job unless [delete_job] is called, so
    a freshly enqueued id has no record. *)
Lemma dlq_ids_known_update (f : job -> job) (jid : string) (s : store) (ds : list dlq_record) :
  (forall r, id (f r) = id r) ->
  Forall (fun d => job_id d ∈ map id (jobs s)) ds ->
  Forall (fun d => job_id d ∈ map id (update_where f jid (jobs s))) ds.
Proof. intros Hf H. rewrite update_where_ids by exact Hf. exact H. Qed.

Lemma dlq_ids_known_move (j : job) (err i1 i2 : string) (s : store) :
  id j ∈ map id (jobs s) ->
  dlq_ids_known s -> dlq_ids_known (move_to_dlq j err i1 i2 s).
Proof.
  intros Hj Hk. unfold dlq_ids_known, move_to_dlq. simpl.
  rewrite update_where_ids by reflexivity.
  apply Forall_app. split; [exact Hk|]. constructor; [exact Hj|constructor].
Qed.

Lemma dlq_ids_known_apply_op (py_float : string -> result Q) (o : op) (s : store) :
  not_delete o -> dlq_ids_known s -> dlq_ids_known (apply_op py_float o s).
Proof.
  intros Hnd Hk. destruct o; simpl; try exact Hk; try contradiction.
  - unfold enqueue. destruct (d_id d); [|exact Hk].
    destruct (d_command d); [|exact Hk].
    destruct (has_id _ _); [exact Hk|]. unfold dlq_ids_known. simpl.
    eapply Forall_impl; [exact Hk|]. intros x Hx. simpl in Hx.
    rewrite map_app. apply elem_of_app. left. exact Hx.
  - unfold worker_iteration, pop_pending_for_run.
    destruct (select_claimable claim_now (jobs s)) as [j|] eqn:Hsel; [|exact Hk].
    apply select_claimable_some in Hsel as (Hj & _ & _).
    set (s1 := with_jobs (update_where (set_processing claim_iso) (id j) (jobs s)) s).
    assert (Hk1 : dlq_ids_known s1)
      by (apply dlq_ids_known_update; [reflexivity|exact Hk]).
    assert (Hj1 : id j ∈ map id (jobs s1)).
    { unfold s1. simpl. rewrite update_where_ids by reflexivity.
      apply list_elem_of_fmap. exists j. split; [reflexivity|exact Hj]. }
    assert (Hrd : forall n err s2,
      retry_or_dead py_float j n err now iso1 iso2 s1 = Ok s2 -> dlq_ids_known s2).
    { intros n err s2. unfold retry_or_dead.
      destruct (n >? max_retries j).
      - intros H. inversion H. apply dlq_ids_known_move; assumption.
      - destruct (config_get _ _ s1); [|discriminate].
        destruct (py_float _) as [base|]; [|discriminate].
        destruct (compute_delay base n); [|discriminate].
        intros H. inversion H.
        apply (dlq_ids_known_update _ _ s1); [reflexivity|exact Hk1]. }
    destruct (run_claimed py_float j out now iso1 iso2 s1) as [s2|e] eqn:Hrun;
      [|exact Hk1].
    simpl. unfold run_claimed in Hrun. destruct out as [rc|msg|name msg].
    + destruct (rc =? 0).
      * inversion Hrun. apply (dlq_ids_known_update _ _ s1); [reflexivity|exact Hk1].
      * destruct (retry_or_dead py_float j (attempts j + 1) _ now iso1 iso2 s1) eqn:E.
        -- inversion Hrun. subst. eapply Hrd. exact E.
        -- eapply Hrd. exact Hrun.
    + eapply Hrd. exact Hrun.
    + eapply Hrd. exact Hrun.
  - unfold retry_from_dlq. destruct (find _ (dlq s)); [|exact Hk].
    unfold dlq_ids_known in *. simpl. rewrite update_where_ids by reflexivity.
    rewrite Forall_forall in *. intros x Hx.
    apply list_elem_of_filter in Hx as [_ Hx]. auto.
Qed.

Lemma dlq_ids_known_run_ops (py_float : string -> result Q) (ops : list op) (s : store) :
  Forall not_delete ops -> dlq_ids_known s -> dlq_ids_known (run_ops py_float ops s).
Proof.
  unfold run_ops. revert s. induction ops as [|o ops IH]; simpl; intros s Hnd Hk.
  - exact Hk.
  - apply Forall_cons in Hnd as [Ho Hnd]. apply IH; [exact Hnd|].
    apply dlq_ids_known_apply_op; assumption.
Qed.

Lemma enqueue_fresh_no_dlq (d : job_dict) (now_iso jid : string) (s s0 : store) :
  dlq_ids_known s ->
  enqueue d now_iso s = (Ok jid, s0) ->
  dlq_of jid s = [].
Proof.
  intros Hk. unfold enqueue. destruct (d_id d) as [i|]; [|discriminate].
  destruct (d_command d); [|discriminate].
  destruct (has_id i (jobs s)) eqn:E; [discriminate|].
  intros H. inversion H. subst i. apply has_id_false in E.
  unfold dlq_of, dlq_ids_known in *. induction (dlq s) as [|x l IH]; [reflexivity|].
  apply Forall_cons in Hk as [Hx Hl]. rewrite filter_cons.
  destruct (decide (String.eqb (job_id x) jid = true)) as [Heq|Hne]; [|auto].
  apply String.eqb_eq in Heq. congruence.
Qed.

(** ** Concurrent claims *)

Lemma pop_twice_distinct (n1 n2 : Q) (i1 i2 : string) (s s1 s2 : store) (j1 j2 : job) :
  pop_pending_for_run n1 i1 s = (Some j1, s1) ->
  pop_pending_for_run n2 i2 s1 = (Some j2, s2) ->
  id j1 <> id j2.
Proof.
  unfold pop_pending_for_run. intros H1 H2.
  destruct (select_claimable n1 (jobs s)) as [x|] eqn:E1; [|discriminate].
  inversion H1; subst x s1; clear H1.
  destruct (select_claimable n2 _) as [y|] eqn:E2; [|discriminate].
  inversion H2; subst y s2; clear H2.
  apply select_claimable_some in E2 as (Hin & Hel & _).
  apply eligible_iff in Hel as [Hst _].
  simpl in Hin. unfold update_where in Hin.
  apply list_elem_of_fmap in Hin as (x & Hx & _).
  intros Hid. destruct (String.eqb (id x) (id j1)) eqn:E.
  - subst j2. simpl in Hst. discriminate.
  - subst j2. apply String.eqb_neq in E. congruence.
Qed.

Lemma pop_sole_then_none (n1 n2 : Q) (i1 i2 : string) (s : store) (j : job) :
  sole_eligible n1 s j -> sole_eligible n2 s j ->
  exists s1,
    pop_pending_for_run n1 i1 s = (Some j, s1) /\
    pop_pending_for_run n2 i2 s1 = (None, s1).
Proof.
  intros (Hin & Hel & Hsole) (_ & _ & Hsole2). unfold pop_pending_for_run.
  destruct (select_claimable n1 (jobs s)) as [x|] eqn:E1.
  - apply select_claimable_some in E1 as (Hx & Hxe & _).
    rewrite (Hsole x Hx Hxe). eexists. split; [reflexivity|].
    assert (Hnone : select_claimable n2
              (jobs (with_jobs (update_where (set_processing i1) (id j) (jobs s)) s)) = None).
    { apply select_claimable_none. intros r Hr. simpl in Hr. unfold update_where in Hr.
      apply list_elem_of_fmap in Hr as (y & -> & Hy).
      destruct (String.eqb (id y) (id j)) eqn:E; [reflexivity|].
      destruct (eligible n2 y) eqn:Ey; [|reflexivity].
      rewrite (Hsole2 y Hy Ey), String.eqb_refl in E. discriminate. }
    rewrite Hnone. reflexivity.
  - rewrite select_claimable_none in E1. rewrite (E1 j Hin) in Hel. discriminate.
Qed.

(** Every schedule that lets both calls return is one of the two serial
    executions: while a caller holds the write lock the other cannot move. *)
Ltac race_explore H :=
  lazymatch type of H with
  | None = Some _ => discriminate H
  | Some _ = Some _ => injection H as H; subst
  | race_run _ ?sched _ = Some _ =>
      first
        [ is_var sched; destruct sched as [|[|] sched]
        | idtac ];
      cbn [race_run race_step pc_of set_pc pc_a pc_b writer db now_of iso_of] in H;
      try lazymatch type of H with
          | context [AtUpdate (select_claimable ?n ?js)] =>
              destruct (select_claimable n js) eqn:?
          end;
      race_explore H
  end.

Ltac serial_solve :=
  unfold serial_claims, pop_pending_for_run; simpl in *;
  repeat (match goal with
          | E : select_claimable _ _ = _ |- _ => rewrite E; clear E
          end; simpl);
  reflexivity.

Lemma race_serializable (k : clocks) (sched : list caller) (s : store) (r' : race)
    (ra rb : option job) :
  race_run k sched (race_start s) = Some r' ->
  pc_a r' = Finished ra -> pc_b r' = Finished rb ->
  exists first, serial_claims k first s = (ra, rb, db r').
Proof.
  unfold race_start. intros Hrun Ha Hb.
  race_explore Hrun; simpl in Ha, Hb; try discriminate;
    injection Ha as <-; injection Hb as <-;
    first [ exists CallerA; serial_solve | exists CallerB; serial_solve ].
Qed.

Lemma race_completes (k : clocks) (s : store) :
  exists sched r' ra rb,
    race_run k sched (race_start s) = Some r' /\
    pc_a r' = Finished ra /\ pc_b r' = Finished rb.
Proof.
  destruct (select_claimable (now_a k) (jobs s)) as [j|] eqn:E1.
  - destruct (select_claimable (now_b k)
                (update_where (set_processing (iso_a k)) (id j) (jobs s)))
      as [j'|] eqn:E2.
    + exists [CallerA; CallerA; CallerA; CallerA; CallerB; CallerB; CallerB; CallerB].
      simpl. rewrite E1. simpl. rewrite E2. simpl. do 3 eexists. repeat split.
    + exists [CallerA; CallerA; CallerA; CallerA; CallerB; CallerB; CallerB].
      simpl. rewrite E1. simpl. rewrite E2. simpl. do 3 eexists. repeat split.
  - destruct (select_claimable (now_b k) (jobs s)) as [j'|] eqn:E2.
    + exists [CallerA; CallerA; CallerA; CallerB; CallerB; CallerB; CallerB].
      simpl. rewrite E1. simpl. rewrite E2. simpl. do 3 eexists. repeat split.
    + exists [CallerA; CallerA; CallerA; CallerB; CallerB; CallerB].
      simpl. rewrite E1. simpl. rewrite E2. simpl. do 3 eexists. repeat split.
Qed.


(** * The statements on the sample data *)

Lemma sample_store_unique_ids : unique_ids sample_store.
Proof. unfold unique_ids. apply (bool_decide_unpack _). vm_compute. exact I. Defined.

Lemma single_store_unique_ids : unique_ids single_store.
Proof. unfold unique_ids. apply (bool_decide_unpack _). vm_compute. exact I. Defined.



Lemma retry_from_dlq_not_found_witness :
  dlq_of "fresh" sample_store = [] /\
  retry_from_dlq "fresh" "2026-01-01T10:00:00Z" sample_store = (false, sample_store).
Proof.
  split; [reflexivity|].
  apply (retry_from_dlq_not_found "fresh" "2026-01-01T10:00:00Z" sample_store).
  reflexivity.
Defined.


Lemma stop_flag_idempotent_witness :
  is_stop_requested empty_store = false /\
  is_stop_requested (clear_stop empty_store) = false /\
  clear_stop empty_store = empty_store /\
  is_stop_requested (request_stop (request_stop empty_store)) = true.
Proof.
  split; [reflexivity|].
  destruct (stop_flag_idempotent empty_store) as (C1 & _ & C3 & _).
  destruct (C1 eq_refl) as [C1a C1b].
  repeat split; assumption.
Defined.


Lemma cmd_enqueue_contract_witness :
  config_get "max_retries" (Some "3") sample_store = Some "3" /\
  sample_int "3" = Ok 3 /\
  ("new" ∉ map id (jobs sample_store)) /\
  cmd_enqueue sample_int (minimal_dict "new" "echo 1") "2026-01-01T10:00:00Z" sample_store =
    (Ok "new",
     with_jobs (jobs sample_store ++
                [Job "new" "echo 1" "pending" 0 3 None
                     "2026-01-01T10:00:00Z" "2026-01-01T10:00:00Z"]) sample_store) /\
  ("due" ∈ map id (jobs sample_store)) /\
  exists msg,
    cmd_enqueue sample_int (minimal_dict "due" "echo 1") "2026-01-01T10:00:00Z" sample_store =
      (Raise (IntegrityError msg), sample_store).
Proof.
  assert (Hfresh : "new" ∉ map id (jobs sample_store)).
  { apply (bool_decide_unpack _). vm_compute. exact I. }
  assert (Hdup : "due" ∈ map id (jobs sample_store)).
  { apply (bool_decide_unpack _). vm_compute. exact I. }
  split; [reflexivity|]. split; [reflexivity|]. split; [exact Hfresh|]. split.
  - destruct (cmd_enqueue_contract sample_int (minimal_dict "new" "echo 1")
                "new" "echo 1" "3" "2026-01-01T10:00:00Z" 3 sample_store
                eq_refl eq_refl eq_refl eq_refl) as (C & _).
    destruct (C Hfresh) as (row & Hrun & Hrow & _).
    rewrite Hrun, Hrow. reflexivity.
  - split; [exact Hdup|].
    destruct (cmd_enqueue_contract sample_int (minimal_dict "due" "echo 1")
                "due" "echo 1" "3" "2026-01-01T10:00:00Z" 3 sample_store
                eq_refl eq_refl eq_refl eq_refl) as (_ & C & _).
    exact (C Hdup).
Defined.

Lemma sample_ops_within_budget : Forall within_budget sample_ops.
Proof. repeat constructor; simpl; lia. Defined.


Lemma job_fresh_sole_eligible (now : Q) :
  (now < 100)%Q -> sole_eligible now single_store job_fresh.
Proof.
  intros Hnow. split; [|split].
  - right. left.
  - reflexivity.
  - intros r Hr He. simpl in Hr.
    repeat (apply elem_of_cons in Hr as [->|Hr]); try reflexivity; try discriminate.
    + exfalso. unfold eligible in He. simpl in He.
      apply Qle_bool_iff in He. apply (Qlt_irrefl now).
      eapply Qlt_le_trans; eassumption.
    + inversion Hr.
Defined.


(** * Further properties of the store *)

(** ** Enqueue, lookup and deletion *)

Lemma with_jobs_same (s : store) : with_jobs (jobs s) s = s.
Proof. destruct s; reflexivity. Qed.

Lemma update_where_absent (f : job -> job) (jid : string) (js : list job) :
  find (fun r => String.eqb (id r) jid) js = None ->
  update_where f jid js = js.
Proof.
  unfold update_where. induction js as [|r js IH]; simpl; [reflexivity|].
  destruct (String.eqb (id r) jid); [discriminate|].
  intros H. rewrite IH by exact H. reflexivity.
Qed.

Lemma find_none_has_id (jid : string) (js : list job) :
  find (fun r => String.eqb (id r) jid) js = None <-> has_id jid js = false.
Proof.
  unfold has_id. induction js as [|r js IH]; simpl; [tauto|].
  destruct (String.eqb (id r) jid); simpl; [split; discriminate|exact IH].
Qed.

Lemma find_app_absent (jid : string) (js : list job) (r : job) :
  find (fun x => String.eqb (id x) jid) js = None ->
  find (fun x => String.eqb (id x) jid) (js ++ [r]) =
  if String.eqb (id r) jid then Some r else None.
Proof.
  induction js as [|x js IH]; simpl; [reflexivity|].
  destruct (String.eqb (id x) jid); [discriminate|exact IH].
Qed.

Lemma find_app_other (k : string) (js : list job) (r : job) :
  id r <> k ->
  find (fun x => String.eqb (id x) k) (js ++ [r]) =
  find (fun x => String.eqb (id x) k) js.
Proof.
  intros Hne. induction js as [|x js IH]; simpl.
  - apply String.eqb_neq in Hne. rewrite Hne. reflexivity.
  - destruct (String.eqb (id x) k); [reflexivity|exact IH].
Qed.

(** X1: a successful [enqueue] inserted an id that was not in the table;
    [get_job] on that id now returns the appended row, every other id looks
    up as before, the primary key stays unique and the DLQ is untouched. *)
Theorem enqueue_then_get_job (d : job_dict) (now_iso jid : string) (s s0 : store) :
  enqueue d now_iso s = (Ok jid, s0) ->
  get_job jid s = None /\
  (exists row,
     get_job jid s0 = Some row /\ jobs s0 = (jobs s ++ [row])%list /\
     id row = jid /\ d_command d = Some (command row) /\ eta row = None) /\
  (forall k, k <> jid -> get_job k s0 = get_job k s) /\
  (unique_ids s -> unique_ids s0) /\
  dlq s0 = dlq s /\ control s0 = control s /\ config s0 = config s.
Proof.
  unfold enqueue. destruct (d_id d) as [i|]; [|discriminate].
  destruct (d_command d) as [cmd|]; [|discriminate].
  destruct (has_id i (jobs s)) eqn:E; [discriminate|].
  intros H. inversion H. subst i s0. clear H.
  pose proof (proj2 (find_none_has_id jid (jobs s)) E) as Hnone.
  split; [exact Hnone|]. split; [|split; [|split]].
  - eexists. split; [|split; [reflexivity|]].
    + unfold get_job. simpl. rewrite find_app_absent by exact Hnone.
      simpl. rewrite String.eqb_refl. reflexivity.
    + repeat split.
  - intros k Hk. unfold get_job. simpl. apply find_app_other. simpl. congruence.
  - intros Hu. unfold unique_ids. simpl. rewrite map_app. simpl.
    apply NoDup_app. repeat split; [exact Hu| |apply NoDup_singleton].
    intros x Hx Hx'. apply list_elem_of_singleton in Hx'. subst x.
    apply has_id_false in E. contradiction.
  - repeat split.
Qed.

(** X2: [enqueue] is no upsert.  Once an id is in the table, any further
    [enqueue] of a payload with that id raises the integrity fault and the
    row stored first stays as it is. *)
Theorem enqueue_twice_rejected (d1 d2 : job_dict) (iso1 iso2 jid cmd2 : string)
    (s s0 : store) :
  enqueue d1 iso1 s = (Ok jid, s0) ->
  d_id d2 = Some jid ->
  d_command d2 = Some cmd2 ->
  exists msg, enqueue d2 iso2 s0 = (Raise (IntegrityError msg), s0).
Proof.
  intros H1 Hid Hcmd.
  destruct (get_job_enqueued d1 iso1 jid s s0 H1) as (cmd & Hget & _).
  assert (Hhas : has_id jid (jobs s0) = true).
  { destruct (has_id jid (jobs s0)) eqn:E; [reflexivity|].
    apply find_none_has_id in E. unfold get_job in Hget. congruence. }
  unfold enqueue. rewrite Hid, Hcmd, Hhas. eauto.
Qed.

Lemma find_filter_other (jid k : string) (js : list job) :
  find (fun r => String.eqb (id r) k)
       (filter (fun r => String.eqb (id r) jid = false) js) =
  if String.eqb k jid then None else find (fun r => String.eqb (id r) k) js.
Proof.
  induction js as [|r js IH]; simpl.
  - destruct (String.eqb k jid); reflexivity.
  - rewrite filter_cons.
    destruct (decide (String.eqb (id r) jid = false)) as [E|E].
    + simpl. destruct (String.eqb (id r) k) eqn:Hk; [|exact IH].
      apply String.eqb_eq in Hk. subst k. rewrite E. reflexivity.
    + apply not_false_is_true in E. rewrite IH.
      destruct (String.eqb (id r) k) eqn:Hk; [|reflexivity].
      apply String.eqb_eq in Hk, E. subst. rewrite String.eqb_refl. reflexivity.
Qed.

(** X3: [delete_job] returns [True] exactly when a row with the id was
    there; afterwards the id is absent and every other id looks up as
    before.  It deletes from [jobs] only: the DLQ records of the job stay. *)
Theorem delete_job_effect (jid : string) (s : store) :
  (fst (delete_job jid s) = true <-> get_job jid s <> None) /\
  get_job jid (snd (delete_job jid s)) = None /\
  (forall k, k <> jid -> get_job k (snd (delete_job jid s)) = get_job k s) /\
  dlq (snd (delete_job jid s)) = dlq s /\
  dlq_of jid (snd (delete_job jid s)) = dlq_of jid s.
Proof.
  unfold delete_job, get_job. simpl. repeat split.
  - intros Hb Hn. apply find_none_has_id in Hn. congruence.
  - intros Hn. destruct (has_id jid (jobs s)) eqn:E; [reflexivity|].
    apply find_none_has_id in E. contradiction.
  - rewrite find_filter_other, String.eqb_refl. reflexivity.
  - intros k Hk. rewrite find_filter_other.
    apply String.eqb_neq in Hk. rewrite Hk. reflexivity.
Qed.

(** ** Updates by id *)

(** X4: an update addressed to an id that is not in [jobs] changes
    nothing and raises nothing: [mark_completed] and [mark_failed_retry]
    return the store as it was, and [move_to_dlq] still appends its DLQ
    record although no row becomes [dead]. *)
Theorem updates_on_unknown_id (jid : string) (s : store) :
  get_job jid s = None ->
  (forall now_iso, mark_completed jid now_iso s = s) /\
  (forall n delay now now_iso, mark_failed_retry jid n delay now now_iso s = s) /\
  (forall row err i1 i2, id row = jid ->
     jobs (move_to_dlq row err i1 i2 s) = jobs s /\
     dlq (move_to_dlq row err i1 i2 s) =
       (dlq s ++ [DlqRecord (dlq_seq s + 1) jid row err i1])%list).
Proof.
  intros Hnone. unfold get_job in Hnone. repeat split.
  - intros now_iso. unfold mark_completed.
    rewrite update_where_absent by exact Hnone. apply with_jobs_same.
  - intros n delay now now_iso. unfold mark_failed_retry.
    rewrite update_where_absent by exact Hnone. apply with_jobs_same.
  - subst jid. simpl. apply update_where_absent. exact Hnone.
  - subst jid. reflexivity.
Qed.

Lemma dlq_find_iff (jid : string) (ds : list dlq_record) :
  find (fun d => String.eqb (job_id d) jid) ds = None <->
  filter (fun d => String.eqb (job_id d) jid = true) ds = [].
Proof.
  induction ds as [|d ds IH]; simpl; [tauto|].
  rewrite filter_cons.
  destruct (String.eqb (job_id d) jid) eqn:E.
  - destruct (decide (true = true)); [|congruence]. split; discriminate.
  - destruct (decide (false = true)); [discriminate|exact IH].
Qed.

Lemma filter_filter_other (jid k : string) (ds : list dlq_record) :
  k <> jid ->
  filter (fun d => String.eqb (job_id d) k = true)
         (filter (fun d => String.eqb (job_id d) jid = false) ds) =
  filter (fun d => String.eqb (job_id d) k = true) ds.
Proof.
  intros Hk. induction ds as [|d ds IH]; [reflexivity|].
  rewrite !filter_cons.
  destruct (decide (String.eqb (job_id d) jid = false)) as [E|E].
  - rewrite filter_cons. rewrite IH. reflexivity.
  - rewrite IH. apply not_false_is_true in E. apply String.eqb_eq in E.
    destruct (decide (String.eqb (job_id d) k = true)) as [E2|E2]; [|reflexivity].
    apply String.eqb_eq in E2. congruence.
Qed.

(** X5: [retry_from_dlq] returns [True] exactly when the DLQ holds a record
    for the id; it removes every record of that id, leaves the other jobs,
    the other ids' records and the id counter alone, and when no row with
    the id exists (the job was deleted) it still returns [True] and consumes
    the record without re-queueing anything. *)
Theorem retry_from_dlq_effect (jid now_iso : string) (s : store) :
  (fst (retry_from_dlq jid now_iso s) = true <-> dlq_of jid s <> []) /\
  dlq_of jid (snd (retry_from_dlq jid now_iso s)) = [] /\
  (forall k, k <> jid ->
     get_job k (snd (retry_from_dlq jid now_iso s)) = get_job k s /\
     dlq_of k (snd (retry_from_dlq jid now_iso s)) = dlq_of k s) /\
  dlq_seq (snd (retry_from_dlq jid now_iso s)) = dlq_seq s /\
  (get_job jid s = None -> jobs (snd (retry_from_dlq jid now_iso s)) = jobs s).
Proof.
  unfold retry_from_dlq, dlq_of.
  destruct (find _ (dlq s)) as [d|] eqn:Hfind; simpl.
  - repeat split.
    + intros _ Hnil. apply dlq_find_iff in Hnil. congruence.
    + apply filter_other_none.
    + unfold get_job. simpl. rewrite find_update_where by reflexivity.
      apply String.eqb_neq in H. rewrite H. reflexivity.
    + apply filter_filter_other. exact H.
    + intros Hnone. apply update_where_absent. exact Hnone.
  - apply dlq_find_iff in Hfind. repeat split; try assumption.
    + discriminate.
    + intros Hne. contradiction.
Qed.

(** ** DLQ record ids *)

Lemma dlq_seq_ok_move (row : job) (err i1 i2 : string) (s : store) :
  dlq_seq_ok s -> dlq_seq_ok (move_to_dlq row err i1 i2 s).
Proof.
  intros (H0 & Hnd & Hle). unfold dlq_seq_ok, move_to_dlq. simpl.
  split; [lia|]. split.
  - rewrite map_app. simpl. apply NoDup_app.
    repeat split; [exact Hnd| |apply NoDup_singleton].
    intros x Hx Hx'. apply list_elem_of_singleton in Hx'. subst x.
    apply list_elem_of_fmap in Hx as (d & Hd & Hin).
    rewrite Forall_forall in Hle. specialize (Hle d Hin). lia.
  - apply Forall_app. split.
    + eapply Forall_impl; [exact Hle|]. intros d Hd. simpl in Hd. lia.
    + constructor; [simpl; lia|constructor].
Qed.

Lemma NoDup_map_filter {A B : Type} (f : A -> B) (P : A -> Prop)
    `{forall x, Decision (P x)} (l : list A) :
  NoDup (map f l) -> NoDup (map f (filter P l)).
Proof.
  induction l as [|x l IH]; simpl; intros Hnd; [constructor|].
  apply NoDup_cons in Hnd as [Hx Hnd]. rewrite filter_cons.
  destruct (decide (P x)); [|auto].
  simpl. apply NoDup_cons. split; [|auto].
  intros Hin. apply Hx. apply list_elem_of_fmap in Hin as (y & Hy & Hin).
  apply list_elem_of_filter in Hin as [_ Hin].
  apply list_elem_of_fmap. exists y. auto.
Qed.

Lemma dlq_seq_ok_retry (jid now_iso : string) (s : store) :
  dlq_seq_ok s -> dlq_seq_ok (snd (retry_from_dlq jid now_iso s)).
Proof.
  intros (H0 & Hnd & Hle). unfold retry_from_dlq.
  destruct (find _ (dlq s)); [|repeat split; assumption].
  unfold dlq_seq_ok. simpl. split; [exact H0|]. split.
  - apply NoDup_map_filter. exact Hnd.
  - rewrite Forall_forall in *. intros x Hx.
    apply list_elem_of_filter in Hx as [_ Hx]. auto.
Qed.

(** What a pass of the loop body can do to the store: one of the three
    updates on the claimed id. *)
Lemma run_claimed_cases (py_float : string -> result Q) (j : job) (out : outcome)
    (now : Q) (iso1 iso2 : string) (s s' : store) :
  run_claimed py_float j out now iso1 iso2 s = Ok s' ->
  s' = mark_completed (id j) iso1 s \/
  (exists n delay, s' = mark_failed_retry (id j) n delay now iso1 s) \/
  (exists err, s' = move_to_dlq j err iso1 iso2 s).
Proof.
  assert (Hrd : forall n err s2,
    retry_or_dead py_float j n err now iso1 iso2 s = Ok s2 ->
    (exists n delay, s2 = mark_failed_retry (id j) n delay now iso1 s) \/
    (exists err, s2 = move_to_dlq j err iso1 iso2 s)).
  { intros n err s2. unfold retry_or_dead. destruct (n >? max_retries j).
    - intros H. inversion H. right. eauto.
    - destruct (config_get _ _ s); [|discriminate].
      destruct (py_float _) as [base|]; [|discriminate].
      destruct (compute_delay base n); [|discriminate].
      intros H. inversion H. left. eauto. }
  unfold run_claimed. destruct out as [rc|msg|name msg].
  - destruct (rc =? 0).
    + intros H. inversion H. left. reflexivity.
    + destruct (retry_or_dead py_float j (attempts j + 1) _ now iso1 iso2 s) eqn:E.
      * intros H. inversion H. subst. right. eapply Hrd. exact E.
      * intros H. right. eapply Hrd. exact H.
  - intros H. right. eapply Hrd. exact H.
  - intros H. right. eapply Hrd. exact H.
Qed.

Lemma dlq_seq_ok_apply_op (py_float : string -> result Q) (o : op) (s : store) :
  dlq_seq_ok s -> dlq_seq_ok (apply_op py_float o s).
Proof.
  intros Hok. destruct o; simpl; try exact Hok.
  - unfold enqueue. destruct (d_id d); [|exact Hok].
    destruct (d_command d); [|exact Hok].
    destruct (has_id _ _); exact Hok.
  - unfold worker_iteration, pop_pending_for_run.
    destruct (select_claimable claim_now (jobs s)) as [j|]; [|exact Hok].
    destruct (run_claimed py_float j out now iso1 iso2 _) as [s2|e] eqn:Hrun;
      [|exact Hok].
    simpl. apply run_claimed_cases in Hrun as [->|[(n & dl & ->)|(err & ->)]].
    + exact Hok.
    + exact Hok.
    + apply dlq_seq_ok_move. exact Hok.
  - apply dlq_seq_ok_retry. exact Hok.
Qed.


(** ** Configuration *)

(** X7: a value written by [config_set] is what [config_get] returns for
    that key whatever the default, a later write replaces it, the other
    keys read as before, and no table other than [config] changes. *)
Theorem config_set_then_get (key value : string) (s : store) :
  (forall dflt, config_get key dflt (config_set key value s) = Some value) /\
  (forall value', config_set key value' (config_set key value s) = config_set key value' s) /\
  (forall k dflt, k <> key ->
     config_get k dflt (config_set key value s) = config_get k dflt s) /\
  jobs (config_set key value s) = jobs s /\
  dlq (config_set key value s) = dlq s /\
  control (config_set key value s) = control s.
Proof.
  unfold config_get, config_set, with_config. simpl. repeat split.
  - intros dflt. rewrite lookup_insert_eq. reflexivity.
  - intros value'. rewrite insert_insert_eq. reflexivity.
  - intros k dflt Hk. rewrite lookup_insert_ne by congruence. reflexivity.
Qed.

(** ** Listings *)

Section LimitedSorted.

Context {A : Type} (R : relation A) `{forall x y, Decision (R x y)}.
Context `{!Transitive R, !Total R}.

(** [ORDER BY ... LIMIT ?] returns a sorted list of rows of its input, no
    longer than a non-negative limit, and what it leaves out comes after
    everything it returns. *)
Lemma sql_limit_merge_sort (limit : Z) (l : list A) :
  let out := sql_limit limit (merge_sort R l) in
  StronglySorted R out /\
  (forall x, x ∈ out -> x ∈ l) /\
  (0 <= limit -> (length out <= Z.to_nat limit)%nat) /\
  (limit < 0 \/ (length l <= Z.to_nat limit)%nat -> out ≡ₚ l) /\
  exists rest, (out ++ rest)%list ≡ₚ l /\ forall x y, x ∈ out -> y ∈ rest -> R x y.
Proof.
  pose proof (StronglySorted_merge_sort R l) as Hs.
  pose proof (merge_sort_Permutation R l) as Hp.
  unfold sql_limit. destruct (limit <? 0) eqn:E; simpl.
  - repeat split.
    + exact Hs.
    + intros x Hx. rewrite <- Hp. exact Hx.
    + intros Hl. apply Z.ltb_lt in E. lia.
    + intros _. exact Hp.
    + exists []. rewrite app_nil_r. split; [exact Hp|].
      intros x y _ Hy. inversion Hy.
  - set (n := Z.to_nat limit). set (sorted := merge_sort R l) in *.
    assert (Hsplit : (take n sorted ++ drop n sorted)%list = sorted) by apply take_drop.
    repeat split.
    + rewrite <- Hsplit in Hs. eapply StronglySorted_app_1_l. exact Hs.
    + intros x Hx. rewrite <- Hp. eapply subseteq_take. exact Hx.
    + intros _. rewrite length_take. lia.
    + intros [Hneg|Hlen]; [apply Z.ltb_ge in E; lia|].
      rewrite take_ge; [exact Hp|]. rewrite Hp. exact Hlen.
    + exists (drop n sorted). split; [rewrite Hsplit; exact Hp|].
      intros x y Hx Hy. rewrite <- Hsplit in Hs.
      eapply StronglySorted_app_1_elem_of; eassumption.
Qed.

End LimitedSorted.

#[global] Instance updated_desc_trans : Transitive updated_desc.
Proof. intros a b c Hab Hbc. unfold updated_desc in *. eapply string_leb_trans; eassumption. Qed.

#[global] Instance updated_desc_total : Total updated_desc.
Proof. intros a b. unfold updated_desc. destruct (String.leb_total (updated_at a) (updated_at b)); auto. Qed.

#[global] Instance failed_desc_trans : Transitive failed_desc.
Proof. intros a b c Hab Hbc. unfold failed_desc in *. eapply string_leb_trans; eassumption. Qed.

#[global] Instance failed_desc_total : Total failed_desc.
Proof. intros a b. unfold failed_desc. destruct (String.leb_total (failed_at a) (failed_at b)); auto. Qed.

Lemma state_filter_elem (st : option string) (js : list job) (r : job) :
  r ∈ state_filter st js ->
  r ∈ js /\ forall v, st = Some v -> v <> "" -> v <> "all" -> state r = v.
Proof.
  unfold state_filter. destruct st as [v|].
  - destruct (String.eqb v "") eqn:E1.
    + apply String.eqb_eq in E1. intros Hr. split; [exact Hr|]. intros ? [= <-]. congruence.
    + destruct (String.eqb v "all") eqn:E2.
      * apply String.eqb_eq in E2. intros Hr. split; [exact Hr|]. intros ? [= <-]. congruence.
      * intros Hr. apply list_elem_of_filter in Hr as [Hst Hr].
        split; [exact Hr|]. intros ? [= <-] _ _. exact Hst.
  - intros Hr. split; [exact Hr|]. discriminate.
Qed.

(** X8: [list_jobs] returns rows of [jobs] in descending [updated_at]; with
    a state other than the empty string and ["all"] every returned row has
    that state, while [None], [""] and ["all"] do not filter; a
    non-negative limit bounds the length and a negative one does not; and
    the rows cut off by the limit are none of them more recently updated
    than a returned row. *)
Theorem list_jobs_spec (st : option string) (limit : Z) (s : store) :
  let out := list_jobs st limit s in
  StronglySorted updated_desc out /\
  (forall r, r ∈ out -> r ∈ jobs s) /\
  (forall v r, st = Some v -> v <> "" -> v <> "all" -> r ∈ out -> state r = v) /\
  (st = None \/ st = Some "" \/ st = Some "all" -> state_filter st (jobs s) = jobs s) /\
  (0 <= limit -> (length out <= Z.to_nat limit)%nat) /\
  (limit < 0 -> out ≡ₚ state_filter st (jobs s)) /\
  exists rest,
    (out ++ rest)%list ≡ₚ state_filter st (jobs s) /\
    forall x y, x ∈ out -> y ∈ rest ->
      String.leb (updated_at y) (updated_at x) = true.
Proof.
  destruct (sql_limit_merge_sort updated_desc limit (state_filter st (jobs s)))
    as (Hs & Hin & Hlen & Hall & rest & Hperm & Hrest).
  unfold list_jobs. simpl. repeat split.
  - exact Hs.
  - intros r Hr. apply Hin in Hr. apply state_filter_elem in Hr as [Hr _]. exact Hr.
  - intros v r Hst Hv1 Hv2 Hr. apply Hin in Hr.
    apply state_filter_elem in Hr as [_ Hr]. apply (Hr v); assumption.
  - intros [->|[->| ->]]; reflexivity.
  - exact Hlen.
  - intros Hneg. apply Hall. left. exact Hneg.
  - exists rest. split; [exact Hperm|]. exact Hrest.
Qed.

(** X9: [list_dlq] returns DLQ records in descending [failed_at], at most
    [limit] of them for a non-negative limit and all of them for a
    negative one, and no record cut off failed later than a returned one. *)
Theorem list_dlq_spec (limit : Z) (s : store) :
  let out := list_dlq limit s in
  StronglySorted failed_desc out /\
  (forall d, d ∈ out -> d ∈ dlq s) /\
  (0 <= limit -> (length out <= Z.to_nat limit)%nat) /\
  (limit < 0 \/ (length (dlq s) <= Z.to_nat limit)%nat -> out ≡ₚ dlq s) /\
  exists rest,
    (out ++ rest)%list ≡ₚ dlq s /\
    forall x y, x ∈ out -> y ∈ rest ->
      String.leb (failed_at y) (failed_at x) = true.
Proof.
  destruct (sql_limit_merge_sort failed_desc limit (dlq s))
    as (Hs & Hin & Hlen & Hall & rest & Hperm & Hrest).
  unfold list_dlq. simpl. repeat split; try assumption.
  exists rest. split; [exact Hperm|]. exact Hrest.
Qed.

(** ** Statistics *)

Lemma sum_counts_bump (m : gmap string Z) (k : string) :
  sum_counts (<[k := default 0 (m !! k) + 1]> m) = sum_counts m + 1.
Proof.
  unfold sum_counts. destruct (m !! k) as [x|] eqn:E; simpl.
  - rewrite <- insert_delete_eq.
    rewrite map_fold_insert_L; [| intros; lia | apply lookup_delete_eq].
    rewrite (map_fold_delete_L _ _ k x m); [lia | intros; lia | exact E].
  - rewrite map_fold_insert_L; [lia | intros; lia | exact E].
Qed.

Lemma count_by_state_total (js : list job) :
  sum_counts (count_by_state js) = Z.of_nat (length js).
Proof.
  induction js as [|r js IH]; simpl.
  - unfold sum_counts. rewrite map_fold_empty. reflexivity.
  - rewrite sum_counts_bump, IH. lia.
Qed.

Lemma count_by_state_lookup (js : list job) (st : string) :
  count_by_state js !! st =
  let n := Z.of_nat (length (filter (fun r => state r = st) js)) in
  if n =? 0 then None else Some n.
Proof.
  induction js as [|r js IH]; simpl.
  - reflexivity.
  - rewrite filter_cons. destruct (decide (state r = st)) as [E|E].
    + subst st. rewrite lookup_insert_eq, IH. simpl.
      destruct (length (filter _ js)) as [|n] eqn:El; simpl.
      * reflexivity.
      * f_equal. lia.
    + rewrite lookup_insert_ne by exact E. exact IH.
Qed.

(** X10: in the dict returned by [stats], [total] is the number of rows of
    [jobs]; a state is a key of [states] exactly when some job is in it,
    and its value is the number of those jobs; [dlq] and [workers] are the
    sizes of their tables. *)
Theorem stats_counts (s : store) :
  st_total (stats s) = Z.of_nat (length (jobs s)) /\
  (forall st,
     st_states (stats s) !! st =
     let n := Z.of_nat (length (filter (fun r => state r = st) (jobs s))) in
     if n =? 0 then None else Some n) /\
  (forall st n, st_states (stats s) !! st = Some n ->
     0 < n /\ exists r, r ∈ jobs s /\ state r = st) /\
  st_dlq (stats s) = Z.of_nat (length (dlq s)) /\
  st_workers (stats s) = Z.of_nat (size (workers s)).
Proof.
  unfold stats. simpl. repeat split.
  - apply count_by_state_total.
  - intros st. apply count_by_state_lookup.
  - rewrite count_by_state_lookup in H. simpl in H.
    destruct (Z.of_nat (length (filter (fun r => state r = st) (jobs s))) =? 0) eqn:E;
      [discriminate|]. inversion H. apply Z.eqb_neq in E. lia.
  - rewrite count_by_state_lookup in H. simpl in H.
    destruct (filter (fun r => state r = st) (jobs s)) as [|r l] eqn:E;
      [discriminate|].
    assert (Hr : r ∈ filter (fun r => state r = st) (jobs s)) by (rewrite E; left).
    apply list_elem_of_filter in Hr as [Hst Hr]. exists r. auto.
Qed.

(** * Further properties of the worker *)

(** ** One pass of the loop *)

Lemma get_job_update_other (f : job -> job) (jid k : string) (s : store) :
  (forall r, id (f r) = id r) -> k <> jid ->
  get_job k (with_jobs (update_where f jid (jobs s)) s) = get_job k s.
Proof.
  intros Hf Hk. unfold get_job. simpl. rewrite find_update_where by exact Hf.
  apply String.eqb_neq in Hk. rewrite Hk. reflexivity.
Qed.

Lemma get_job_update_same (f : job -> job) (jid : string) (s : store) :
  (forall r, id (f r) = id r) ->
  get_job jid (with_jobs (update_where f jid (jobs s)) s) = option_map f (get_job jid s).
Proof.
  intros Hf. unfold get_job. simpl. rewrite find_update_where by exact Hf.
  rewrite String.eqb_refl. reflexivity.
Qed.

Lemma pop_claims (now : Q) (now_iso : string) (s : store) (j : job) :
  unique_ids s ->
  select_claimable now (jobs s) = Some j ->
  j ∈ jobs s /\ state j = "pending" /\ get_job (id j) s = Some j /\
  pop_pending_for_run now now_iso s =
    (Some j, with_jobs (update_where (set_processing now_iso) (id j) (jobs s)) s).
Proof.
  intros Hu Hsel. unfold pop_pending_for_run. rewrite Hsel.
  apply select_claimable_some in Hsel as (Hin & Hel & _).
  apply eligible_iff in Hel as [Hst _].
  repeat split; try assumption. apply find_id_unique; assumption.
Qed.

(** X11: when the claim query selects [j] and its command exits with 0,
    the pass leaves no fault, the job is stored as [completed] with eta
    null and its attempts, retry budget and command unchanged, every other
    job is as before and nothing is added to the DLQ. *)
Theorem worker_iteration_completes (py_float : string -> result Q)
    (claim_now now : Q) (claim_iso iso1 iso2 : string) (s : store) (j : job) :
  unique_ids s ->
  select_claimable claim_now (jobs s) = Some j ->
  exists s',
    worker_iteration py_float claim_now claim_iso (Exited 0) now iso1 iso2 s = (None, s') /\
    get_job (id j) s' =
      Some (Job (id j) (command j) "completed" (attempts j) (max_retries j) None
                (created_at j) iso1) /\
    (forall k, k <> id j -> get_job k s' = get_job k s) /\
    dlq s' = dlq s.
Proof.
  intros Hu Hsel. destruct (pop_claims claim_now claim_iso s j Hu Hsel) as (_ & _ & Hget & Hpop).
  unfold worker_iteration. rewrite Hpop. simpl.
  eexists. split; [reflexivity|]. split; [|split].
  - unfold mark_completed. rewrite get_job_update_same by reflexivity.
    rewrite get_job_update_same by reflexivity. rewrite Hget. reflexivity.
  - intros k Hk. unfold mark_completed.
    rewrite get_job_update_other by (try reflexivity; exact Hk).
    apply get_job_update_other; [reflexivity|exact Hk].
  - reflexivity.
Qed.

(** A failed execution whose incremented attempts are within the budget,
    with a base that parses and a delay that is computed, takes the retry
    branch, whichever of the three failure branches it is. *)
Lemma run_claimed_retry (py_float : string -> result Q) (j : job) (out : outcome)
    (now base delay : Q) (iso1 iso2 v : string) (s : store) :
  is_failure out = true ->
  attempts j + 1 <= max_retries j ->
  config_get "backoff_base" (Some "2") s = Some v ->
  py_float v = Ok base ->
  compute_delay base (attempts j + 1) = Ok delay ->
  run_claimed py_float j out now iso1 iso2 s =
    Ok (mark_failed_retry (id j) (attempts j + 1) delay now iso1 s).
Proof.
  intros Hfail Hle Hcfg Hparse Hdelay.
  assert (Hretry : forall err,
    retry_or_dead py_float j (attempts j + 1) err now iso1 iso2 s =
    Ok (mark_failed_retry (id j) (attempts j + 1) delay now iso1 s)).
  { intros err. unfold retry_or_dead.
    destruct (attempts j + 1 >? max_retries j) eqn:E.
    - rewrite Z.gtb_ltb, Z.ltb_lt in E. lia.
    - rewrite Hcfg, Hparse, Hdelay. reflexivity. }
  unfold run_claimed. destruct out as [rc|msg|name msg]; simpl in Hfail.
  - destruct (rc =? 0); [discriminate|]. rewrite Hretry. reflexivity.
  - apply Hretry.
  - apply Hretry.
Qed.

(** X12: when the claimed job's command fails, the incremented attempts
    are within [max_retries], [backoff_base] parses and
    [compute_delay base attempts] returns [delay], the pass stores the job
    as [failed] with attempts one higher and eta = the float sum of the
    failure time and [delay]; the DLQ is untouched, and the stored row does
    not satisfy the claim query at any later time. *)
Theorem worker_iteration_parks_failed (py_float : string -> result Q)
    (claim_now now base delay : Q) (claim_iso iso1 iso2 v : string) (out : outcome)
    (s : store) (j : job) :
  unique_ids s ->
  select_claimable claim_now (jobs s) = Some j ->
  is_failure out = true ->
  attempts j + 1 <= max_retries j ->
  config_get "backoff_base" (Some "2") s = Some v ->
  py_float v = Ok base ->
  compute_delay base (attempts j + 1) = Ok delay ->
  exists s' row,
    worker_iteration py_float claim_now claim_iso out now iso1 iso2 s = (None, s') /\
    get_job (id j) s' = Some row /\
    row = Job (id j) (command j) "failed" (attempts j + 1) (max_retries j)
              (Some (float_add now delay)) (created_at j) iso1 /\
    (forall t, eligible t row = false) /\
    (forall t, select_claimable t (jobs s') <> Some row) /\
    (forall k, k <> id j -> get_job k s' = get_job k s) /\
    dlq s' = dlq s.
Proof.
  intros Hu Hsel Hfail Hle Hcfg Hparse Hdelay.
  destruct (pop_claims claim_now claim_iso s j Hu Hsel) as (_ & _ & Hget & Hpop).
  set (s1 := with_jobs (update_where (set_processing claim_iso) (id j) (jobs s)) s) in *.
  assert (Hrun : run_claimed py_float j out now iso1 iso2 s1 =
    Ok (mark_failed_retry (id j) (attempts j + 1) delay now iso1 s1)).
  { eapply run_claimed_retry; eassumption. }
  unfold worker_iteration. rewrite Hpop, Hrun.
  eexists. eexists. split; [reflexivity|].
  assert (Hrow : get_job (id j)
      (mark_failed_retry (id j) (attempts j + 1) delay now iso1 s1) =
    Some (Job (id j) (command j) "failed" (attempts j + 1) (max_retries j)
              (Some (float_add now delay)) (created_at j) iso1)).
  { unfold mark_failed_retry. rewrite get_job_update_same by reflexivity.
    unfold s1. rewrite get_job_update_same by reflexivity. rewrite Hget. reflexivity. }
  split; [exact Hrow|]. split; [reflexivity|]. split; [reflexivity|].
  split; [|split].
  - intros t Hs. apply select_claimable_some in Hs as (_ & He & _). discriminate.
  - intros k Hk. unfold mark_failed_retry.
    rewrite get_job_update_other by (try reflexivity; exact Hk).
    apply get_job_update_other; [reflexivity|exact Hk].
  - reflexivity.
Qed.

(** X13: an unparsable [backoff_base] turns one failed exit into two
    increments.  The [ValueError] of [float()] is raised inside the [try]
    and caught by [except Exception], which adds one more to attempts: if
    that exceeds [max_retries] the job is dead-lettered one failure early,
    with the parse error as [last_error]; otherwise the handler raises
    again, the fault leaves the loop, and the job stays in state
    [processing]. *)
Theorem worker_iteration_bad_backoff (py_float : string -> result Q)
    (claim_now now : Q) (claim_iso iso1 iso2 v : string) (rc : Z) (e : fault)
    (s : store) (j : job) :
  unique_ids s ->
  select_claimable claim_now (jobs s) = Some j ->
  rc <> 0 ->
  attempts j + 1 <= max_retries j ->
  config_get "backoff_base" (Some "2") s = Some v ->
  py_float v = Raise e ->
  let s1 := with_jobs (update_where (set_processing claim_iso) (id j) (jobs s)) s in
  (attempts j + 1 = max_retries j ->
     worker_iteration py_float claim_now claim_iso (Exited rc) now iso1 iso2 s =
       (None, move_to_dlq j (fault_name e ++ ": " ++ fault_msg e) iso1 iso2 s1) /\
     exists row,
       get_job (id j) (move_to_dlq j (fault_name e ++ ": " ++ fault_msg e) iso1 iso2 s1)
         = Some row /\
       state row = "dead" /\ attempts row = attempts j) /\
  (attempts j + 1 < max_retries j ->
     worker_iteration py_float claim_now claim_iso (Exited rc) now iso1 iso2 s =
       (Some e, s1) /\
     exists row,
       get_job (id j) s1 = Some row /\ state row = "processing" /\
       forall t, eligible t row = false).
Proof.
  intros Hu Hsel Hrc Hle Hcfg Hparse s1.
  destruct (pop_claims claim_now claim_iso s j Hu Hsel) as (_ & _ & Hget & Hpop).
  assert (Hfirst : forall err,
    retry_or_dead py_float j (attempts j + 1) err now iso1 iso2 s1 = Raise e).
  { intros err. unfold retry_or_dead.
    destruct (attempts j + 1 >? max_retries j) eqn:E.
    - rewrite Z.gtb_ltb, Z.ltb_lt in E. lia.
    - change (config_get "backoff_base" (Some "2") s1)
        with (config_get "backoff_base" (Some "2") s).
      rewrite Hcfg, Hparse. reflexivity. }
  apply Z.eqb_neq in Hrc.
  split.
  - intros Heq. split.
    + unfold worker_iteration. rewrite Hpop. fold s1. unfold run_claimed.
      rewrite Hrc, Hfirst. unfold retry_or_dead.
      destruct (attempts j + 1 + 1 >? max_retries j) eqn:E; [reflexivity|].
      rewrite Z.gtb_ltb, Z.ltb_ge in E. lia.
    + eexists. rewrite get_job_move_to_dlq, String.eqb_refl.
      unfold s1. rewrite get_job_update_same by reflexivity. rewrite Hget.
      split; [reflexivity|]. split; reflexivity.
  - intros Hlt. split.
    + unfold worker_iteration. rewrite Hpop. fold s1. unfold run_claimed.
      rewrite Hrc, Hfirst. unfold retry_or_dead.
      destruct (attempts j + 1 + 1 >? max_retries j) eqn:E.
      * rewrite Z.gtb_ltb, Z.ltb_lt in E. lia.
      * change (config_get "backoff_base" (Some "2") s1)
          with (config_get "backoff_base" (Some "2") s).
        rewrite Hcfg, Hparse. reflexivity.
    + eexists. unfold s1. rewrite get_job_update_same by reflexivity. rewrite Hget.
      split; [reflexivity|]. split; reflexivity.
Qed.

(** X23: a backoff delay that overflows turns one failed exit into two
    increments, like an unparsable base.  [compute_delay] raises
    [OverflowError] inside the [try]; [except Exception] catches it and
    adds one more to attempts: if that exceeds [max_retries] the job is
    dead-lettered one failure early with the overflow as [last_error];
    otherwise the handler computes the delay for the higher count, and when
    that overflows too the fault leaves the loop and the job stays in state
    [processing].  After a launch failure the overflow is raised inside a
    handler and leaves the loop at once. *)
Theorem worker_iteration_delay_overflow (py_float : string -> result Q)
    (claim_now now base : Q) (claim_iso iso1 iso2 v : string) (rc : Z) (e : fault)
    (s : store) (j : job) :
  unique_ids s ->
  select_claimable claim_now (jobs s) = Some j ->
  rc <> 0 ->
  attempts j + 1 <= max_retries j ->
  config_get "backoff_base" (Some "2") s = Some v ->
  py_float v = Ok base ->
  compute_delay base (attempts j + 1) = Raise e ->
  let s1 := with_jobs (update_where (set_processing claim_iso) (id j) (jobs s)) s in
  (attempts j + 1 = max_retries j ->
     worker_iteration py_float claim_now claim_iso (Exited rc) now iso1 iso2 s =
       (None, move_to_dlq j (fault_name e ++ ": " ++ fault_msg e) iso1 iso2 s1) /\
     exists row,
       get_job (id j) (move_to_dlq j (fault_name e ++ ": " ++ fault_msg e) iso1 iso2 s1)
         = Some row /\
       state row = "dead" /\ attempts row = attempts j) /\
  (attempts j + 1 < max_retries j ->
     forall e', compute_delay base (attempts j + 1 + 1) = Raise e' ->
     worker_iteration py_float claim_now claim_iso (Exited rc) now iso1 iso2 s =
       (Some e', s1) /\
     exists row,
       get_job (id j) s1 = Some row /\ state row = "processing" /\
       forall t, eligible t row = false) /\
  (forall msg,
     worker_iteration py_float claim_now claim_iso (FileNotFound msg) now iso1 iso2 s =
       (Some e, s1)).
Proof.
  intros Hu Hsel Hrc Hle Hcfg Hparse Hover s1.
  destruct (pop_claims claim_now claim_iso s j Hu Hsel) as (_ & _ & Hget & Hpop).
  assert (Hcfg1 : config_get "backoff_base" (Some "2") s1 = Some v) by exact Hcfg.
  assert (Hfirst : forall err,
    retry_or_dead py_float j (attempts j + 1) err now iso1 iso2 s1 = Raise e).
  { intros err. unfold retry_or_dead.
    destruct (attempts j + 1 >? max_retries j) eqn:E.
    - rewrite Z.gtb_ltb, Z.ltb_lt in E. lia.
    - rewrite Hcfg1, Hparse, Hover. reflexivity. }
  apply Z.eqb_neq in Hrc.
  split; [|split].
  - intros Heq. split.
    + unfold worker_iteration. rewrite Hpop. fold s1. unfold run_claimed.
      rewrite Hrc, Hfirst. unfold retry_or_dead.
      destruct (attempts j + 1 + 1 >? max_retries j) eqn:E; [reflexivity|].
      rewrite Z.gtb_ltb, Z.ltb_ge in E. lia.
    + eexists. rewrite get_job_move_to_dlq, String.eqb_refl.
      unfold s1. rewrite get_job_update_same by reflexivity. rewrite Hget.
      split; [reflexivity|]. split; reflexivity.
  - intros Hlt e' Hover'. split.
    + unfold worker_iteration. rewrite Hpop. fold s1. unfold run_claimed.
      rewrite Hrc, Hfirst. unfold retry_or_dead.
      destruct (attempts j + 1 + 1 >? max_retries j) eqn:E.
      * rewrite Z.gtb_ltb, Z.ltb_lt in E. lia.
      * rewrite Hcfg1, Hparse, Hover'. reflexivity.
    + eexists. unfold s1. rewrite get_job_update_same by reflexivity. rewrite Hget.
      split; [reflexivity|]. split; reflexivity.
  - intros msg. unfold worker_iteration. rewrite Hpop. fold s1. unfold run_claimed.
    rewrite Hfirst. reflexivity.
Qed.

(** X14: claims come in the order of the claim query.  If two successive
    claims return [j1] and then [j2], and [j2] was already claimable when
    [j1] was taken, then [j1] does not come after [j2]: [j1] has no eta if
    [j2] has none, and within the same group [j1] was created no later. *)
Theorem successive_claims_in_order (n1 n2 : Q) (i1 i2 : string)
    (s s1 s2 : store) (j1 j2 : job) :
  pop_pending_for_run n1 i1 s = (Some j1, s1) ->
  pop_pending_for_run n2 i2 s1 = (Some j2, s2) ->
  eligible n1 j2 = true ->
  j2 ∈ jobs s /\
  (eta j2 = None -> eta j1 = None) /\
  ((eta j1 = None <-> eta j2 = None) ->
     String.leb (created_at j1) (created_at j2) = true).
Proof.
  unfold pop_pending_for_run. intros H1 H2 Hel.
  destruct (select_claimable n1 (jobs s)) as [x|] eqn:E1; [|discriminate].
  inversion H1; subst x s1; clear H1.
  destruct (select_claimable n2 _) as [y|] eqn:E2; [|discriminate].
  inversion H2; subst y s2; clear H2.
  apply select_claimable_some in E1 as (_ & _ & Hmin).
  apply select_claimable_some in E2 as (Hin2 & Hel2 & _).
  apply eligible_iff in Hel2 as [Hst2 _].
  simpl in Hin2. unfold update_where in Hin2.
  apply list_elem_of_fmap in Hin2 as (x & Hx & Hxin).
  assert (Hj2 : j2 ∈ jobs s).
  { destruct (String.eqb (id x) (id j1)).
    - subst j2. simpl in Hst2. discriminate.
    - subst j2. exact Hxin. }
  specialize (Hmin j2 Hj2 Hel). unfold claim_order in Hmin.
  split; [exact Hj2|]. split.
  - intros Hn. rewrite Hn in Hmin. destruct (eta j1); [discriminate|reflexivity].
  - intros Hgrp. destruct (eta j1), (eta j2); try assumption.
    + destruct Hgrp as [_ Hg]. specialize (Hg eq_refl). discriminate.
    + destruct Hgrp as [Hg _]. specialize (Hg eq_refl). discriminate.
Qed.

(** ** Invariants of the tables *)

Lemma dlq_of_elem (k : string) (s : store) (d : dlq_record) :
  d ∈ dlq s -> job_id d = k -> dlq_of k s <> [].
Proof.
  intros Hd Hk Hnil.
  assert (H : d ∈ dlq_of k s).
  { unfold dlq_of. apply list_elem_of_filter. split; [|exact Hd].
    apply String.eqb_eq. exact Hk. }
  rewrite Hnil in H. inversion H.
Qed.

Lemma dlq_of_nil_elem (k : string) (s : store) (d : dlq_record) :
  dlq_of k s = [] -> d ∈ dlq s -> job_id d <> k.
Proof. intros Hnil Hd Hk. exact (dlq_of_elem k s d Hd Hk Hnil). Qed.

Lemma no_record_of_live (s : store) (k : string) (r : job) :
  dlq_jobs_dead s -> get_job k s = Some r -> state r <> "dead" -> dlq_of k s = [].
Proof.
  intros Hdead Hget Hst.
  apply find_some_elem in Hget as [Hin Hid].
  destruct (dlq_of k s) as [|d l] eqn:E; [reflexivity|].
  assert (Hd : d ∈ dlq_of k s) by (rewrite E; left).
  unfold dlq_of in Hd. apply list_elem_of_filter in Hd as [Hk Hd].
  apply String.eqb_eq in Hk. exfalso. apply Hst.
  apply (Hdead d r Hd Hin). congruence.
Qed.

Lemma dlq_find_iff' (jid : string) (s : store) (d : dlq_record) :
  find (fun x => String.eqb (job_id x) jid) (dlq s) = Some d -> dlq_of jid s <> [].
Proof.
  intros Hfind Hnil. apply dlq_of_nil_find in Hnil. congruence.
Qed.

Lemma store_ok_update (f : job -> job) (jid : string) (s : store) :
  (forall r, id (f r) = id r) ->
  dlq_of jid s = [] ->
  store_ok s -> store_ok (with_jobs (update_where f jid (jobs s)) s).
Proof.
  intros Hf Hnil (Hu & Hk & Hd & Hn). repeat split.
  - unfold unique_ids. simpl. rewrite update_where_ids by exact Hf. exact Hu.
  - apply dlq_ids_known_update; assumption.
  - intros d r' Hdin Hr' Hid. simpl in Hdin, Hr'. unfold update_where in Hr'.
    apply list_elem_of_fmap in Hr' as (r & -> & Hr).
    destruct (String.eqb (id r) jid) eqn:E.
    + apply String.eqb_eq in E. rewrite Hf in Hid.
      exfalso. apply (dlq_of_nil_elem jid s d Hnil Hdin). congruence.
    + apply (Hd d r Hdin Hr Hid).
  - exact Hn.
Qed.

Lemma store_ok_move (j : job) (err i1 i2 : string) (s : store) :
  id j ∈ map id (jobs s) ->
  dlq_of (id j) s = [] ->
  store_ok s -> store_ok (move_to_dlq j err i1 i2 s).
Proof.
  intros Hj Hnil (Hu & Hk & Hd & Hn). repeat split.
  - unfold unique_ids. simpl. rewrite update_where_ids by reflexivity. exact Hu.
  - apply dlq_ids_known_move; assumption.
  - intros d r' Hdin Hr' Hid. simpl in Hdin, Hr'. unfold update_where in Hr'.
    apply list_elem_of_fmap in Hr' as (r & -> & Hr).
    destruct (String.eqb (id r) (id j)) eqn:E; [reflexivity|].
    apply elem_of_app in Hdin as [Hdin|Hdin].
    + apply (Hd d r Hdin Hr Hid).
    + apply list_elem_of_singleton in Hdin. subst d. simpl in Hid.
      apply String.eqb_neq in E. contradiction.
  - simpl. rewrite map_app. simpl. apply NoDup_app.
    repeat split; [exact Hn| |apply NoDup_singleton].
    intros x Hx Hx'. apply list_elem_of_singleton in Hx'. subst x.
    apply list_elem_of_fmap in Hx as (d & Hdid & Hdin).
    apply (dlq_of_nil_elem (id j) s d Hnil Hdin). congruence.
Qed.

Lemma store_ok_retry (jid now_iso : string) (s : store) :
  store_ok s -> store_ok (snd (retry_from_dlq jid now_iso s)).
Proof.
  intros (Hu & Hk & Hd & Hn). unfold retry_from_dlq.
  destruct (find _ (dlq s)) as [found|]; [|repeat split; assumption].
  simpl. repeat split.
  - unfold unique_ids. simpl. rewrite update_where_ids by reflexivity. exact Hu.
  - unfold dlq_ids_known in *. simpl. rewrite update_where_ids by reflexivity.
    rewrite Forall_forall in *. intros x Hx.
    apply list_elem_of_filter in Hx as [_ Hx]. auto.
  - intros d r' Hdin Hr' Hid. simpl in Hdin, Hr'.
    apply list_elem_of_filter in Hdin as [Hne Hdin].
    unfold update_where in Hr'. apply list_elem_of_fmap in Hr' as (r & -> & Hr).
    destruct (String.eqb (id r) jid) eqn:E.
    + apply String.eqb_eq in E. simpl in Hid. apply String.eqb_neq in Hne. congruence.
    + apply (Hd d r Hdin Hr Hid).
  - simpl. apply NoDup_map_filter. exact Hn.
Qed.

Lemma store_ok_enqueue (d : job_dict) (now_iso : string) (s : store) :
  store_ok s -> store_ok (snd (enqueue d now_iso s)).
Proof.
  intros Hok. pose proof Hok as (Hu & Hk & Hd & Hn). unfold enqueue.
  destruct (d_id d) as [jid|]; [|exact Hok].
  destruct (d_command d) as [cmd|]; [|exact Hok].
  destruct (has_id jid (jobs s)) eqn:E; [exact Hok|].
  apply has_id_false in E. simpl. repeat split.
  - unfold unique_ids. simpl. rewrite map_app. simpl.
    apply NoDup_app. repeat split; [exact Hu| |apply NoDup_singleton].
    intros x Hx Hx'. apply list_elem_of_singleton in Hx'. subst x. contradiction.
  - unfold dlq_ids_known in *. simpl. eapply Forall_impl; [exact Hk|].
    intros x Hx. simpl in Hx. rewrite map_app. apply elem_of_app. left. exact Hx.
  - intros x r Hx Hr Hid. simpl in Hx, Hr.
    apply elem_of_app in Hr as [Hr|Hr]; [apply (Hd x r Hx Hr Hid)|].
    apply list_elem_of_singleton in Hr. subst r. simpl in Hid.
    unfold dlq_ids_known in Hk. rewrite Forall_forall in Hk.
    specialize (Hk x Hx). simpl in Hk. rewrite <- Hid in Hk. contradiction.
  - exact Hn.
Qed.

Lemma store_ok_pop (now : Q) (now_iso : string) (s : store) :
  store_ok s -> store_ok (snd (pop_pending_for_run now now_iso s)).
Proof.
  intros Hok. pose proof Hok as (Hu & _ & Hd & _).
  destruct (select_claimable now (jobs s)) as [j|] eqn:Hsel.
  - destruct (pop_claims now now_iso s j Hu Hsel) as (_ & Hst & Hget & ->). simpl.
    apply store_ok_update; [reflexivity| |exact Hok].
    apply (no_record_of_live s (id j) j Hd Hget). rewrite Hst. discriminate.
  - unfold pop_pending_for_run. rewrite Hsel. exact Hok.
Qed.

Section WorkerInvariants.

Variable py_float : string -> result Q.

Lemma store_ok_run_claimed (j r : job) (out : outcome) (now : Q)
    (iso1 iso2 : string) (s s' : store) :
  store_ok s ->
  get_job (id j) s = Some r -> state r <> "dead" ->
  run_claimed py_float j out now iso1 iso2 s = Ok s' ->
  store_ok s'.
Proof.
  intros Hok Hget Hst Hrun. pose proof Hok as (_ & _ & Hd & _).
  pose proof (no_record_of_live s (id j) r Hd Hget Hst) as Hnil.
  apply run_claimed_cases in Hrun as [->|[(n & dl & ->)|(err & ->)]].
  - apply store_ok_update; [reflexivity|exact Hnil|exact Hok].
  - apply store_ok_update; [reflexivity|exact Hnil|exact Hok].
  - apply store_ok_move; [|exact Hnil|exact Hok].
    apply find_some_elem in Hget as [Hin Hid].
    apply list_elem_of_fmap. exists r. auto.
Qed.

Lemma get_job_run_claimed_other (j : job) (out : outcome) (now : Q)
    (iso1 iso2 k : string) (s s' : store) :
  run_claimed py_float j out now iso1 iso2 s = Ok s' ->
  k <> id j -> get_job k s' = get_job k s.
Proof.
  intros Hrun Hk.
  apply run_claimed_cases in Hrun as [->|[(n & dl & ->)|(err & ->)]].
  - apply get_job_update_other; [reflexivity|exact Hk].
  - apply get_job_update_other; [reflexivity|exact Hk].
  - rewrite get_job_move_to_dlq. apply String.eqb_neq in Hk. rewrite Hk. reflexivity.
Qed.

Lemma store_ok_apply_op (o : op) (s : store) :
  not_delete o -> store_ok s -> store_ok (apply_op py_float o s).
Proof.
  intros Hnd Hok. destruct o; simpl; try exact Hok; try contradiction.
  - apply store_ok_enqueue. exact Hok.
  - unfold worker_iteration.
    pose proof (store_ok_pop claim_now claim_iso s Hok) as Hpop.
    pose proof Hok as (Hu & _).
    destruct (select_claimable claim_now (jobs s)) as [j|] eqn:Hsel.
    + destruct (pop_claims claim_now claim_iso s j Hu Hsel) as (_ & _ & Hget & E).
      rewrite E in *. simpl in Hpop.
      destruct (run_claimed py_float j out now iso1 iso2 _) as [s2|e] eqn:Hrun;
        [|exact Hpop].
      simpl. eapply store_ok_run_claimed; [exact Hpop| | |exact Hrun].
      * rewrite get_job_update_same by reflexivity. rewrite Hget. reflexivity.
      * discriminate.
    + unfold pop_pending_for_run in *. rewrite Hsel in *. exact Hok.
  - apply store_ok_retry. exact Hok.
Qed.

Lemma store_ok_run_ops (ops : list op) (s : store) :
  Forall not_delete ops -> store_ok s -> store_ok (run_ops py_float ops s).
Proof.
  unfold run_ops. revert s. induction ops as [|o ops IH]; simpl; intros s Hnd Hok.
  - exact Hok.
  - apply Forall_cons in Hnd as [Ho Hnd]. apply IH; [exact Hnd|].
    apply store_ok_apply_op; assumption.
Qed.

(** A row that is neither pending nor dead is out of reach of every call. *)
Lemma frozen_pop (now : Q) (now_iso jid : string) (s : store) (r : job) :
  unique_ids s ->
  get_job jid s = Some r -> state r <> "pending" ->
  get_job jid (snd (pop_pending_for_run now now_iso s)) = Some r /\
  forall j, fst (pop_pending_for_run now now_iso s) = Some j -> id j <> jid.
Proof.
  intros Hu Hget Hst.
  destruct (select_claimable now (jobs s)) as [j|] eqn:Hsel.
  - destruct (pop_claims now now_iso s j Hu Hsel) as (_ & Hjst & Hjget & ->). simpl.
    assert (Hne : id j <> jid).
    { intros E. rewrite E in Hjget. congruence. }
    split.
    + rewrite get_job_update_other; [exact Hget|reflexivity|congruence].
    + intros j' [= <-]. exact Hne.
  - unfold pop_pending_for_run. rewrite Hsel. simpl. split; [exact Hget|discriminate].
Qed.

Lemma frozen_apply_op (o : op) (jid : string) (s : store) (r : job) :
  not_delete o -> store_ok s ->
  get_job jid s = Some r -> state r <> "pending" -> state r <> "dead" ->
  get_job jid (apply_op py_float o s) = Some r.
Proof.
  intros Hnd Hok Hget Hp Hdd. pose proof Hok as (Hu & _ & Hdead & _).
  destruct o; simpl; try exact Hget; try contradiction.
  - destruct (enqueue d now_iso s) as [[k|e] s0] eqn:E; simpl.
    + destruct (get_job_enqueued d now_iso k s s0 E) as (cmd & Hk & _).
      unfold enqueue in E. destruct (d_id d) as [i|]; [|discriminate].
      destruct (d_command d); [|discriminate].
      destruct (has_id i (jobs s)) eqn:Hhas; [discriminate|].
      inversion E. subst. unfold get_job. simpl.
      rewrite find_app_other; [exact Hget|]. simpl. intros ->.
      apply find_none_has_id in Hhas. unfold get_job in Hget. congruence.
    + apply enqueue_no_mutation_on_fault in E. subst s0. exact Hget.
  - unfold worker_iteration.
    destruct (frozen_pop claim_now claim_iso jid s r Hu Hget Hp) as [Hpop Hne].
    destruct (pop_pending_for_run claim_now claim_iso s) as [[j|] s1]; simpl in *;
      [|exact Hpop].
    specialize (Hne j eq_refl).
    destruct (run_claimed py_float j out now iso1 iso2 s1) as [s2|e] eqn:Hrun;
      [|exact Hpop].
    simpl. rewrite (get_job_run_claimed_other j out now iso1 iso2 jid s1 s2 Hrun);
      [exact Hpop|congruence].
  - unfold retry_from_dlq.
    destruct (find (fun x => String.eqb (job_id x) jid0) (dlq s)) as [rec0|] eqn:Hfind;
      [|exact Hget].
    simpl. destruct (String.eqb jid jid0) eqn:E.
    + apply String.eqb_eq in E. subst jid0. exfalso.
      apply dlq_find_iff' in Hfind.
      apply Hfind. apply (no_record_of_live s jid r Hdead Hget Hdd).
    + apply String.eqb_neq in E.
      change (get_job jid (with_jobs (update_where (set_pending now_iso) jid0 (jobs s)) s)
              = Some r).
      rewrite get_job_update_other; [exact Hget|reflexivity|exact E].
Qed.

Lemma frozen_run_ops (ops : list op) (jid : string) (s : store) (r : job) :
  Forall not_delete ops -> store_ok s ->
  get_job jid s = Some r -> state r <> "pending" -> state r <> "dead" ->
  get_job jid (run_ops py_float ops s) = Some r.
Proof.
  unfold run_ops. revert s. induction ops as [|o ops IH]; simpl; intros s Hnd Hok Hget Hp Hd.
  - exact Hget.
  - apply Forall_cons in Hnd as [Ho Hnd]. apply IH; try assumption.
    + apply store_ok_apply_op; assumption.
    + apply frozen_apply_op; assumption.
Qed.

End WorkerInvariants.

Lemma NoDup_job_id_at_most_one (k : string) (ds : list dlq_record) :
  NoDup (map job_id ds) ->
  (length (filter (fun d => String.eqb (job_id d) k = true) ds) <= 1)%nat.
Proof.
  induction ds as [|d ds IH]; simpl; intros Hnd; [lia|].
  apply NoDup_cons in Hnd as [Hd Hnd]. rewrite filter_cons.
  destruct (decide (String.eqb (job_id d) k = true)) as [E|E]; [|auto].
  apply String.eqb_eq in E. simpl.
  assert (Hnil : filter (fun x => String.eqb (job_id x) k = true) ds = []).
  { destruct (filter _ ds) as [|x l] eqn:Ef; [reflexivity|].
    assert (Hx : x ∈ filter (fun x => String.eqb (job_id x) k = true) ds)
      by (rewrite Ef; left).
    apply list_elem_of_filter in Hx as [Hk Hx]. apply String.eqb_eq in Hk.
    exfalso. apply Hd. apply list_elem_of_fmap. exists x. split; [congruence|exact Hx]. }
  rewrite Hnil. simpl. lia.
Qed.

Lemma store_ok_empty : store_ok empty_store.
Proof.
  repeat split; try constructor.
  intros d r Hd. inversion Hd.
Qed.

(** ** What becomes of a job that fails *)

(** A failed execution whose incremented attempts exceed the budget takes
    the dead-letter branch; the error text depends on the failure branch. *)
Lemma run_claimed_dead (py_float : string -> result Q) (j : job) (out : outcome)
    (now : Q) (iso1 iso2 : string) (s : store) :
  is_failure out = true ->
  attempts j + 1 > max_retries j ->
  exists err, run_claimed py_float j out now iso1 iso2 s = Ok (move_to_dlq j err iso1 iso2 s).
Proof.
  intros Hfail Hgt.
  assert (Hdead : forall err,
    retry_or_dead py_float j (attempts j + 1) err now iso1 iso2 s =
    Ok (move_to_dlq j err iso1 iso2 s)).
  { intros err. unfold retry_or_dead.
    destruct (attempts j + 1 >? max_retries j) eqn:E; [reflexivity|].
    rewrite Z.gtb_ltb, Z.ltb_ge in E. lia. }
  unfold run_claimed. destruct out as [rc|msg|name msg]; simpl in Hfail.
  - destruct (rc =? 0); [discriminate|]. rewrite Hdead. eauto.
  - rewrite Hdead. eauto.
  - rewrite Hdead. eauto.
Qed.

(** C1, as the code has it.  A job is enqueued with [attempts = 0] and
    [max_retries = N], a worker pass claims it and its execution fails.
    - With [N = 0] that first failure dead-letters the job: state [dead]
      and exactly one DLQ record, but the row and the record's snapshot
      both keep [attempts = 0], the count before the failure.
    - With [N >= 1] the pass parks the job in state [failed] with
      [attempts = 1] and an eta, and no DLQ record.  The claim query selects
      pending rows only and nothing sets a failed row back to pending, so
      whatever follows (worker passes at any times, enqueues, DLQ retries,
      control, config and registry calls) the row stays exactly as it is:
      the job is not executed a second time, never becomes [dead] and
      never gets a DLQ record. *)
Theorem failed_job_is_never_retried (py_float : string -> result Q)
    (d : job_dict) (jid now_iso v : string) (N : Z) (base delay : Q)
    (claim_now now : Q) (claim_iso iso1 iso2 : string) (out : outcome)
    (s s0 : store) (j : job) (ops : list op) :
  store_ok s ->
  enqueue d now_iso s = (Ok jid, s0) ->
  default 0 (d_attempts d) = 0 ->
  d_max_retries d = Some N ->
  select_claimable claim_now (jobs s0) = Some j ->
  id j = jid ->
  is_failure out = true ->
  Forall not_delete ops ->
  let s1 := snd (worker_iteration py_float claim_now claim_iso out now iso1 iso2 s0) in
  let s2 := run_ops py_float ops s1 in
  (N = 0 ->
     exists row rec,
       get_job jid s1 = Some row /\
       state row = "dead" /\ attempts row = 0 /\
       dlq_of jid s1 = [rec] /\ attempts (payload rec) = 0) /\
  (1 <= N ->
     config_get "backoff_base" (Some "2") s = Some v ->
     py_float v = Ok base ->
     compute_delay base 1 = Ok delay ->
     exists row,
       get_job jid s1 = Some row /\
       row = Job jid (command j) "failed" 1 N (Some (float_add now delay))
                 (created_at j) iso1 /\
       dlq_of jid s1 = [] /\
       get_job jid s2 = Some row /\
       dlq_of jid s2 = []).
Proof.
  intros Hok Henq Hatt Hmax Hsel Hid Hfail Hnd s1 s2.
  destruct (get_job_enqueued d now_iso jid s s0 Henq) as (cmd & Hget0 & _ & Hcfg0).
  rewrite Hatt, Hmax in Hget0. simpl in Hget0.
  assert (Hok0 : store_ok s0).
  { pose proof (store_ok_enqueue d now_iso s Hok) as H. rewrite Henq in H. exact H. }
  pose proof Hok0 as (Hu0 & _).
  destruct (pop_claims claim_now claim_iso s0 j Hu0 Hsel) as (_ & Hjst & Hjget & Hpop).
  rewrite Hid in Hjget.
  assert (Hj : attempts j = 0 /\ max_retries j = N).
  { rewrite Hget0 in Hjget. inversion Hjget. split; reflexivity. }
  destruct Hj as [Hj0 HjN].
  set (sp := with_jobs (update_where (set_processing claim_iso) (id j) (jobs s0)) s0) in *.
  assert (Hokp : store_ok sp).
  { pose proof (store_ok_pop claim_now claim_iso s0 Hok0) as H. rewrite Hpop in H. exact H. }
  assert (Hgetp : get_job jid sp = Some (set_processing claim_iso j)).
  { unfold sp. rewrite Hid, get_job_update_same by reflexivity. rewrite Hjget. reflexivity. }
  assert (Hnilp : dlq_of jid sp = []).
  { pose proof Hokp as (_ & _ & Hdp & _).
    apply (no_record_of_live sp jid _ Hdp Hgetp). discriminate. }
  assert (Hok1 : store_ok s1).
  { apply (store_ok_apply_op py_float (OpIterate claim_now claim_iso out now iso1 iso2) s0 I Hok0). }
  split.
  - intros HN0.
    destruct (run_claimed_dead py_float j out now iso1 iso2 sp Hfail) as [err Hrun]; [lia|].
    assert (Hs1 : s1 = move_to_dlq j err iso1 iso2 sp).
    { unfold s1, worker_iteration. rewrite Hpop, Hrun. reflexivity. }
    rewrite Hs1. eexists. eexists. split.
    { rewrite get_job_move_to_dlq, Hid, String.eqb_refl, Hgetp. reflexivity. }
    split; [reflexivity|]. split; [exact Hj0|]. split.
    { apply (dlq_of_app jid _ (dlq sp)); [reflexivity|exact Hid|exact Hnilp]. }
    exact Hj0.
  - intros HN1 Hcfg Hparse Hdelay.
    assert (Hrun : run_claimed py_float j out now iso1 iso2 sp =
      Ok (mark_failed_retry (id j) (attempts j + 1) delay now iso1 sp)).
    { apply (run_claimed_retry py_float j out now base delay iso1 iso2 v sp);
        try assumption; try lia.
      - unfold config_get in *. change (config sp) with (config s0). rewrite Hcfg0. exact Hcfg.
      - rewrite Hj0. exact Hdelay. }
    assert (Hs1 : s1 = mark_failed_retry jid 1 delay now iso1 sp).
    { unfold s1, worker_iteration. rewrite Hpop, Hrun, Hid, Hj0. reflexivity. }
    assert (Hget1 : get_job jid s1 =
      Some (Job jid (command j) "failed" 1 N (Some (float_add now delay)) (created_at j) iso1)).
    { rewrite Hs1, get_job_mark_failed_retry, String.eqb_refl, Hgetp.
      unfold set_failed, set_processing. simpl. rewrite Hid, HjN. reflexivity. }
    pose proof Hok1 as (_ & _ & Hd1 & _).
    eexists. split; [exact Hget1|]. split; [reflexivity|]. split.
    { apply (no_record_of_live s1 jid _ Hd1 Hget1). discriminate. }
    assert (Hget2 : get_job jid s2 =
      Some (Job jid (command j) "failed" 1 N (Some (float_add now delay)) (created_at j) iso1)).
    { apply frozen_run_ops; try assumption; discriminate. }
    split; [exact Hget2|].
    pose proof (store_ok_run_ops py_float ops s1 Hnd Hok1) as (_ & _ & Hd2 & _).
    apply (no_record_of_live s2 jid _ Hd2 Hget2). discriminate.
Qed.

(** X15: as long as [delete_job] is not called, the DLQ mirrors the dead
    jobs: in every store reached by enqueues, worker passes, DLQ retries
    and the control, config and registry calls, each DLQ record names a
    job that is in the table in state [dead], and no job has two
    records. *)
Theorem dlq_mirrors_dead_jobs (py_float : string -> result Q) (ops : list op) (s : store) :
  store_ok s ->
  Forall not_delete ops ->
  let s' := run_ops py_float ops s in
  unique_ids s' /\
  (forall d, d ∈ dlq s' ->
     exists r, get_job (job_id d) s' = Some r /\ state r = "dead") /\
  (forall jid, (length (dlq_of jid s') <= 1)%nat) /\
  (forall jid r, get_job jid s' = Some r -> state r <> "dead" -> dlq_of jid s' = []).
Proof.
  intros Hok Hnd s'.
  pose proof (store_ok_run_ops py_float ops s Hnd Hok) as (Hu & Hk & Hd & Hn).
  fold s' in Hu, Hk, Hd, Hn. repeat split.
  - exact Hu.
  - intros d Hdin. unfold dlq_ids_known in Hk. rewrite Forall_forall in Hk.
    specialize (Hk d Hdin). simpl in Hk.
    apply list_elem_of_fmap in Hk as (r & Hid & Hr).
    exists r. split.
    + rewrite Hid. apply find_id_unique; assumption.
    + apply (Hd d r Hdin Hr). congruence.
  - intros jid. apply NoDup_job_id_at_most_one. exact Hn.
  - intros jid r Hget Hst. apply (no_record_of_live s' jid r Hd Hget Hst).
Qed.


(** ** The loop *)

Section LoopProperties.

Variable py_float : string -> result Q.

Lemma run_loop_keeps (ticks : list tick) (s : store) :
  Forall tick_ok ticks -> store_ok s ->
  store_ok (snd (run_loop py_float ticks s)) /\
  forall jid r,
    get_job jid s = Some r -> state r <> "pending" -> state r <> "dead" ->
    get_job jid (snd (run_loop py_float ticks s)) = Some r.
Proof.
  revert s. induction ticks as [|t ticks IH]; intros s Hticks Hok.
  - simpl. split; [exact Hok|]. auto.
  - apply Forall_cons in Hticks as [[Hb Hdu] Hticks]. simpl.
    set (s0 := run_ops py_float (t_before t) s).
    assert (Hok0 : store_ok s0) by (apply store_ok_run_ops; assumption).
    assert (Hfr0 : forall jid r,
      get_job jid s = Some r -> state r <> "pending" -> state r <> "dead" ->
      get_job jid s0 = Some r)
      by (intros; apply frozen_run_ops; assumption).
    destruct (t_signal t || is_stop_requested s0); [simpl; split; assumption|].
    pose proof Hok0 as (Hu0 & _).
    pose proof (store_ok_pop (t_claim_now t) (t_claim_iso t) s0 Hok0) as Hok1.
    destruct (select_claimable (t_claim_now t) (jobs s0)) as [j|] eqn:Hsel.
    + destruct (pop_claims (t_claim_now t) (t_claim_iso t) s0 j Hu0 Hsel)
        as (_ & Hjst & Hjget & Hpop).
      rewrite Hpop in *. simpl in Hok1.
      set (s1 := with_jobs (update_where (set_processing (t_claim_iso t)) (id j) (jobs s0)) s0)
        in *.
      assert (Hj1 : get_job (id j) s1 = Some (set_processing (t_claim_iso t) j)).
      { unfold s1. rewrite get_job_update_same by reflexivity. rewrite Hjget. reflexivity. }
      set (s2 := run_ops py_float (t_during t) s1).
      assert (Hok2 : store_ok s2) by (apply store_ok_run_ops; assumption).
      assert (Hj2 : get_job (id j) s2 = Some (set_processing (t_claim_iso t) j)).
      { apply frozen_run_ops; try assumption; discriminate. }
      assert (Hfr2 : forall jid r,
        get_job jid s = Some r -> state r <> "pending" -> state r <> "dead" ->
        get_job jid s2 = Some r /\ jid <> id j).
      { intros jid r Hget Hp Hd. specialize (Hfr0 jid r Hget Hp Hd).
        assert (Hne : jid <> id j) by (intros ->; congruence).
        split; [|exact Hne].
        apply frozen_run_ops; try assumption.
        unfold s1. rewrite get_job_update_other; [exact Hfr0|reflexivity|exact Hne]. }
      destruct (run_claimed py_float j (t_out t) (t_now t) (t_iso1 t) (t_iso2 t) s2)
        as [s3|e] eqn:Hrun.
      * assert (Hok3 : store_ok s3).
        { eapply store_ok_run_claimed; [exact Hok2|exact Hj2|discriminate|exact Hrun]. }
        destruct (IH s3 Hticks Hok3) as [IH1 IH2]. split; [exact IH1|].
        intros jid r Hget Hp Hd. destruct (Hfr2 jid r Hget Hp Hd) as [Hg2 Hne].
        apply IH2; try assumption.
        rewrite (get_job_run_claimed_other py_float j _ _ _ _ jid s2 s3 Hrun Hne).
        exact Hg2.
      * simpl. split; [exact Hok2|]. intros jid r Hget Hp Hd.
        apply (Hfr2 jid r Hget Hp Hd).
    + unfold pop_pending_for_run in *. rewrite Hsel in *. simpl in Hok1.
      destruct (IH s0 Hticks Hok0) as [IH1 IH2]. split; [exact IH1|].
      intros jid r Hget Hp Hd. apply IH2; try assumption. apply Hfr0; assumption.
Qed.

Lemma run_loop_exits (ticks : list tick) (s : store) :
  Exists (fun t => t_signal t = true) ticks ->
  fst (run_loop py_float ticks s) <> StillRunning.
Proof.
  revert s. induction ticks as [|t ticks IH]; intros s Hex.
  - inversion Hex.
  - simpl. destruct (t_signal t) eqn:Hsig; simpl; [discriminate|].
    apply Exists_cons in Hex as [Hex|Hex]; [congruence|].
    destruct (is_stop_requested _); [discriminate|].
    destruct (pop_pending_for_run _ _ _) as [[j|] s1].
    + destruct (run_claimed _ _ _ _ _ _ _); [apply IH; exact Hex|discriminate].
    + apply IH. exact Hex.
Qed.

End LoopProperties.

(** X17: a worker keeps the tables consistent whatever calls the other
    processes make between its statements (short of [delete_job]): after
    [run_forever], however it ends, the primary key is unique, the DLQ
    records belong to dead jobs, one per job, and every row that was
    settled when the worker started, that is neither pending, nor dead,
    nor processing, is unchanged.  (A row that is [processing] at the start
    is held by a pass in flight in another worker, which will write its
    outcome to it.) *)
Theorem run_forever_keeps_tables (py_float : string -> result Q)
    (pid : Z) (reg_iso : string) (ticks : list tick) (s : store) :
  store_ok s ->
  Forall tick_ok ticks ->
  store_ok (snd (run_forever py_float pid reg_iso ticks s)) /\
  forall jid r,
    get_job jid s = Some r ->
    state r <> "pending" -> state r <> "dead" -> state r <> "processing" ->
    get_job jid (snd (run_forever py_float pid reg_iso ticks s)) = Some r.
Proof.
  intros Hok Hticks. unfold run_forever.
  destruct (run_loop_keeps py_float ticks (register_worker pid reg_iso "default" s)
              Hticks Hok) as [H1 H2].
  destruct (run_loop py_float ticks (register_worker pid reg_iso "default" s))
    as [[| e |] s1]; simpl in *; split; try exact H1;
    intros jid r Hget Hp Hd _; apply H2; assumption.
Qed.

(** X18: once a stop signal has been delivered the worker leaves the loop,
    through the condition or through a fault, and in either case the
    [finally] block has removed its pid from the registry. *)
Theorem run_forever_exits_on_signal (py_float : string -> result Q)
    (pid : Z) (reg_iso : string) (ticks : list tick) (s : store) :
  Exists (fun t => t_signal t = true) ticks ->
  fst (run_forever py_float pid reg_iso ticks s) <> StillRunning /\
  workers (snd (run_forever py_float pid reg_iso ticks s)) !! pid = None.
Proof.
  intros Hex. unfold run_forever.
  pose proof (run_loop_exits py_float ticks (register_worker pid reg_iso "default" s) Hex)
    as Hne.
  destruct (run_loop py_float ticks (register_worker pid reg_iso "default" s))
    as [[| e |] s1]; simpl in *.
  - split; [discriminate|apply lookup_delete_eq].
  - split; [discriminate|apply lookup_delete_eq].
  - contradiction.
Qed.

(** X19: a worker that finds the stop flag set when it evaluates the loop
    condition claims nothing more, whatever ticks would follow; and a
    worker started while the flag is set, with nothing else happening,
    returns at once and leaves the database exactly as it found it. *)
Theorem run_forever_honours_stop_flag (py_float : string -> result Q)
    (pid : Z) (reg_iso : string) (t : tick) (ticks : list tick) (s : store) :
  (is_stop_requested (run_ops py_float (t_before t) s) = true ->
     run_loop py_float (t :: ticks) s = (Stopped, run_ops py_float (t_before t) s)) /\
  (is_stop_requested s = true -> t_before t = [] -> workers s !! pid = None ->
     run_forever py_float pid reg_iso (t :: ticks) s = (Stopped, s)).
Proof.
  split.
  - intros Hstop. simpl. rewrite Hstop, orb_true_r. reflexivity.
  - intros Hstop Hb Hw. unfold run_forever. simpl. rewrite Hb. simpl.
    change (is_stop_requested (register_worker pid reg_iso "default" s))
      with (is_stop_requested s).
    rewrite Hstop, orb_true_r. f_equal.
    unfold deregister_worker, register_worker, with_workers. simpl.
    rewrite delete_insert_eq, delete_id by exact Hw. destruct s; reflexivity.
Qed.

(** * Further properties of the backoff *)

(** X20: what survives of the growth of the delay in binary64.  With a
    base of at least 1 a delay that is returned is at least one second.
    With a delay that is not negative, the eta that [mark_failed_retry]
    stores is not before the failure time [now] (a clock reading, itself a
    binary64 number), though it need not be after it: a delay of [2^-30]
    seconds is absorbed by a clock reading of 1762000000, and
    [0.5 ** 1075.0] is a delay of zero. *)
Theorem backoff_delay_bounds :
  (forall base b n d,
     py_float_of base = Ok b -> (1 <= b)%Q -> 0 <= n < 2 ^ 53 ->
     compute_delay base n = Ok d -> (1 <= d)%Q) /\
  (forall jid k iso s row now delay m e,
     0 < m < 2 ^ 53 -> -1074 <= e -> (now == inject_Z m * 2 ^ e)%Q ->
     (0 <= delay)%Q -> (now + delay < 2 ^ 1024 - 2 ^ 970)%Q ->
     get_job jid (mark_failed_retry jid k delay now iso s) = Some row ->
     exists t, eta row = Some t /\ (now <= t)%Q) /\
  float_add 1762000000 (1 # 1073741824) = 1762000000%Q /\
  compute_delay (1 # 2) 1075 = Ok 0%Q.
Proof.
  split; [|split; [|split]].
  - intros base b n d Hb Hb1 Hn Hd.
    rewrite (compute_delay_round base b n Hb Hn) in Hd.
    destruct (round64 (b ^ n)) as [v|] eqn:Hr; [|discriminate].
    inversion Hd. subst v.
    apply (round64_ge (b ^ n) 1 d 1 0); try lia; try exact Hr.
    + reflexivity.
    + apply Qpower_1_le; [exact Hb1|lia].
  - intros jid k iso s row now delay m e Hm He Hnow Hdelay Hhi Hget.
    rewrite get_job_mark_failed_retry, String.eqb_refl in Hget.
    destruct (get_job jid s) as [r|]; [|discriminate].
    inversion Hget. simpl. eexists. split; [reflexivity|].
    assert (Hpos : (0 < now)%Q).
    { rewrite Hnow. apply Qmult_lt_0_compat; [|apply pow2_pos].
      change 0%Q with (inject_Z 0). rewrite <- Zlt_Qlt. lia. }
    assert (Hlo : (- (2 ^ 1024 - 2 ^ 970) < now + delay)%Q).
    { apply Qlt_trans with 0%Q; [vm_compute; reflexivity|].
      generalize dependent now. intros now. generalize dependent delay.
      intros delay. intros. lra. }
    apply (round64_ge (now + delay) now _ m e Hm He Hnow).
    + lra.
    + apply float_add_rounds; assumption.
  - vm_compute. reflexivity.
  - vm_compute. reflexivity.
Qed.

(** * Further properties of the commands *)

Lemma enqueue_full_dict (jid cmd st created updated now_iso : string) (a m : Z) (s : store) :
  st <> "" -> created <> "" -> updated <> "" ->
  enqueue (JobDict (Some jid) (Some cmd) (Some st) (Some a) (Some m)
                   (Some created) (Some updated)) now_iso s =
  if has_id jid (jobs s)
  then (Raise (IntegrityError "UNIQUE constraint failed: jobs.id"), s)
  else (Ok jid, with_jobs (jobs s ++ [Job jid cmd st a m None created updated]) s).
Proof.
  intros H1 H2 H3. unfold enqueue, get_or. simpl.
  apply String.eqb_neq in H1, H2, H3. rewrite H1, H2, H3. reflexivity.
Qed.

(** X21: [cmd_run] with a parsable configured [max_retries] stores, under a
    fresh id, a pending job with [attempts = 0], that retry budget, no eta
    and its own two timestamps, which the claim query accepts at any time;
    under an id already in [jobs] it raises the integrity fault; and with
    an unparsable configured value it raises that parse fault.  Whenever
    it raises, the store is unchanged. *)
Theorem cmd_run_contract (py_int : string -> result Z)
    (jid cmd created updated now_iso v : string) (s : store) :
  created <> "" -> updated <> "" ->
  config_get "max_retries" (Some "3") s = Some v ->
  (forall n, py_int v = Ok n -> jid ∉ map id (jobs s) ->
     let row := Job jid cmd "pending" 0 n None created updated in
     cmd_run py_int jid cmd created updated now_iso s =
       (Ok jid, with_jobs (jobs s ++ [row]) s) /\
     forall t, eligible t row = true) /\
  (forall n, py_int v = Ok n -> jid ∈ map id (jobs s) ->
     exists msg,
       cmd_run py_int jid cmd created updated now_iso s = (Raise (IntegrityError msg), s)) /\
  (forall e, py_int v = Raise e ->
     cmd_run py_int jid cmd created updated now_iso s = (Raise e, s)) /\
  (forall e s', cmd_run py_int jid cmd created updated now_iso s = (Raise e, s') -> s' = s).
Proof.
  intros Hc Hu Hcfg. unfold cmd_run. rewrite Hcfg. repeat split.
  - rewrite H. rewrite enqueue_full_dict by (try assumption; discriminate).
    apply has_id_false in H0. rewrite H0. reflexivity.
  - intros n Hn Hin. rewrite Hn.
    rewrite enqueue_full_dict by (try assumption; discriminate).
    destruct (has_id jid (jobs s)) eqn:E; [eauto|].
    apply has_id_false in E. contradiction.
  - intros e He. rewrite He. reflexivity.
  - intros e s'. destruct (py_int v) as [n|e'].
    + apply enqueue_no_mutation_on_fault.
    + intros [= _ <-]. reflexivity.
Qed.

(** X22: a retry ceiling written with [config_set] is the one the next
    [cmd_enqueue] without [max_retries] and the next [cmd_run] give to
    their job, while the jobs already stored keep the ceiling they were
    enqueued with. *)
Theorem configured_max_retries_applies (py_int : string -> result Z)
    (v jid cmd created updated now_iso : string) (n : Z) (s : store) :
  py_int v = Ok n ->
  jid ∉ map id (jobs s) ->
  created <> "" -> updated <> "" ->
  let s1 := config_set "max_retries" v s in
  (exists row s2,
     cmd_enqueue py_int (JobDict (Some jid) (Some cmd) None None None None None)
                 now_iso s1 = (Ok jid, s2) /\
     get_job jid s2 = Some row /\ max_retries row = n /\
     forall k, k <> jid -> get_job k s2 = get_job k s) /\
  (exists row s2,
     cmd_run py_int jid cmd created updated now_iso s1 = (Ok jid, s2) /\
     get_job jid s2 = Some row /\ max_retries row = n /\
     forall k, k <> jid -> get_job k s2 = get_job k s).
Proof.
  intros Hint Hfresh Hc Hu s1.
  assert (Hcfg : config_get "max_retries" (Some "3") s1 = Some v).
  { unfold s1, config_get, config_set, with_config. simpl.
    rewrite lookup_insert_eq. reflexivity. }
  pose proof (proj2 (has_id_false jid (jobs s)) Hfresh) as Hhas.
  pose proof (proj2 (find_none_has_id jid (jobs s)) Hhas) as Hnone.
  assert (Hlook : forall row,
    id row = jid ->
    get_job jid (with_jobs (jobs s1 ++ [row]) s1) = Some row /\
    forall k, k <> jid -> get_job k (with_jobs (jobs s1 ++ [row]) s1) = get_job k s).
  { intros row Hid. unfold get_job. simpl. split.
    - rewrite find_app_absent by exact Hnone. rewrite Hid, String.eqb_refl. reflexivity.
    - intros k Hk. apply find_app_other. congruence. }
  split.
  - eexists. eexists. split.
    + unfold cmd_enqueue. simpl. rewrite Hcfg, Hint. unfold enqueue. simpl.
      change (jobs s1) with (jobs s). rewrite Hhas. reflexivity.
    + destruct (Hlook (Job jid cmd "pending" 0 n None now_iso now_iso) eq_refl) as [H1 H2].
      split; [exact H1|]. split; [reflexivity|exact H2].
  - eexists. eexists. split.
    + unfold cmd_run. rewrite Hcfg, Hint.
      rewrite enqueue_full_dict by (try assumption; discriminate).
      change (jobs s1) with (jobs s). rewrite Hhas. reflexivity.
    + destruct (Hlook (Job jid cmd "pending" 0 n None created updated) eq_refl) as [H1 H2].
      split; [exact H1|]. split; [reflexivity|exact H2].
Qed.

(** * The further statements on the sample data *)

Lemma retry_passes_not_delete : Forall not_delete retry_passes.
Proof. repeat constructor. Defined.

(** The scenario of the specification, [max_retries = 2] and a command
    that exits with 1, and the same job with [max_retries = 0]. *)
Lemma failed_job_is_never_retried_witness :
  let s0 := snd (enqueue (failing_dict 2) "2026-01-01T10:00:00Z" empty_store) in
  let s1 := snd (worker_iteration sample_float 10 "2026-01-01T10:00:10Z" (Exited 1)
                   11 "2026-01-01T10:00:11Z" "2026-01-01T10:00:11Z" s0) in
  let z0 := snd (enqueue (failing_dict 0) "2026-01-01T10:00:00Z" empty_store) in
  let z1 := snd (worker_iteration sample_float 10 "2026-01-01T10:00:10Z" (Exited 1)
                   11 "2026-01-01T10:00:11Z" "2026-01-01T10:00:11Z" z0) in
  store_ok empty_store /\
  select_claimable 10 (jobs s0) = Some (failing_job 2) /\
  is_failure (Exited 1) = true /\
  Forall not_delete retry_passes /\
  sample_float "2" = Ok 2%Q /\
  compute_delay 2 1 = Ok 2%Q /\
  (exists row,
     get_job "j1" (run_ops sample_float retry_passes s1) = Some row /\
     state row = "failed" /\ attempts row = 1 /\ eta row = Some 13%Q) /\
  dlq_of "j1" (run_ops sample_float retry_passes s1) = [] /\
  (exists row rec,
     get_job "j1" z1 = Some row /\ state row = "dead" /\ attempts row = 0 /\
     dlq_of "j1" z1 = [rec] /\ attempts (payload rec) = 0).
Proof.
  intros s0 s1 z0 z1.
  assert (Hd : compute_delay 2 1 = Ok 2%Q) by (vm_compute; reflexivity).
  split; [exact store_ok_empty|]. split; [reflexivity|]. split; [reflexivity|].
  split; [exact retry_passes_not_delete|]. split; [reflexivity|]. split; [exact Hd|].
  destruct (failed_job_is_never_retried sample_float (failing_dict 2) "j1"
              "2026-01-01T10:00:00Z" "2" 2 2%Q 2%Q 10 11 "2026-01-01T10:00:10Z"
              "2026-01-01T10:00:11Z" "2026-01-01T10:00:11Z" (Exited 1)
              empty_store s0 (failing_job 2) retry_passes
              store_ok_empty eq_refl eq_refl eq_refl eq_refl eq_refl eq_refl
              retry_passes_not_delete) as [_ Hpark].
  destruct (failed_job_is_never_retried sample_float (failing_dict 0) "j1"
              "2026-01-01T10:00:00Z" "2" 0 2%Q 2%Q 10 11 "2026-01-01T10:00:10Z"
              "2026-01-01T10:00:11Z" "2026-01-01T10:00:11Z" (Exited 1)
              empty_store z0 (failing_job 0) retry_passes
              store_ok_empty eq_refl eq_refl eq_refl eq_refl eq_refl eq_refl
              retry_passes_not_delete) as [Hdead _].
  destruct Hpark as (row & _ & Hrow & _ & Hget2 & Hnil2); [lia|reflexivity|reflexivity|exact Hd|].
  split.
  { exists row. split; [exact Hget2|]. rewrite Hrow.
    split; [reflexivity|]. split; [reflexivity|]. vm_compute. reflexivity. }
  split; [exact Hnil2|].
  exact (Hdead eq_refl).
Defined.

Lemma parked_store_ok : store_ok parked_store.
Proof.
  split; [|split; [|split]].
  - unfold unique_ids. apply (bool_decide_unpack _). vm_compute. exact I.
  - unfold dlq_ids_known. simpl. constructor; [|constructor].
    apply (bool_decide_unpack _). vm_compute. exact I.
  - intros d r Hd Hr Hid. simpl in Hd, Hr.
    apply list_elem_of_singleton in Hd. subst d. simpl in Hid.
    repeat (apply elem_of_cons in Hr as [->|Hr]); try discriminate; try reflexivity.
    inversion Hr.
  - simpl. apply NoDup_singleton.
Defined.

Lemma sample_store_seq_ok : dlq_seq_ok sample_store.
Proof.
  split; [simpl; lia|]. split; [simpl; apply NoDup_singleton|].
  simpl. constructor; [simpl; lia|constructor].
Defined.

Lemma enqueue_then_get_job_witness :
  let d := minimal_dict "new" "echo 1" in
  let s0 := snd (enqueue d "2026-01-01T10:00:00Z" sample_store) in
  enqueue d "2026-01-01T10:00:00Z" sample_store = (Ok "new", s0) /\
  get_job "new" sample_store = None /\
  (exists row, get_job "new" s0 = Some row /\ id row = "new") /\
  get_job "due" s0 = get_job "due" sample_store.
Proof.
  intros d s0.
  destruct (enqueue_then_get_job d "2026-01-01T10:00:00Z" "new" sample_store s0 eq_refl)
    as (Hnone & (row & Hget & _ & Hid & _) & Hother & _).
  split; [reflexivity|]. split; [exact Hnone|]. split.
  - exists row. split; assumption.
  - apply Hother. discriminate.
Defined.

Lemma enqueue_twice_rejected_witness :
  let d := minimal_dict "new" "echo 1" in
  let s0 := snd (enqueue d "2026-01-01T10:00:00Z" sample_store) in
  enqueue d "2026-01-01T10:00:00Z" sample_store = (Ok "new", s0) /\
  exists msg,
    enqueue (minimal_dict "new" "echo 2") "2026-01-01T10:00:05Z" s0 =
      (Raise (IntegrityError msg), s0).
Proof.
  intros d s0. split; [reflexivity|].
  apply (enqueue_twice_rejected d (minimal_dict "new" "echo 2")
           "2026-01-01T10:00:00Z" "2026-01-01T10:00:05Z" "new" "echo 2" sample_store s0);
    reflexivity.
Defined.

Lemma delete_job_effect_witness :
  get_job "gone" sample_store <> None /\
  fst (delete_job "gone" sample_store) = true /\
  get_job "gone" (snd (delete_job "gone" sample_store)) = None /\
  "due" <> "gone" /\
  get_job "due" (snd (delete_job "gone" sample_store)) = get_job "due" sample_store /\
  dlq_of "gone" (snd (delete_job "gone" sample_store)) = dlq_of "gone" sample_store.
Proof.
  destruct (delete_job_effect "gone" sample_store) as (Hb & Hnone & Hother & _ & Hdlq).
  assert (Hex : get_job "gone" sample_store <> None) by discriminate.
  split; [exact Hex|]. split; [apply Hb; exact Hex|]. split; [exact Hnone|].
  split; [discriminate|]. split; [apply Hother; discriminate|exact Hdlq].
Defined.

Lemma updates_on_unknown_id_witness :
  get_job "nobody" sample_store = None /\
  mark_completed "nobody" "2026-01-01T10:00:00Z" sample_store = sample_store /\
  mark_failed_retry "nobody" 1 2%Q 10%Q "2026-01-01T10:00:00Z" sample_store = sample_store.
Proof.
  destruct (updates_on_unknown_id "nobody" sample_store eq_refl) as (H1 & H2 & _).
  split; [reflexivity|]. split; [apply H1|apply H2].
Defined.

(** Retrying the record of a job that was deleted: [True], and nothing is
    re-queued. *)
Lemma retry_from_dlq_effect_witness :
  let s := snd (delete_job "gone" sample_store) in
  dlq_of "gone" s <> [] /\
  get_job "gone" s = None /\
  fst (retry_from_dlq "gone" "2026-01-01T10:00:00Z" s) = true /\
  jobs (snd (retry_from_dlq "gone" "2026-01-01T10:00:00Z" s)) = jobs s /\
  dlq_of "gone" (snd (retry_from_dlq "gone" "2026-01-01T10:00:00Z" s)) = [].
Proof.
  intros s.
  destruct (retry_from_dlq_effect "gone" "2026-01-01T10:00:00Z" s)
    as (Hb & Hnil & _ & _ & Horphan).
  assert (Hrec : dlq_of "gone" s <> []) by discriminate.
  split; [exact Hrec|]. split; [reflexivity|]. split; [apply Hb; exact Hrec|].
  split; [apply Horphan; reflexivity|exact Hnil].
Defined.


Lemma config_set_then_get_witness :
  config_get "backoff_base" None (config_set "backoff_base" "3" sample_store) = Some "3" /\
  "max_retries" <> "backoff_base" /\
  config_get "max_retries" (Some "3") (config_set "backoff_base" "3" sample_store) =
    config_get "max_retries" (Some "3") sample_store.
Proof.
  destruct (config_set_then_get "backoff_base" "3" sample_store) as (H1 & _ & H3 & _).
  split; [apply H1|]. split; [discriminate|]. apply H3. discriminate.
Defined.

Lemma list_jobs_spec_witness :
  0 <= 2 /\
  (length (list_jobs (Some "pending") 2 sample_store) <= Z.to_nat 2)%nat /\
  forall r, r ∈ list_jobs (Some "pending") 2 sample_store -> state r = "pending".
Proof.
  destruct (list_jobs_spec (Some "pending") 2 sample_store) as (_ & _ & Hst & _ & Hlen & _).
  split; [lia|]. split; [apply Hlen; lia|].
  intros r Hr. apply (Hst "pending" r); [reflexivity|discriminate|discriminate|exact Hr].
Defined.

Lemma list_dlq_spec_witness :
  -1 < 0 /\ list_dlq (-1) sample_store ≡ₚ dlq sample_store.
Proof.
  destruct (list_dlq_spec (-1) sample_store) as (_ & _ & _ & Hall & _).
  split; [lia|]. apply Hall. left. lia.
Defined.

Lemma stats_counts_witness :
  st_total (stats sample_store) = 5 /\
  st_states (stats sample_store) !! "pending" = Some 3 /\
  0 < 3 /\ exists r, r ∈ jobs sample_store /\ state r = "pending".
Proof.
  destruct (stats_counts sample_store) as (Ht & Hl & Hpos & _).
  split; [exact Ht|].
  assert (Hp : st_states (stats sample_store) !! "pending" = Some 3) by (rewrite Hl; reflexivity).
  split; [exact Hp|]. exact (Hpos "pending" 3 Hp).
Defined.

Lemma select_fresh_at_10 : select_claimable 10 (jobs sample_store) = Some job_fresh.
Proof. reflexivity. Defined.

Lemma worker_iteration_completes_witness :
  unique_ids sample_store /\
  select_claimable 10 (jobs sample_store) = Some job_fresh /\
  exists s',
    worker_iteration sample_float 10 "2026-01-01T10:00:00Z" (Exited 0)
                     11 "2026-01-01T10:00:01Z" "2026-01-01T10:00:01Z" sample_store
      = (None, s') /\
    get_job "fresh" s' =
      Some (Job "fresh" "echo hi" "completed" 0 3 None
                "2026-01-01T09:00:00Z" "2026-01-01T10:00:01Z").
Proof.
  split; [exact sample_store_unique_ids|]. split; [reflexivity|].
  destruct (worker_iteration_completes sample_float 10 11 "2026-01-01T10:00:00Z"
              "2026-01-01T10:00:01Z" "2026-01-01T10:00:01Z" sample_store job_fresh
              sample_store_unique_ids select_fresh_at_10)
    as (s' & Hrun & Hget & _).
  exists s'. split; [exact Hrun|exact Hget].
Defined.

(** The fresh job of the sample database fails its first run at time 11:
    parked as [failed] with one attempt and eta = 11.0 + 2.0 ** 1.0 = 13.0. *)
Lemma worker_iteration_parks_failed_witness :
  unique_ids sample_store /\
  is_failure (Exited 1) = true /\
  attempts job_fresh + 1 <= max_retries job_fresh /\
  config_get "backoff_base" (Some "2") sample_store = Some "2" /\
  sample_float "2" = Ok 2%Q /\
  compute_delay 2 (attempts job_fresh + 1) = Ok 2%Q /\
  exists s' row,
    worker_iteration sample_float 10 "2026-01-01T10:00:00Z" (Exited 1)
                     11 "2026-01-01T10:00:01Z" "2026-01-01T10:00:01Z" sample_store
      = (None, s') /\
    get_job "fresh" s' = Some row /\
    state row = "failed" /\ attempts row = 1 /\ eta row = Some 13%Q /\
    forall t, eligible t row = false.
Proof.
  split; [exact sample_store_unique_ids|]. split; [reflexivity|].
  split; [simpl; lia|]. split; [reflexivity|]. split; [reflexivity|].
  split; [vm_compute; reflexivity|].
  destruct (worker_iteration_parks_failed sample_float 10 11 2%Q 2%Q "2026-01-01T10:00:00Z"
              "2026-01-01T10:00:01Z" "2026-01-01T10:00:01Z" "2" (Exited 1)
              sample_store job_fresh sample_store_unique_ids select_fresh_at_10)
    as (s' & row & Hrun & Hget & Hrow & Hel & _).
  - reflexivity.
  - simpl. lia.
  - reflexivity.
  - reflexivity.
  - vm_compute. reflexivity.
  - exists s', row. split; [exact Hrun|]. split; [exact Hget|].
    rewrite Hrow. split; [reflexivity|]. split; [reflexivity|].
    split; [vm_compute; reflexivity|].
    intros t. rewrite <- Hrow. apply Hel.
Defined.


Lemma later_store_unique_ids : unique_ids later_store.
Proof. unfold unique_ids. apply (bool_decide_unpack _). vm_compute. exact I. Defined.

(** With every [backoff_base] unparsable: [job_later], on its last retry,
    is dead-lettered by a single failed exit with the parse error as its
    [last_error]; [job_fresh], with retries to spare, brings the worker
    down and stays [processing]. *)
Lemma worker_iteration_bad_backoff_witness :
  (exists s',
     worker_iteration broken_float 200 "2026-01-01T10:00:00Z" (Exited 1)
                      201 "2026-01-01T10:00:01Z" "2026-01-01T10:00:01Z" later_store
       = (None, s') /\
     exists row rec,
       get_job "later" s' = Some row /\ state row = "dead" /\
       dlq_of "later" s' = [rec] /\
       last_error rec = "ValueError: could not convert string to float: 2") /\
  (exists e s1 row,
     worker_iteration broken_float 10 "2026-01-01T10:00:00Z" (Exited 1)
                      11 "2026-01-01T10:00:01Z" "2026-01-01T10:00:01Z" sample_store
       = (Some e, s1) /\
     get_job "fresh" s1 = Some row /\ state row = "processing").
Proof.
  split.
  - destruct (worker_iteration_bad_backoff broken_float 200 201 "2026-01-01T10:00:00Z"
                "2026-01-01T10:00:01Z" "2026-01-01T10:00:01Z" "2" 1
                (ValueError "could not convert string to float: 2")
                later_store job_later later_store_unique_ids eq_refl)
      as [Hdead _].
    + discriminate.
    + simpl. lia.
    + reflexivity.
    + reflexivity.
    + destruct (Hdead eq_refl) as (Hrun & row & Hget & Hst & _).
      eexists. split; [exact Hrun|].
      exists row. eexists. split; [exact Hget|]. split; [exact Hst|].
      split; reflexivity.
  - destruct (worker_iteration_bad_backoff broken_float 10 11 "2026-01-01T10:00:00Z"
                "2026-01-01T10:00:01Z" "2026-01-01T10:00:01Z" "2" 1
                (ValueError "could not convert string to float: 2")
                sample_store job_fresh sample_store_unique_ids eq_refl)
      as [_ Hcrash].
    + discriminate.
    + simpl. lia.
    + reflexivity.
    + reflexivity.
    + destruct Hcrash as (Hrun & row & Hget & Hst & _); [simpl; lia|].
      eexists. eexists. exists row. split; [exact Hrun|]. split; [exact Hget|exact Hst].
Defined.

Lemma due_store_unique_ids : unique_ids due_store.
Proof. unfold unique_ids. apply (bool_decide_unpack _). vm_compute. exact I. Defined.

(** With [backoff_base = 1e200]: [job_later], on its last retry, would wait
    [1e600] seconds; the overflow dead-letters it with the error text of the
    [OverflowError].  [job_due], with two retries left, overflows at
    [1e400] and again at [1e600], which brings the worker down. *)
Lemma worker_iteration_delay_overflow_witness :
  let cfg := config_set "backoff_base" "1e200" in
  let err := OverflowError "(34, 'Numerical result out of range')" in
  wide_float "1e200" = Ok (inject_Z (5883593420661338 * 2 ^ 612)) /\
  compute_delay (inject_Z (5883593420661338 * 2 ^ 612)) 3 = Raise err /\
  compute_delay (inject_Z (5883593420661338 * 2 ^ 612)) 2 = Raise err /\
  (exists s',
     worker_iteration wide_float 200 "2026-01-01T10:00:00Z" (Exited 1)
                      201 "2026-01-01T10:00:01Z" "2026-01-01T10:00:01Z" (cfg later_store)
       = (None, s') /\
     exists row rec,
       get_job "later" s' = Some row /\ state row = "dead" /\
       dlq_of "later" s' = [rec] /\
       last_error rec = "OverflowError: (34, 'Numerical result out of range')") /\
  (exists s1 row,
     worker_iteration wide_float 10 "2026-01-01T10:00:00Z" (Exited 1)
                      11 "2026-01-01T10:00:01Z" "2026-01-01T10:00:01Z" (cfg due_store)
       = (Some err, s1) /\
     get_job "due" s1 = Some row /\ state row = "processing").
Proof.
  intros cfg err.
  assert (H3 : compute_delay (inject_Z (5883593420661338 * 2 ^ 612)) 3 = Raise err)
    by (vm_compute; reflexivity).
  assert (H2 : compute_delay (inject_Z (5883593420661338 * 2 ^ 612)) 2 = Raise err)
    by (vm_compute; reflexivity).
  split; [reflexivity|]. split; [exact H3|]. split; [exact H2|].
  split.
  - destruct (worker_iteration_delay_overflow wide_float 200 201
                (inject_Z (5883593420661338 * 2 ^ 612)) "2026-01-01T10:00:00Z"
                "2026-01-01T10:00:01Z" "2026-01-01T10:00:01Z" "1e200" 1 err
                (cfg later_store) job_later later_store_unique_ids eq_refl)
      as (Hdead & _ & _).
    + discriminate.
    + simpl. lia.
    + reflexivity.
    + reflexivity.
    + exact H3.
    + destruct (Hdead eq_refl) as (Hrun & row & Hget & Hst & _).
      eexists. split; [exact Hrun|].
      exists row. eexists. split; [exact Hget|]. split; [exact Hst|].
      split; reflexivity.
  - destruct (worker_iteration_delay_overflow wide_float 10 11
                (inject_Z (5883593420661338 * 2 ^ 612)) "2026-01-01T10:00:00Z"
                "2026-01-01T10:00:01Z" "2026-01-01T10:00:01Z" "1e200" 1 err
                (cfg due_store) job_due due_store_unique_ids eq_refl)
      as (_ & Hcrash & _).
    + discriminate.
    + simpl. lia.
    + reflexivity.
    + reflexivity.
    + exact H2.
    + destruct (Hcrash ltac:(simpl; lia) err H3) as (Hrun & row & Hget & Hst & _).
      eexists. exists row. split; [exact Hrun|]. split; [exact Hget|exact Hst].
Defined.

(** At time 10 the first claim takes [job_fresh] (no eta) and the second
    [job_due]. *)
Lemma successive_claims_in_order_witness :
  let s1 := snd (pop_pending_for_run 10 "2026-01-01T10:00:00Z" sample_store) in
  let s2 := snd (pop_pending_for_run 10 "2026-01-01T10:00:01Z" s1) in
  pop_pending_for_run 10 "2026-01-01T10:00:00Z" sample_store = (Some job_fresh, s1) /\
  pop_pending_for_run 10 "2026-01-01T10:00:01Z" s1 = (Some job_due, s2) /\
  eligible 10 job_due = true /\
  job_due ∈ jobs sample_store /\
  (eta job_due = None -> eta job_fresh = None).
Proof.
  intros s1 s2.
  destruct (successive_claims_in_order 10 10 "2026-01-01T10:00:00Z" "2026-01-01T10:00:01Z"
              sample_store s1 s2 job_fresh job_due eq_refl eq_refl eq_refl)
    as (Hin & Heta & _).
  split; [reflexivity|]. split; [reflexivity|]. split; [reflexivity|].
  split; [exact Hin|exact Heta].
Defined.

Lemma later_ops_not_delete : Forall not_delete later_ops.
Proof. repeat constructor. Defined.

Lemma dlq_mirrors_dead_jobs_witness :
  store_ok parked_store /\
  Forall not_delete later_ops /\
  unique_ids (run_ops sample_float later_ops parked_store) /\
  (length (dlq_of "gone" (run_ops sample_float later_ops parked_store)) <= 1)%nat.
Proof.
  destruct (dlq_mirrors_dead_jobs sample_float later_ops parked_store
              parked_store_ok later_ops_not_delete) as (Hu & _ & Hone & _).
  split; [exact parked_store_ok|]. split; [exact later_ops_not_delete|].
  split; [exact Hu|apply Hone].
Defined.


Lemma sample_ticks_ok : Forall tick_ok [sample_tick false; sample_tick true].
Proof. repeat constructor. Defined.

Lemma run_forever_keeps_tables_witness :
  store_ok parked_store /\
  Forall tick_ok [sample_tick false; sample_tick true] /\
  store_ok (snd (run_forever sample_float 4242 "2026-01-01T10:59:00Z"
                   [sample_tick false; sample_tick true] parked_store)) /\
  get_job "parked"
    (snd (run_forever sample_float 4242 "2026-01-01T10:59:00Z"
            [sample_tick false; sample_tick true] parked_store)) = Some job_parked.
Proof.
  destruct (run_forever_keeps_tables sample_float 4242 "2026-01-01T10:59:00Z"
              [sample_tick false; sample_tick true] parked_store
              parked_store_ok sample_ticks_ok) as [Hok Hfrozen].
  split; [exact parked_store_ok|]. split; [exact sample_ticks_ok|].
  split; [exact Hok|].
  apply Hfrozen; [reflexivity|discriminate|discriminate|discriminate].
Defined.

Lemma run_forever_exits_on_signal_witness :
  Exists (fun t => t_signal t = true) [quiet_tick; sample_tick true] /\
  fst (run_forever sample_float 4242 "2026-01-01T10:59:00Z"
         [quiet_tick; sample_tick true] sample_store) <> StillRunning /\
  workers (snd (run_forever sample_float 4242 "2026-01-01T10:59:00Z"
                  [quiet_tick; sample_tick true] sample_store)) !! 4242 = None.
Proof.
  assert (Hex : Exists (fun t => t_signal t = true) [quiet_tick; sample_tick true]).
  { apply Exists_cons. right. apply Exists_cons. left. reflexivity. }
  split; [exact Hex|].
  apply (run_forever_exits_on_signal sample_float 4242 "2026-01-01T10:59:00Z"
           [quiet_tick; sample_tick true] sample_store Hex).
Defined.

Lemma run_forever_honours_stop_flag_witness :
  let s := request_stop sample_store in
  is_stop_requested s = true /\
  workers s !! 4242 = None /\
  run_forever sample_float 4242 "2026-01-01T10:59:00Z" [quiet_tick; quiet_tick] s
    = (Stopped, s).
Proof.
  intros s. split; [reflexivity|]. split; [reflexivity|].
  destruct (run_forever_honours_stop_flag sample_float 4242 "2026-01-01T10:59:00Z"
              quiet_tick [quiet_tick] s) as [_ H].
  apply H; reflexivity.
Defined.

(** Base 2 and ten attempts: a delay of 1024 seconds; and the fresh job of
    the sample database parked at clock reading 1762000000 with a delay of
    two seconds. *)
Lemma backoff_delay_bounds_witness :
  let row := Job "fresh" "echo hi" "failed" 1 3 (Some 1762000002%Q)
                 "2026-01-01T09:00:00Z" "2026-11-01T12:26:40Z" in
  py_float_of 2 = Ok 2%Q /\
  compute_delay 2 10 = Ok 1024%Q /\
  (1 <= 1024)%Q /\
  get_job "fresh" (mark_failed_retry "fresh" 1 2 1762000000 "2026-11-01T12:26:40Z"
                                     sample_store) = Some row /\
  exists t, eta row = Some t /\ (1762000000 <= t)%Q.
Proof.
  intros row.
  destruct backoff_delay_bounds as (Hone & Heta & _).
  assert (Hb : py_float_of 2 = Ok 2%Q) by (vm_compute; reflexivity).
  assert (Hd : compute_delay 2 10 = Ok 1024%Q) by (vm_compute; reflexivity).
  assert (Hget : get_job "fresh"
            (mark_failed_retry "fresh" 1 2 1762000000 "2026-11-01T12:26:40Z" sample_store)
          = Some row) by (vm_compute; reflexivity).
  split; [exact Hb|]. split; [exact Hd|].
  split.
  { apply (Hone 2%Q 2%Q 10 1024%Q Hb); [vm_compute; discriminate|lia|exact Hd]. }
  split; [exact Hget|].
  apply (Heta "fresh" 1 "2026-11-01T12:26:40Z" sample_store row 1762000000%Q 2%Q
              1762000000 0); try lia.
  - vm_compute. reflexivity.
  - vm_compute. discriminate.
  - vm_compute. reflexivity.
  - exact Hget.
Defined.

Lemma cmd_run_contract_witness :
  config_get "max_retries" (Some "3") sample_store = Some "3" /\
  sample_int "3" = Ok 3 /\
  ("new" ∉ map id (jobs sample_store)) /\
  cmd_run sample_int "new" "echo 1" "2026-01-01T10:00:00Z" "2026-01-01T10:00:01Z"
          "2026-01-01T10:00:02Z" sample_store =
    (Ok "new",
     with_jobs (jobs sample_store ++
                [Job "new" "echo 1" "pending" 0 3 None
                     "2026-01-01T10:00:00Z" "2026-01-01T10:00:01Z"]) sample_store).
Proof.
  assert (Hfresh : "new" ∉ map id (jobs sample_store)).
  { apply (bool_decide_unpack _). vm_compute. exact I. }
  split; [reflexivity|]. split; [reflexivity|]. split; [exact Hfresh|].
  destruct (cmd_run_contract sample_int "new" "echo 1" "2026-01-01T10:00:00Z"
              "2026-01-01T10:00:01Z" "2026-01-01T10:00:02Z" "3" sample_store)
    as (Hok & _).
  - discriminate.
  - discriminate.
  - reflexivity.
  - destruct (Hok 3 eq_refl Hfresh) as [Hrun _]. exact Hrun.
Defined.

Lemma configured_max_retries_applies_witness :
  sample_int "5" = Ok 5 /\
  ("new" ∉ map id (jobs sample_store)) /\
  exists row s2,
    cmd_enqueue sample_int (minimal_dict "new" "echo 1") "2026-01-01T10:00:00Z"
                (config_set "max_retries" "5" sample_store) = (Ok "new", s2) /\
    get_job "new" s2 = Some row /\ max_retries row = 5 /\
    get_job "due" s2 = Some job_due.
Proof.
  assert (Hfresh : "new" ∉ map id (jobs sample_store)).
  { apply (bool_decide_unpack _). vm_compute. exact I. }
  split; [reflexivity|]. split; [exact Hfresh|].
  destruct (configured_max_retries_applies sample_int "5" "new" "echo 1"
              "2026-01-01T10:00:00Z" "2026-01-01T10:00:01Z" "2026-01-01T10:00:00Z" 5
              sample_store eq_refl Hfresh)
    as [(row & s2 & Hrun & Hget & Hmax & Hother) _].
  - discriminate.
  - discriminate.
  - exists row, s2. split; [exact Hrun|]. split; [exact Hget|]. split; [exact Hmax|].
    rewrite Hother by discriminate. reflexivity.
Defined.
